(** * XanaAI backend: provider gateway, intent gating and query orchestration

    A shallow embedding of the TypeScript services of the backend
    (the OPEA/OVMS gateway [OpeaService], the Ollama gateway
    [OllamaService] and the orchestrator [QueryService]) together with the
    properties their specification states about them.

    Conventions of the embedding.
    - A JavaScript string is the list of its UTF-16 code units ([jsstring]).
    - Values whose TypeScript type is [any] (provider payloads, parsed JSON,
      [Record<string, any>]) are values of [jsval]; truthiness, [typeof],
      [??], [||] and property access follow ECMAScript.
    - Values with a declared interface ([RerankResult], [ChatMsg], hits)
      are records.
    - [async] code that can throw and that writes to the logger runs in the
      monad [M]: a logger state threaded through a computation that ends in
      a value or in a thrown exception. External collaborators (HTTP
      providers, the alert API, Postgres, [JSON.parse]) are section
      variables. *)

From Stdlib Require Import ZArith QArith Qround Lqa List String Ascii Permutation Sorted Bool Lia.
From stdpp Require Import base tactics option list.

Local Open Scope Z_scope.

(** ** JavaScript values *)

Module Js.

(** A string is its sequence of UTF-16 code units. *)
Abbreviation jsstring := (list Z).

(** Code units of a literal whose characters are all ASCII. *)
Definition lit (s : string) : jsstring :=
  List.map (fun a => Z.of_N (N_of_ascii a)) (list_ascii_of_string s).

Definition LF : Z := 10.

(** Every code unit of a string is a 16-bit number. *)
Definition is_jsstring (s : jsstring) : Prop :=
  Forall (fun c => 0 <= c < 65536) s.

Fixpoint str_eqb (a b : jsstring) : bool :=
  match a, b with
  | [], [] => true
  | x :: a', y :: b' => (x =? y) && str_eqb a' b'
  | _, _ => false
  end.

(** [WhiteSpace] and [LineTerminator] code units: what [String.prototype.trim]
    removes and what the regular expression class [\s] matches. *)
Definition is_space (c : Z) : bool :=
  (9 <=? c) && (c <=? 13) || (c =? 32) || (c =? 160) || (c =? 5760)
  || (8192 <=? c) && (c <=? 8202) || (c =? 8232) || (c =? 8233)
  || (c =? 8239) || (c =? 8287) || (c =? 12288) || (c =? 65279).

Fixpoint trim_start (s : jsstring) : jsstring :=
  match s with
  | c :: t => if is_space c then trim_start t else s
  | [] => []
  end.

Definition trim_end (s : jsstring) : jsstring :=
  reverse (trim_start (reverse s)).

Definition trim (s : jsstring) : jsstring := trim_end (trim_start s).

(** The values of the language. A number is a finite number, kept exact;
    where [NaN] can arise it is a case of its own ([jsint], [option]). *)
#[warnings="-register-all"]
Inductive jsval : Type :=
  | JUndefined
  | JNull
  | JBool (b : bool)
  | JNum (q : Q)
  | JStr (s : jsstring)
  | JArr (items : list jsval)
  | JObj (fields : list (jsstring * jsval)).

Inductive jstype := TUndefined | TObject | TBoolean | TNumber | TString.

Definition typeof (v : jsval) : jstype :=
  match v with
  | JUndefined => TUndefined
  | JNull | JArr _ | JObj _ => TObject
  | JBool _ => TBoolean
  | JNum _ => TNumber
  | JStr _ => TString
  end.

Definition is_string (v : jsval) : bool :=
  match v with JStr _ => true | _ => false end.

(** ToBoolean. Every object, the empty array included, is truthy. *)
Definition truthy (v : jsval) : bool :=
  match v with
  | JUndefined | JNull => false
  | JBool b => b
  | JNum q => negb (Qeq_bool q 0)
  | JStr s => match s with [] => false | _ => true end
  | JArr _ | JObj _ => true
  end.

Definition nullish (v : jsval) : bool :=
  match v with JUndefined | JNull => true | _ => false end.

(** [a ?? b] and [a || b]. *)
Definition coalesce (a b : jsval) : jsval := if nullish a then b else a.
Definition or_else (a b : jsval) : jsval := if truthy a then a else b.

(** Own properties of an object, in insertion order. *)
Fixpoint obj_get (k : jsstring) (o : list (jsstring * jsval)) : option jsval :=
  match o with
  | [] => None
  | (k', v) :: o' => if str_eqb k k' then Some v else obj_get k o'
  end.

(** Assignment of one property: an existing key keeps its place. *)
Fixpoint obj_set (k : jsstring) (v : jsval) (o : list (jsstring * jsval))
  : list (jsstring * jsval) :=
  match o with
  | [] => [(k, v)]
  | (k', v') :: o' =>
      if str_eqb k k' then (k, v) :: o' else (k', v') :: obj_set k v o'
  end.

(** [{ ...o, ...e }]: the properties of [e] are assigned in order. *)
Definition obj_spread (o e : list (jsstring * jsval)) : list (jsstring * jsval) :=
  fold_left (fun acc kv => obj_set kv.1 kv.2 acc) e o.

(** [v.k] on a value that is not [null] or [undefined]. Arrays answer
    [length]; other properties of arrays and of primitives are absent. *)
Definition prop (v : jsval) (k : string) : jsval :=
  match v with
  | JObj o => default JUndefined (obj_get (lit k) o)
  | JArr l => if String.eqb k "length" then JNum (inject_Z (Z.of_nat (length l)))
              else JUndefined
  | _ => JUndefined
  end.

(** [v?.k] *)
Definition oprop (v : jsval) (k : string) : jsval :=
  if nullish v then JUndefined else prop v k.

(** [v?.[0]] *)
Definition ofirst (v : jsval) : jsval :=
  match v with
  | JArr l => default JUndefined (l !! 0%nat)
  | JObj o => default JUndefined (obj_get (lit "0") o)
  | JStr (c :: _) => JStr [c]
  | _ => JUndefined
  end.

(** A number known to be an integer, or [NaN]: what [parseInt] returns. An
    integer of magnitude [2^1024] or more stands for the infinity of its
    sign, which is what a double of that magnitude is. *)
Inductive jsint := NaN | Int (z : Z).

(** Exceptions and the logger. [Unmodelled] is not an exception of the
    source: it ends a run of the embedding at a point where the source goes
    on with a value that the embedding has no counterpart for (a value of
    another type in a field that a declared interface types as a number, a
    string coerced to a number). No property below is stated about such a
    run. *)
Inductive exn_kind :=
  | TypeError | RangeError | SyntaxError | PlainError
  | BadRequestException | InternalServerErrorException | TransportError
  | Unmodelled.

Record exn := Exn { kind : exn_kind; message : jsstring }.

(** [String(e)] for a caught error [e]: its name, a colon and its message. *)
Definition error_name (k : exn_kind) : jsstring :=
  match k with
  | TypeError => lit "TypeError"
  | RangeError => lit "RangeError"
  | SyntaxError => lit "SyntaxError"
  | PlainError => lit "Error"
  | BadRequestException => lit "BadRequestException"
  | InternalServerErrorException => lit "InternalServerErrorException"
  | TransportError => lit "AxiosError"
  | Unmodelled => lit "Unmodelled"
  end.

Definition error_string (e : exn) : jsstring :=
  match message e with
  | [] => error_name (kind e)
  | m => error_name (kind e) ++ lit ": " ++ m
  end.

Inductive res (A : Type) : Type :=
  | Ok (a : A)
  | Throw (e : exn).
Arguments Ok {A} a.
Arguments Throw {A} e.

(** The logger keeps the lines written with [warn] and [error]; [log] and
    [debug] lines carry no information the properties below depend on.
    Only the first argument of a logger call, the message, is recorded. *)
Inductive level := Warn | Error.
Record entry := Entry { lvl : level; line : jsstring }.

Definition M (A : Type) : Type := list entry -> res A * list entry.

Definition ret {A} (a : A) : M A := fun l => (Ok a, l).
Definition throw {A} (e : exn) : M A := fun l => (Throw e, l).
Definition bind {A B} (m : M A) (k : A -> M B) : M B :=
  fun l => match m l with
           | (Ok a, l') => k a l'
           | (Throw e, l') => (Throw e, l')
           end.
Definition try_catch {A} (m : M A) (handler : exn -> M A) : M A :=
  fun l => match m l with
           | (Ok a, l') => (Ok a, l')
           | (Throw e, l') => handler e l'
           end.
Definition log_line (lv : level) (t : jsstring) : M unit :=
  fun l => (Ok tt, l ++ [Entry lv t]).
Definition lift {A} (r : res A) : M A := fun l => (r, l).

#[global] Instance M_ret : MRet M := @ret.
#[global] Instance M_bind : MBind M := fun A B k m => bind m k.

(** Code that can throw but does not log. *)
#[global] Instance res_ret : MRet res := @Ok.
#[global] Instance res_bind : MBind res :=
  fun A B k r => match r with Ok a => k a | Throw e => Throw e end.

(** [xs.map(f)] where [f] can throw. *)
Fixpoint map_res {A B} (f : A -> res B) (xs : list A) : res (list B) :=
  match xs with
  | [] => Ok []
  | x :: xs' =>
      match f x with
      | Ok y => match map_res f xs' with
                | Ok ys => Ok (y :: ys)
                | Throw e => Throw e
                end
      | Throw e => Throw e
      end
  end.

(** [v.k] where [v] may be [null] or [undefined]: a [TypeError]. *)
Definition prop_strict (v : jsval) (k : string) : res jsval :=
  if nullish v then Throw (Exn TypeError (lit "Cannot read properties"))
  else Ok (prop v k).

(** [v.map(...)] on a value of a payload: only an array has [map]; on
    [null] and [undefined] the property read fails, on any other value the
    call does. *)
Definition items_strict (v : jsval) : res (list jsval) :=
  match v with
  | JArr l => Ok l
  | JUndefined | JNull => Throw (Exn TypeError (lit "Cannot read properties"))
  | _ => Throw (Exn TypeError (lit "map is not a function"))
  end.

(** A value read at a type that an interface declares: a number, and a
    number that is an integer. *)
Definition as_number (v : jsval) : option Q :=
  match v with JNum q => Some q | _ => None end.

Definition as_integer (v : jsval) : option Z :=
  match v with
  | JNum q => if (Qden (Qred q) =? 1)%positive then Some (Qnum (Qred q)) else None
  | _ => None
  end.

(** Assignment [a[i] = x] on an array: in range it replaces the element,
    past the end it grows the array and leaves holes. *)
Definition arr_set (a : list jsval) (i : nat) (x : jsval) : list jsval :=
  if (i <? length a)%nat then <[i:=x]> a
  else a ++ replicate (i - length a) JUndefined ++ [x].

(** [new Array(n).fill(x)] for an integer [n]: a [RangeError] unless [n] is
    an array length. *)
Definition new_Array_fill (n : Z) (x : jsval) : res (list jsval) :=
  if (0 <=? n) && (n <? 2 ^ 32) then Ok (replicate (Z.to_nat n) x)
  else Throw (Exn RangeError (lit "Invalid array length")).

(** [a.slice(0, e)] for an integer [e]; a negative [e] counts from the end. *)
Definition slice0 {A} (a : list A) (e : Z) : list A :=
  if e <? 0 then take (Z.to_nat (Z.max (Z.of_nat (length a) + e) 0)) a
  else take (Z.to_nat e) a.

End Js.

Import Js.

(** ** Vector normalizer *)

(** [fit] is declared three times in the source with the same body: in
    [OpeaService.createEmbeddingsOVMS], in
    [OpeaService.createEmbeddingsMegaService] and in
    [OllamaService.createEmbeddings]; the three differ only in the
    environment variable [targetDim] is parsed from. [targetDim] is the
    result of [parseInt]: an integer, or [NaN]. *)
Module Normalizer.

(** The loop [for (let i = 0; i < v.length; i++) out[i] = v[i]]. *)
Definition copy_into (v out : list jsval) : list jsval :=
  fold_left (fun out i => arr_set out i (default JUndefined (v !! i)))
            (seq 0 (length v)) out.

Definition fit (targetDim : jsint) (v : list jsval) : res (list jsval) :=
  match targetDim with
  | Int d =>
      if Z.of_nat (length v) =? d then Ok v
      else if Z.of_nat (length v) >? d then Ok (slice0 v d)
      else out ← new_Array_fill d (JNum 0); Ok (copy_into v out)
  | NaN =>
      (* both comparisons with NaN are false; [new Array(NaN)] throws *)
      Throw (Exn RangeError (lit "Invalid array length"))
  end.

End Normalizer.

(** ** Provider gateway *)

Module Gateway.

Inductive ChatRole := system | user | assistant | tool | function.

Record ChatMessage := { role : ChatRole; content : jsstring }.

Definition role_name (r : ChatRole) : jsstring :=
  match r with
  | system => lit "system"
  | user => lit "user"
  | assistant => lit "assistant"
  | tool => lit "tool"
  | function => lit "function"
  end.

Definition message_js (m : ChatMessage) : jsval :=
  JObj [(lit "role", JStr (role_name (role m)));
        (lit "content", JStr (content m))].

(** The argument of [chatCompletion]. *)
Record ChatParams := {
  messages : list ChatMessage;
  temperature : option Q;
  maxTokens : option Q;
  extra : option (list (jsstring * jsval))
}.

(** [params.messages] as it is written into a request body. *)
Definition messages_field (params : ChatParams) : jsval :=
  JArr (message_js <$> messages params).

(** [params.extra] as a value: the record, or [undefined]. *)
Definition extra_js (p : ChatParams) : jsval :=
  match extra p with Some o => JObj o | None => JUndefined end.

(** [process.env] *)
Definition Env := string -> option jsstring.

(** [process.env.NAME || d]: an unset or empty variable gives [d]. *)
Definition env_or (env : Env) (name : string) (d : jsstring) : jsstring :=
  match env name with
  | Some (c :: s) => c :: s
  | _ => d
  end.

(** [process.env.NAME ?? d]: only an unset variable gives [d]. *)
Definition env_coalesce (env : Env) (name : string) (d : jsstring) : jsstring :=
  default d (env name).

(** The fields of documents and hits are copied, never inspected: they are
    kept as the values the caller passes. *)
Record RerankDocument := { doc_text : jsval; doc_id : jsval }.

Record RerankResult := {
  index : Z;
  relevance_score : Q;
  document : option RerankDocument
}.

Record RerankParams := {
  query : jsstring;
  documents : list RerankDocument;
  topN : option jsint;
  model : option jsstring
}.

(** Index fidelity of rerank results: every index points into the document
    list and no index occurs twice. *)
Definition index_fidelity (docs : list RerankDocument) (rs : list RerankResult)
  : Prop :=
  Forall (fun r => 0 <= index r < Z.of_nat (length docs)) rs
  /\ NoDup (index <$> rs).

(** [documents[i]] for an integer [i]. *)
Definition at_index {A} (l : list A) (i : Z) : option A :=
  if i <? 0 then None else l !! Z.to_nat i.

(** [Array.prototype.sort] with a comparator: the sort is stable, and
    [cmp a b > 0] is what moves [b] in front of [a]. For a comparator that
    is consistent the result is this insertion sort. *)
Section Sort.
Context {A : Type} (cmp : A -> A -> Q).

Fixpoint sort_insert (x : A) (l : list A) : list A :=
  match l with
  | [] => [x]
  | y :: l' => if Qle_bool (cmp x y) 0 then x :: y :: l'
               else y :: sort_insert x l'
  end.

Definition js_sort (l : list A) : list A := fold_right sort_insert [] l.
End Sort.

End Gateway.

Module Opea.
Import Gateway.

Inductive BackendMode := ovms | megaservice.

(** The fields of [OpeaService] set by its constructor. *)
Record OpeaService := {
  backendMode : BackendMode;
  ovmsBaseUrl : jsstring;
  llmModelName : jsstring;
  embeddingModelName : jsstring;
  rerankModelName : jsstring;
  chatUrl : jsstring;
  embeddingUrl : jsstring;
  rerankUrl : jsstring
}.

Record Hit := { hit_id : jsval; hit_text : jsval; hit_score : jsval }.

Record RerankedHit := {
  id : jsval;
  text : jsval;
  score : jsval;
  rerank_score : Q
}.

Record RerankHitsParams := {
  rh_query : jsstring;
  hits : list Hit;
  topK : option jsint
}.

(** The comparator [(a, b) => b.rerank_score - a.rerank_score]. The scores
    are finite numbers, for which the sign of the difference computed in
    floating point is the sign of the exact difference. *)
Definition compare_scores (a b : RerankedHit) : Q :=
  (rerank_score b - rerank_score a)%Q.

(** Descending order of the rerank score. *)
Definition by_rerank_score (a b : RerankedHit) : Prop :=
  (rerank_score b <= rerank_score a)%Q.

(** A reranked hit made from the hit that the index of a rerank result
    points at. *)
Definition made_from (hs : list Hit) (r : RerankResult) (h : RerankedHit) : Prop :=
  exists original,
    hs !! Z.to_nat (index r) = Some original
    /\ id h = hit_id original
    /\ text h = hit_text original
    /\ score h = hit_score original
    /\ rerank_score h = relevance_score r.

Section Service.
Variable this : OpeaService.
Variable env : Env.
(** [this.http.post(url, body, ...)], giving [resp.data] or failing. The
    payload is whatever the provider sends: it has the type [any]. *)
Variable http_post : jsstring -> jsval -> res jsval.

Definition chatCompletionOVMS_body (params : ChatParams)
  : list (jsstring * jsval) :=
  obj_spread
    [ (lit "model",
        or_else (oprop (extra_js params) "model") (JStr (llmModelName this)));
      (lit "messages", messages_field params);
      (lit "temperature", JNum (default (3 # 10) (temperature params)));
      (lit "max_tokens", JNum (default (1024 # 1) (maxTokens params)));
      (lit "stream", JBool false) ]
    (default [] (extra params)).

Definition chatCompletionOVMS (params : ChatParams) : M jsval :=
  let url := env_or env "OPEA_LLM_URL"
               (ovmsBaseUrl this ++ lit "/v3/chat/completions") in
  let body := chatCompletionOVMS_body params in
  try_catch (lift (http_post url (JObj body)))
    (fun error =>
       log_line Error
         (lit "[OPEA/OVMS] Chat completion failed: " ++ message error);;
       throw (Exn PlainError
         (lit "OPEA/OVMS chat completion failed: " ++ message error))).

Definition chatCompletionMegaService_body (params : ChatParams)
  : list (jsstring * jsval) :=
  obj_spread
    [ (lit "model",
        JStr (env_coalesce env "OPEA_LLM_MODEL"
                (lit "meta-llama/Meta-Llama-3-8B-Instruct")));
      (lit "messages", messages_field params);
      (lit "temperature", JNum (default (3 # 10) (temperature params)));
      (lit "max_tokens", JNum (default (1024 # 1) (maxTokens params)));
      (lit "stream", JBool false) ]
    (default [] (extra params)).

Definition chatCompletionMegaService (params : ChatParams) : M jsval :=
  let body := chatCompletionMegaService_body params in
  try_catch (lift (http_post (chatUrl this) (JObj body)))
    (fun error =>
       log_line Error
         (lit "[OPEA/MegaService] Chat completion failed: " ++ message error);;
       throw (Exn PlainError
         (lit "OPEA MegaService chat completion failed: " ++ message error))).

Definition chatCompletion (params : ChatParams) : M jsval :=
  match backendMode this with
  | ovms => chatCompletionOVMS params
  | megaservice => chatCompletionMegaService params
  end.

(** The request body sent by [chatCompletion]. *)
Definition chatCompletion_body (params : ChatParams)
  : list (jsstring * jsval) :=
  match backendMode this with
  | ovms => chatCompletionOVMS_body params
  | megaservice => chatCompletionMegaService_body params
  end.

(** What [.map] is called on when a rerank response is parsed:
    [resp.data?.results ?? resp.data?.data ?? []] with OVMS,
    [resp.data?.results ?? []] with the MegaService. *)
Definition entries_OVMS (resp_data : jsval) : jsval :=
  coalesce (coalesce (oprop resp_data "results") (oprop resp_data "data"))
           (JArr []).
Definition entries_MegaService (resp_data : jsval) : jsval :=
  coalesce (oprop resp_data "results") (JArr []).

(** [result.index ?? idx] and
    [result.relevance_score ?? result.score ?? 0.0] *)
Definition entry_index (idx : nat) (result : jsval) : jsval :=
  coalesce (prop result "index") (JNum (inject_Z (Z.of_nat idx))).
Definition entry_score (result : jsval) : jsval :=
  coalesce (coalesce (prop result "relevance_score") (prop result "score"))
           (JNum 0).

(** The callback of [.map((result, idx) => ...)] as far as it can throw:
    reading a field of an entry that is [null] or [undefined] does. It
    gives the values of [index] and [relevance_score]. *)
Definition read_entry (idx : nat) (result : jsval) : res (jsval * jsval) :=
  if nullish result then Throw (Exn TypeError (lit "Cannot read properties"))
  else Ok (entry_index idx result, entry_score result).

(** [results[0]?.relevance_score?.toFixed(4)] in the debug line: a first
    score that is not a number has no [toFixed]. *)
Definition top_score (fields : list (jsval * jsval)) : res unit :=
  match fields with
  | (_, score) :: _ =>
      match score with
      | JNum _ | JUndefined | JNull => Ok tt
      | _ => Throw (Exn TypeError (lit "toFixed is not a function"))
      end
  | [] => Ok tt
  end.

(** The result as a [RerankResult], the type the gateway declares for it:
    an [index] that is an integer and a [relevance_score] that is a number,
    with [document: params.documents[index]]. The source copies a value
    of another type as it is; the record has no place for one. *)
Definition declared_result (docs : list RerankDocument) (f : jsval * jsval)
  : res RerankResult :=
  match as_integer f.1, as_number f.2 with
  | Some i, Some s =>
      Ok {| index := i; relevance_score := s; document := at_index docs i |}
  | _, _ => Throw (Exn Unmodelled (lit "not a value of the declared type"))
  end.

(** The parse of a rerank response, from the value [.map] is called on to
    the results returned. *)
Definition parse_response (docs : list RerankDocument) (found : jsval)
  : res (list RerankResult) :=
  entries ← items_strict found;
  fields ← map_res (fun r => r) (imap read_entry entries);
  top_score fields;;
  map_res (declared_result docs) fields.

(** A number in a JSON body; [NaN] and the infinities are serialised as
    [null]. *)
Definition num_js (n : jsint) : jsval :=
  match n with
  | Int z => if Z.abs z <? 2 ^ 1024 then JNum (inject_Z z) else JNull
  | NaN => JNull
  end.

Definition rerankOVMS (params : RerankParams) : M (list RerankResult) :=
  let url := env_or env "OPEA_RERANK_URL"
               (ovmsBaseUrl this ++ lit "/v3/rerank") in
  let body :=
    [ (lit "model",
        JStr (match model params with
              | Some (c :: m) => c :: m
              | _ => rerankModelName this
              end));
      (lit "query", JStr (query params));
      (lit "documents", JArr (doc_text <$> documents params));
      (lit "top_n",
        num_js (default (Int (Z.of_nat (length (documents params)))) (topN params)));
      (lit "return_documents", JBool true) ] in
  try_catch
    (resp_data ← lift (http_post url (JObj body));
     lift (parse_response (documents params) (entries_OVMS resp_data)))
    (fun error =>
       log_line Error (lit "[OPEA/OVMS] Reranking failed: " ++ message error);;
       throw (Exn PlainError
         (lit "OPEA/OVMS reranking failed: " ++ message error))).

Definition rerankMegaService (params : RerankParams) : M (list RerankResult) :=
  let body :=
    [ (lit "query", JStr (query params));
      (lit "texts", JArr (doc_text <$> documents params));
      (lit "top_n",
        num_js (default (Int (Z.of_nat (length (documents params)))) (topN params)));
      (lit "model",
        JStr (default (env_coalesce env "OPEA_RERANK_MODEL"
                         (lit "BAAI/bge-reranker-base"))
                      (model params))) ] in
  try_catch
    (resp_data ← lift (http_post (rerankUrl this) (JObj body));
     lift (parse_response (documents params) (entries_MegaService resp_data)))
    (fun error =>
       log_line Error
         (lit "[OPEA/MegaService] Reranking failed: " ++ message error);;
       throw (Exn PlainError
         (lit "OPEA MegaService reranking failed: " ++ message error))).

Definition rerank (params : RerankParams) : M (list RerankResult) :=
  match backendMode this with
  | ovms => rerankOVMS params
  | megaservice => rerankMegaService params
  end.

(** The callback of [rerankResults.map] in [rerankHits]: reading a field
    of [params.hits[result.index]] throws when the index is off the list. *)
Definition reranked_hit (hs : list Hit) (result : RerankResult)
  : res RerankedHit :=
  match at_index hs (index result) with
  | Some originalHit =>
      Ok {| id := hit_id originalHit;
            text := hit_text originalHit;
            score := hit_score originalHit;
            rerank_score := relevance_score result |}
  | None => Throw (Exn TypeError (lit "Cannot read properties of undefined"))
  end.

(** The rerank call that [rerankHits] makes for its hits. *)
Definition rerank_call (params : RerankHitsParams) : RerankParams :=
  let documents :=
    (fun hit => {| doc_text := hit_text hit; doc_id := hit_id hit |})
      <$> hits params in
  {| query := rh_query params;
     documents := documents;
     topN := Some (default (Int (Z.of_nat (length (hits params))))
                           (topK params));
     model := None |}.

Definition rerankHits (params : RerankHitsParams) : M (list RerankedHit) :=
  rerankResults ← rerank (rerank_call params);
  rerankedHits ← lift (map_res (reranked_hit (hits params)) rerankResults);
  mret (js_sort compare_scores rerankedHits).

End Service.
End Opea.

Module Ollama.
Import Gateway.

Section Service.
Variable baseUrl : jsstring.
Variable env : Env.
Variable http_post : jsstring -> jsval -> res jsval.

Definition chatCompletion_body (params : ChatParams)
  : list (jsstring * jsval) :=
  obj_spread
    [ (lit "model",
        JStr (env_coalesce env "LLM_MODEL" (lit "llama3.3:70b-instruct-q3_K_M")));
      (lit "messages", messages_field params);
      (lit "temperature", JNum (default (3 # 10) (temperature params)));
      (lit "max_tokens", JNum (default (1024 # 1) (maxTokens params)));
      (lit "keep_alive",
        JStr (env_coalesce env "OLLAMA_KEEP_ALIVE" (lit "30m"))) ]
    (default [] (extra params)).

Definition chatCompletion (params : ChatParams) : M jsval :=
  let url := baseUrl ++ lit "/v1/chat/completions" in
  let body := chatCompletion_body params in
  try_catch (lift (http_post url (JObj body)))
    (* [throw new Error(error)]: the message is [String(error)] *)
    (fun error => throw (Exn PlainError (error_string error))).

End Service.
End Ollama.

(** ** String primitives used by the orchestrator *)

Module Str.

(** [xs.join(sep)] *)
Fixpoint join (sep : jsstring) (xs : list jsstring) : jsstring :=
  match xs with
  | [] => []
  | [x] => x
  | x :: xs' => x ++ sep ++ join sep xs'
  end.

(** [s.toLowerCase()] on the letters A to Z. Other code units are left as
    they are; no character outside ASCII has a lowercase mapping onto one of
    the letters of the words this code compares with. *)
Definition toLowerCase (s : jsstring) : jsstring :=
  (fun c => if (65 <=? c) && (c <=? 90) then c + 32 else c) <$> s.

(** The value of a digit in a radix between 2 and 36. *)
Definition digit_val (radix c : Z) : option Z :=
  let v := if (48 <=? c) && (c <=? 57) then Some (c - 48)
           else if (97 <=? c) && (c <=? 122) then Some (c - 87)
           else if (65 <=? c) && (c <=? 90) then Some (c - 55)
           else None in
  match v with
  | Some d => if d <? radix then Some d else None
  | None => None
  end.

(** The longest prefix of digits, read as a number; [NaN] when the prefix
    is empty. *)
Fixpoint digits_value (radix acc : Z) (seen : bool) (s : jsstring) : jsint :=
  match s with
  | c :: t =>
      match digit_val radix c with
      | Some d => digits_value radix (acc * radix + d) true t
      | None => if seen then Int acc else NaN
      end
  | [] => if seen then Int acc else NaN
  end.

(** The Number value of an integer: the nearest double, ties to even. Up
    to [2^53] in magnitude every integer is a double; beyond, a double has
    53 significant bits. *)
Definition to_double (z : Z) : Z :=
  let a := Z.abs z in
  if a <=? 2 ^ 53 then z
  else
    let e := Z.log2 a - 52 in
    let q := a / 2 ^ e in
    let r := a mod 2 ^ e in
    let half := 2 ^ (e - 1) in
    let q' := if (half <? r) || ((r =? half) && Z.odd q) then q + 1 else q in
    Z.sgn z * (q' * 2 ^ e).

(** [String(i)] for an array index [i]: its decimal digits. *)
Fixpoint dec_digits (fuel : nat) (n : Z) (acc : jsstring) : jsstring :=
  match fuel with
  | O => acc
  | S fuel' =>
      let acc' := (48 + n mod 10) :: acc in
      if n / 10 =? 0 then acc' else dec_digits fuel' (n / 10) acc'
  end.

Definition index_key (i : nat) : jsstring :=
  dec_digits (S (Z.to_nat (Z.log2 (Z.of_nat i)))) (Z.of_nat i) [].

(** [parseInt(s, radix)] with an explicit radix: leading white space, a
    sign, with radix 16 a [0x] prefix, then digits. The result is the
    Number value of the integer that the digits denote. *)
Definition parseInt (s : jsstring) (radix : Z) : jsint :=
  let s1 := trim_start s in
  let '(sign, s2) :=
    match s1 with
    | 45 :: t => (-1, t)
    | 43 :: t => (1, t)
    | _ => (1, s1)
    end in
  let s3 :=
    if radix =? 16 then
      match s2 with
      | 48 :: 120 :: t => t
      | 48 :: 88 :: t => t
      | _ => s2
      end
    else s2 in
  match digits_value radix 0 false s3 with
  | Int n => Int (to_double (sign * n))
  | NaN => NaN
  end.

Definition hex_digit (d : Z) : Z := if d <? 10 then 48 + d else 87 + d.

Fixpoint hex_digits (fuel : nat) (n : Z) (acc : jsstring) : jsstring :=
  match fuel with
  | O => acc
  | S fuel' =>
      let acc' := hex_digit (n mod 16) :: acc in
      if n / 16 =? 0 then acc' else hex_digits fuel' (n / 16) acc'
  end.

(** [n.toString(16)] for an integer [n]. *)
Definition toString16 (n : Z) : jsstring :=
  if n <? 0 then 45 :: hex_digits (S (Z.to_nat (Z.log2 (- n)))) (- n) []
  else hex_digits (S (Z.to_nat (Z.log2 n))) n [].

(** The digits 0 to 9 and a to f. *)
Definition is_lower_hex (c : Z) : bool :=
  (48 <=? c) && (c <=? 57) || (97 <=? c) && (c <=? 102).

(** [s.padStart(2, '0')] *)
Definition padStart2 (s : jsstring) : jsstring :=
  replicate (2 - length s) 48 ++ s.

(** Line terminators: the code units [.] does not match. *)
Definition is_line_terminator (c : Z) : bool :=
  (c =? 10) || (c =? 13) || (c =? 8232) || (c =? 8233).

(** [s.match(/.{1,2}/g)]: the matches from left to right; the empty list
    stands for [null]. *)
Fixpoint match_pairs (s : jsstring) : list jsstring :=
  match s with
  | [] => []
  | a :: t =>
      if is_line_terminator a then match_pairs t
      else match t with
           | [] => [[a]]
           | b :: t' =>
               if is_line_terminator b then [a] :: match_pairs t'
               else [a; b] :: match_pairs t'
           end
  end.

(** [String.fromCharCode(n)]: one code unit, [n] modulo 2^16. *)
Definition fromCharCode (n : Z) : Z := n mod 65536.

(** Does [s] start with [p]? *)
Fixpoint starts_with (p s : jsstring) : bool :=
  match p, s with
  | [], _ => true
  | a :: p', b :: s' => (a =? b) && starts_with p' s'
  | _ :: _, [] => false
  end.

Definition fence : jsstring := [96; 96; 96].

(** Is [s] white space followed by a fence and nothing more: does
    [\s*```$] match at the start of [s]? *)
Definition is_closing_fence (s : jsstring) : bool := str_eqb (trim_start s) fence.

(** Removal of the leftmost match of [\s*```$]. *)
Fixpoint strip_closing_fence (s : jsstring) : jsstring :=
  if is_closing_fence s then []
  else match s with
       | [] => []
       | c :: t => c :: strip_closing_fence t
       end.

(** [s.replace(/^```(?:json)?\s*|\s*```$/g, '')]: at the start a fence, an
    optional [json] and white space are removed; then, in what follows,
    the leftmost closing fence that ends the string. *)
Definition strip_fences (s : jsstring) : jsstring :=
  if starts_with fence s then
    let s1 := drop 3 s in
    let s2 := if starts_with (lit "json") s1 then drop 4 s1 else s1 in
    strip_closing_fence (trim_start s2)
  else strip_closing_fence s.

(** A check on one byte [b]: [b.toString(16).padStart(2, '0')] is two
    lowercase hexadecimal digits that [parseInt(_, 16)] reads back as [b]. *)
Definition byte_ok (b : Z) : bool :=
  match padStart2 (toString16 b) with
  | [h; l] =>
      is_lower_hex h && is_lower_hex l
      && negb (is_line_terminator h) && negb (is_line_terminator l)
      && match parseInt [h; l] 16 with
         | Int n => n =? b
         | NaN => false
         end
  | _ => false
  end.

(** [key.charCodeAt(i % key.length)] as an operand of [^]: with an empty key
    the index and the code are [NaN], which [^] reads as 0. *)
Definition key_unit (key : jsstring) (i : nat) : Z :=
  match key with
  | [] => 0
  | _ => default 0 (key !! (i mod length key)%nat)
  end.

End Str.
(** ** Query orchestrator *)

Module Query.
Import Gateway Str.

Abbreviation ChatMsg := ChatMessage.

Record ChartResult := {
  series : list jsval;
  chart_assetUrn : jsval;
  chart_metric : jsval
}.

Record AlertResult := {
  alerts : jsval;
  alert_assetUrn : jsval
}.

(** What [QueryService] is constructed with and what it reads from its
    surroundings: the environment, the injected services, the Postgres pool
    (absent without [PGHOST]), the alert API, and the built-ins whose
    results the embedding does not compute. The wording of the prompts is
    a parameter as well. *)
Record Services := {
  env : Env;
  pgPool : option (list jsval -> res (list jsval));
  ionosService_chatCompletion : ChatParams -> M jsval;
  ollamaService_chatCompletion : ChatParams -> M jsval;
  opeaService_chatCompletion : ChatParams -> M jsval;
  ionosService_createEmbeddings : jsstring -> M jsval;
  ollamaService_createEmbeddings : jsstring -> M jsval;
  opeaService_createEmbeddings : jsstring -> M jsval;
  opeaService_rerankHits : Opea.RerankHitsParams -> M (list Opea.RerankedHit);
  milvusService_search : jsstring -> jsval -> jsint -> M jsval;
(** [axios.get(url, ...)] giving [resAlerts.data] *)
  axios_get : jsstring -> res jsval;
(** [JSON.parse]: [None] is a thrown [SyntaxError] *)
  JSON_parse : jsstring -> option jsval;
  JSON_stringify : jsval -> jsstring;
(** [String(x)] for numbers, arrays and objects *)
  String_of : jsval -> jsstring;
(** [parseFloat]: [None] is [NaN] *)
  parseFloat : jsval -> option Q;
(** [String(Math.random())], one draw per position *)
  random_id : nat -> jsstring;
  chart_intent_prompt : jsstring -> jsstring;
  alert_intent_prompt : jsstring -> jsstring;
  system_prompt_text : jsstring -> jsstring
}.

Definition NL : jsstring := [LF].

Definition nonempty_string (v : jsval) : bool :=
  match v with JStr (_ :: _) => true | _ => false end.

(** The four slots that make a chart intent actionable: [wants_chart] is
    [true], [asset_urn] is a string, [from] and [to] are strings that are not
    empty. *)
Definition chart_actionable (nlu : jsval) : bool :=
  match prop nlu "wants_chart" with JBool true => true | _ => false end
  && is_string (prop nlu "asset_urn")
  && nonempty_string (prop nlu "from")
  && nonempty_string (prop nlu "to").

(** The condition under which [maybeGetChartData] goes on to Postgres, as
    far as it depends on the classifier result: [wants_chart] and
    [asset_urn] are truthy, [asset_urn] is a string, and [from] and [to]
    are truthy. *)
Definition chart_taken (nlu : jsval) : bool :=
  truthy (prop nlu "wants_chart")
  && nonempty_string (prop nlu "asset_urn")
  && truthy (prop nlu "from")
  && truthy (prop nlu "to").

Section Service.
Variable svc : Services.

(** Template-literal conversion of a value to a string. *)
Definition to_string (v : jsval) : jsstring :=
  match v with
  | JStr s => s
  | JUndefined => lit "undefined"
  | JNull => lit "null"
  | JBool true => lit "true"
  | JBool false => lit "false"
  | _ => String_of svc v
  end.

Definition JSON_parse_res (s : jsstring) : res jsval :=
  match JSON_parse svc s with
  | Some v => Ok v
  | None => Throw (Exn SyntaxError (lit "Unexpected token"))
  end.

Definition fetchSeriesFromPostgres (assetUrn metric from to : jsval)
  : M ChartResult :=
  match pgPool svc with
  | None => throw (Exn PlainError (lit "PostgreSQL not configured"))
  | Some pool =>
      series ← try_catch
        (rows ← lift (pool
           [assetUrn;
            JStr (lit "https://industry-fusion.org/base/v0.1/" ++ to_string metric);
            from; to]);
         mret ((fun r =>
                  JObj [(lit "t", prop r "observedAt");
                        (lit "v",
                          match parseFloat svc (prop r "value") with
                          | Some q => or_else (JNum q) (JNum 0)
                          | None => JNum 0
                          end)]) <$> rows))
        (fun error =>
           log_line Error (lit "PostgreSQL query failed:");; mret []);
      mret {| series := series;
              chart_assetUrn := assetUrn;
              chart_metric := metric |}
  end.

Definition fetchAlertData (assetUrn : jsval) : M AlertResult :=
  alerts ← try_catch
    (resAlerts_data ← lift (axios_get svc
       (to_string (default JUndefined (JStr <$> env svc "ALERTA_API_URL"%string))
          ++ lit "?resource=" ++ to_string assetUrn));
     found ← lift (prop_strict resAlerts_data "alerts");
     mret (or_else found (JArr [])))
    (fun error =>
       log_line Error (lit "Error fetching alerts:");; mret (JArr []));
  mret {| alerts := alerts; alert_assetUrn := assetUrn |}.

(** [(r as any)?.choices?.[0]?.message?.content] *)
Definition completion_content (r : jsval) : jsval :=
  oprop (oprop (ofirst (oprop r "choices")) "message") "content".

Definition string_field (x : jsval) (k : string) : option jsstring :=
  match prop x k with
  | JStr (c :: s) => Some (c :: s)
  | _ => None
  end.

(** [asString] of [detectChartIntentWithLLM] *)
Definition asString_chart (x : jsval) : jsstring :=
  match x with
  | JStr s => s
  | JUndefined | JNull => []
  | JArr _ | JObj _ =>
      match string_field x "content" with
      | Some s => s
      | None =>
          match string_field x "text" with
          | Some s => s
          | None =>
              match string_field x "message" with
              | Some s => s
              | None => JSON_stringify svc x
              end
          end
      end
  | JBool _ | JNum _ => to_string x
  end.

Definition intent_call (prompt : jsstring) : ChatParams :=
  {| messages := [ {| role := user; content := prompt |} ];
     temperature := Some (1 # 10);
     maxTokens := Some (250 # 1);
     extra := None |}.

(** The completion request of the chart detector, sent to the provider
    that [LLM_PROVIDER] names. *)
Definition chart_llm_call (prompt : jsstring) : M jsval :=
  let llmProvider := env_or (env svc) "LLM_PROVIDER" (lit "ionos") in
  if str_eqb llmProvider (lit "ollama") then
    ollamaService_chatCompletion svc (intent_call prompt)
  else if str_eqb llmProvider (lit "opea") then
    opeaService_chatCompletion svc (intent_call prompt)
  else ionosService_chatCompletion svc (intent_call prompt).

(** [cleaned] of the chart detector, from the completion [r]. *)
Definition cleaned_chart (r : jsval) : jsstring :=
  let content := completion_content r in
  let out := asString_chart content in
  trim (strip_fences out).

Definition no_chart_intent : jsval := JObj [(lit "wants_chart", JBool false)].

Definition detectChartIntentWithLLM (lastUserText : jsstring) : M jsval :=
  let prompt := chart_intent_prompt svc lastUserText in
  r ← chart_llm_call prompt;
  let cleaned := cleaned_chart r in
  try_catch (lift (JSON_parse_res cleaned))
    (fun err =>
       log_line Warn (lit "Failed to parse chart intent JSON:");;
       mret no_chart_intent).

(** The callback of [x.map] in the [asString] of the alert detector. *)
Definition part_text (p : jsval) : jsstring :=
  match p with
  | JStr s => s
  | _ =>
      match oprop p "text" with
      | JStr s => s
      | t => match oprop t "value" with
             | JStr s => s
             | _ => []
             end
      end
  end.

(** [asString] of [detectAlertIntentWithLLM] *)
Definition asString_alert (x : jsval) : jsstring :=
  match x with
  | JStr s => s
  | JArr parts =>
      join NL (List.filter (fun s => truthy (JStr s)) (part_text <$> parts))
  | JObj _ => JSON_stringify svc x
  | _ => []
  end.

(** [cleaned] of the alert detector, from the completion [r]. *)
Definition cleaned_alert (r : jsval) : jsstring :=
  let content := completion_content r in
  let out := asString_alert content in
  trim (strip_fences out).

Definition no_alert_intent : jsval := JObj [(lit "wants_alert", JBool false)].

Definition detectAlertIntentWithLLM (lastUserText : jsstring) : M jsval :=
  let prompt := alert_intent_prompt svc lastUserText in
  r ← ionosService_chatCompletion svc (intent_call prompt);
  let cleaned := cleaned_alert r in
  try_catch (lift (JSON_parse_res cleaned))
    (fun err =>
       log_line Error (lit "Error parsing alert intent response:");;
       mret no_alert_intent).

Definition is_user (m : ChatMsg) : bool :=
  match role m with user => true | _ => false end.

(** [[...messages].reverse().find(m => m.role === 'user')] *)
Definition last_user (messages : list ChatMsg) : option ChatMsg :=
  List.find is_user (reverse messages).

(** [this.pgPool] as a condition *)
Definition pool_configured : bool :=
  match pgPool svc with Some _ => true | None => false end.

Definition maybeGetChartData (messages : list ChatMsg)
  : M (option ChartResult) :=
  match last_user messages with
  | None => mret None
  | Some lastUser =>
      nlu ← detectChartIntentWithLLM (content lastUser);
      wants_chart ← lift (prop_strict nlu "wants_chart");
      if negb (truthy wants_chart) || negb (truthy (prop nlu "asset_urn"))
      then mret None
      else
        let from := JStr [] in
        let to := JStr [] in
        let from := if truthy (prop nlu "from") then prop nlu "from" else from in
        let to := if truthy (prop nlu "to") then prop nlu "to" else to in
        let metric := coalesce (prop nlu "metric") JUndefined in
        if pool_configured
           && is_string (prop nlu "asset_urn")
           && truthy from && truthy to
        then chart ← fetchSeriesFromPostgres (prop nlu "asset_urn") metric from to;
             mret (Some chart)
        else mret None
  end.

Definition maybeGetAlertData (messages : list ChatMsg)
  : M (option AlertResult) :=
  match last_user messages with
  | None => mret None
  | Some lastUser =>
      nlu ← detectAlertIntentWithLLM (content lastUser);
      wants_alert ← lift (prop_strict nlu "wants_alert");
      if negb (truthy wants_alert) || negb (truthy (prop nlu "asset_urn"))
      then mret None
      else if is_string (prop nlu "asset_urn")
      then alert ← fetchAlertData (prop nlu "asset_urn"); mret (Some alert)
      else mret None
  end.

Definition finite_values (pts : list jsval) : list Q :=
  omap (fun p => match prop p "v" with JNum q => Some q | _ => None end) pts.

(** [Math.min(...vals)] and [Math.max(...vals)] of a list that is not empty *)
Definition Qmin_list (q : Q) (qs : list Q) : Q :=
  fold_left (fun a b => if Qle_bool b a then b else a) qs q.
Definition Qmax_list (q : Q) (qs : list Q) : Q :=
  fold_left (fun a b => if Qle_bool a b then b else a) qs q.

(** [formatChartSummary]: the fields [summary], [first10], [last10]. *)
Definition formatChartSummary (chart : ChartResult)
  : list (jsstring * jsval) :=
  let pts := length (series chart) in
  let first10 := take 100 (series chart) in
  let last10 := drop (pts - 100) (series chart) in
  let vals := finite_values (series chart) in
  let summary :=
    join NL
      [ lit "Live data ("
          ++ to_string (coalesce (chart_metric chart) (JStr (lit "metric")))
          ++ lit ") for " ++ to_string (chart_assetUrn chart);
        lit "Points: " ++ to_string (JNum (inject_Z (Z.of_nat pts)))
          ++ match vals with
             | q :: qs =>
                 lit ", Min: " ++ to_string (JNum (Qmin_list q qs))
                 ++ lit ", Max: " ++ to_string (JNum (Qmax_list q qs))
             | [] => []
             end ] in
  [ (lit "summary", JStr summary);
    (lit "first10", JArr first10);
    (lit "last10", JArr last10) ].

Definition chart_js (chart : ChartResult) : jsval :=
  JObj [ (lit "series", JArr (series chart));
         (lit "meta",
           JObj [ (lit "assetUrn", chart_assetUrn chart);
                  (lit "metric", chart_metric chart);
                  (lit "source", JStr (lit "postgres")) ]) ].

Definition getChartSummaryIfAny (messages : list ChatMsg)
  : M (option jsval) :=
  chart ← try_catch (maybeGetChartData messages)
    (fun error =>
       log_line Error (lit "Chart data fetch failed:");; mret None);
  match chart with
  | Some c =>
      if (0 <? length (series c))%nat
      then mret (Some (JObj ((lit "chart", chart_js c) :: formatChartSummary c)))
      else mret (Some (JObj
             [ (lit "message",
                 JStr (lit "Make sure you have mentioned asset ID, metric, from and to dates.")) ]))
  | None => mret None
  end.

(** [v === 0] *)
Definition is_zero (v : jsval) : bool :=
  match v with JNum q => Qeq_bool q 0 | _ => false end.

Definition live_alerts_reply : jsstring :=
  lit "Here" ++ [8217] ++ lit "s the live alerts:" ++ [LF; LF].

Definition getAlertsDataIfAny (messages : list ChatMsg)
  : M (option jsval) :=
  alert ← try_catch (maybeGetAlertData messages) (fun _ => mret None);
  match alert with
  | Some a =>
      if truthy (alerts a)
      then mret (Some (JObj [ (lit "reply", JStr live_alerts_reply);
                              (lit "alerts", alerts a) ]))
      else
        len ← lift (prop_strict (alerts a) "length");
        if is_zero len
        then
          let reply := lit "No live data available for "
                         ++ to_string (alert_assetUrn a) ++ lit "." in
          mret (Some (JObj [ (lit "reply", JStr reply);
                             (lit "alerts", alerts a) ]))
        else mret None
  | None => mret None
  end.


(** *** Retrieval *)

(** The user turns of the conversation, each followed by a space, trimmed. *)
Definition question_of (messages : list ChatMsg) : jsstring :=
  trim (fold_left
          (fun question m =>
             if is_user m then question ++ content m ++ lit " " else question)
          messages []).

(** [hostProvider || process.env.EMBEDDING_PROVIDER || 'ollama'] *)
Definition embeddingProvider_of (hostProvider : option jsstring) : jsstring :=
  match hostProvider with
  | Some (c :: s) => c :: s
  | _ => env_or (env svc) "EMBEDDING_PROVIDER" (lit "ollama")
  end.

(** [parseInt(process.env.RETRIEVE_TOP_K || '5', 10)] *)
Definition topK_of : jsint :=
  parseInt (env_or (env svc) "RETRIEVE_TOP_K" (lit "5")) 10.

Definition useReranker_of (embeddingProvider : jsstring) : bool :=
  if str_eqb embeddingProvider (lit "opea") then true
  else str_eqb (toLowerCase (env_or (env svc) "USE_RERANKER" (lit "false")))
               (lit "true").

(** [useReranker ? Math.min(topK * 3, 20) : topK]; the product is a
    double. *)
Definition retrieveK_of (useReranker : bool) (topK : jsint) : jsint :=
  if useReranker then
    match topK with
    | Int k => Int (Z.min (to_double (k * 3)) 20)
    | NaN => NaN
    end
  else topK.

(** The candidate count passed to [milvusService.search]. *)
Definition retrieveK (hostProvider : option jsstring) : jsint :=
  retrieveK_of (useReranker_of (embeddingProvider_of hostProvider)) topK_of.

Definition type_error {A} : res A :=
  Throw (Exn TypeError (lit "Cannot read properties")).

(** [v[0]] where [v] may be [null] or [undefined] *)
Definition first_strict (v : jsval) : res jsval :=
  if nullish v then type_error else Ok (ofirst v).

Definition is_array (v : jsval) : bool :=
  match v with JArr _ => true | _ => false end.

Definition items_of (v : jsval) : list jsval :=
  match v with JArr l => l | _ => [] end.

Definition normalize_results (rawResults : jsval) : M (list jsval) :=
  if is_array rawResults then mret (items_of rawResults)
  else if truthy rawResults && is_array (ofirst rawResults)
  then mret (items_of (ofirst rawResults))
  else if truthy rawResults && truthy (prop rawResults "data")
          && is_array (prop rawResults "data")
  then mret (items_of (prop rawResults "data"))
  else log_line Warn (lit "[QUERY] Unexpected rawResults structure:");;
       mret [].

Definition coerceLabels (input : jsval) : jsval :=
  match input with
  | JUndefined | JNull => JObj []
  | JStr s =>
      match JSON_parse svc s with
      | Some parsed =>
          match parsed with
          | JArr _ | JObj _ => parsed
          | _ => JObj []
          end
      | None => JObj [(lit "text", input)]
      end
  | JArr _ | JObj _ => input
  | _ => JObj []
  end.

(** [a || b || c] *)
Definition or3 (a b c : jsval) : jsval := or_else (or_else a b) c.

(** The callback that prepares a search result for reranking. *)
Definition hit_of (i : nat) (hit : jsval) : res Opea.Hit :=
  if nullish hit then type_error
  else
    let labels :=
      coerceLabels (or3 (prop hit "labels") (prop hit "entity") hit) in
    let text :=
      or_else (or3 (prop labels "text") (prop hit "text") (prop hit "content"))
              (JStr []) in
    Ok {| Opea.hit_id :=
            or3 (prop hit "id") (prop hit "chunk_id") (JStr (random_id svc i));
          Opea.hit_text := text;
          Opea.hit_score :=
            or3 (prop hit "score") (prop hit "distance") (JNum 0) |}.

Definition reranked_js (h : Opea.RerankedHit) : jsval :=
  JObj [ (lit "id", Opea.id h);
         (lit "text", Opea.text h);
         (lit "score", Opea.score h);
         (lit "rerank_score", JNum (Opea.rerank_score h)) ].

(** [xs.map((x, i) => f(i, x))] where [f] can throw. *)
Fixpoint imap_res {A B} (f : nat -> A -> res B) (i : nat) (xs : list A)
  : res (list B) :=
  match xs with
  | [] => Ok []
  | x :: xs' =>
      y ← f i x; ys ← imap_res f (S i) xs'; Ok (y :: ys)
  end.

(** The callback that renders one block of the context. *)
Definition render_block (i : nat) (hit : jsval) : res jsstring :=
  if nullish hit then type_error
  else
    let labels :=
      coerceLabels (or3 (prop hit "labels") (prop hit "entity") hit) in
    let text :=
      or_else (or3 (prop labels "text") (prop hit "text") (prop hit "content"))
              (JStr (JSON_stringify svc labels)) in
    let source :=
      or_else (or3 (prop labels "source") (prop labels "filename")
                   (prop hit "filename"))
              (JStr (lit "doc-"
                       ++ to_string (JNum (inject_Z (Z.of_nat i))))) in
    let score :=
      or3 (prop hit "score") (prop hit "distance") (JStr (lit "N/A")) in
    Ok (lit "[" ++ to_string source ++ lit "] (score: " ++ to_string score
          ++ lit ")" ++ NL ++ to_string text).

Definition block_separator : jsstring :=
  [LF; LF] ++ lit "-----" ++ [LF; LF].

(** The rendered context of a list of search results. *)
Definition render_context (searchResults : list jsval) : res jsstring :=
  blocks ← imap_res render_block 0 searchResults;
  Ok (join block_separator
        (List.filter (fun s => truthy (JStr s) && (4 <? length s)%nat) blocks)).

(** [milvusSearch] from the answer of the vector index on: the results
    are normalized, reranked where reranking applies, and rendered. *)
Definition after_search (question embeddingProvider : jsstring)
    (rawResults : jsval) : M (jsstring * list jsval) :=
  let topK := topK_of in
  let useReranker := useReranker_of embeddingProvider in
  searchResults ← normalize_results rawResults;
  let rerankProvider := env_or (env svc) "RERANKER_PROVIDER" (lit "opea") in
  searchResults ←
    (if useReranker && str_eqb rerankProvider (lit "opea")
        && (0 <? length searchResults)%nat
     then
       try_catch
         (hits ← lift (imap_res hit_of 0 searchResults);
          reranked ← opeaService_rerankHits svc
            {| Opea.rh_query := question;
               Opea.hits := hits;
               Opea.topK := Some topK |};
          mret (reranked_js <$> reranked))
         (fun error =>
            log_line Error
              (lit "[QUERY] Reranking failed: " ++ message error
                 ++ lit ", using original results");;
            mret searchResults)
     else mret searchResults);
  contextText ← lift (render_context searchResults);
  mret (contextText, searchResults).

Definition milvusSearch (messages : list ChatMsg)
    (hostProvider : option jsstring) : M (jsstring * list jsval) :=
  let question := question_of messages in
  let embeddingProvider := embeddingProvider_of hostProvider in
  embeddingForQuestion ←
    (if str_eqb embeddingProvider (lit "ollama") then
       ollamaService_createEmbeddings svc question
     else if str_eqb embeddingProvider (lit "opea") then
       opeaService_createEmbeddings svc question
     else ionosService_createEmbeddings svc question);
  data ← lift (prop_strict embeddingForQuestion "data");
  data0 ← lift (first_strict data);
  questionVector ← lift (prop_strict data0 "embedding");
  let collectionName :=
    env_or (env svc) "RAG_COLLECTION_NAME" (lit "custom_setup_7") in
  rawResults ←
    milvusService_search svc collectionName questionVector
      (retrieveK hostProvider);
  after_search question embeddingProvider rawResults.

(** *** Token masking *)

Definition mask (input key : jsstring) : jsstring :=
  concat
    (imap (fun i char =>
             padStart2 (toString16 (Z.lxor char (key_unit key i))))
          input).

(** The operand of [^] read from [parseInt]: [NaN] counts as 0. *)
Definition int_of (n : jsint) : Z :=
  match n with Int z => z | NaN => 0 end.

Definition unmask (masked key : jsstring) : res jsstring :=
  match key with
  | [] => Throw (Exn PlainError (lit "Mask secret not defined"))
  | _ =>
      match match_pairs masked with
      | [] =>
          (* [match] gave [null], and [null.map] is a [TypeError] *)
          type_error
      | pairs =>
          let bytes := (fun h => parseInt h 16) <$> pairs in
          Ok (imap (fun i b => fromCharCode (Z.lxor (int_of b) (key_unit key i)))
                   bytes)
      end
  end.

(** *** The request path *)

Definition enhance (messages : list ChatMsg) (vectorStoreIds : list jsstring)
  : list ChatMsg :=
  match vectorStoreIds with
  | [] => messages
  | _ =>
      {| role := user;
         content := lit "Find Information for product "
                      ++ join (lit ", ") vectorStoreIds ++ lit "." |}
      :: messages
  end.

Definition systemPrompt (vectorStoreIds : list jsstring) : ChatMsg :=
  {| role := system;
     content := system_prompt_text svc (join (lit ", ") vectorStoreIds) |}.

Definition context_header : jsstring :=
  [LF; LF] ++ lit "--- Context ---" ++ [LF].

(** [fullHistory.map((m, i) => ({ ...m, idx: i })).reverse()
      .find(m => m.role === 'user')?.idx] *)
Definition lastUserIdx (fullHistory : list ChatMsg) : option nat :=
  snd <$> List.find (fun mi => is_user mi.1)
                    (reverse (imap (fun i m => (m, i)) fullHistory)).

(** [fullContext] as [handleQuery] computes it from [contextText]. *)
Definition fullContext_of (contextText : jsstring) : jsstring :=
  if truthy (JStr (trim contextText)) then context_header ++ contextText
  else contextText.

(** [fullHistory] after the block that attaches the context. *)
Definition with_context (contextText : jsstring) (fullHistory : list ChatMsg)
  : list ChatMsg :=
  let fullContext := fullContext_of contextText in
  if truthy (JStr (trim fullContext)) then
    match lastUserIdx fullHistory with
    | Some idx =>
        match fullHistory !! idx with
        | Some m =>
            <[idx := {| role := role m;
                        content := content m ++ context_header ++ fullContext |}]>
              fullHistory
        | None => fullHistory
        end
    | None => fullHistory
    end
  else fullHistory.

(** [hostProvider || process.env.LLM_PROVIDER || 'ionos'] *)
Definition llmProvider_of (hostProvider : option jsstring) : jsstring :=
  match hostProvider with
  | Some (c :: s) => c :: s
  | _ => env_or (env svc) "LLM_PROVIDER" (lit "ionos")
  end.

(** The [try] block of [handleQuery]: the completion asked of the
    provider for the history [fullHistory], and the reply made of it. *)
Definition generate (hostProvider : option jsstring)
    (fullHistory : list ChatMsg) (sources : list jsval) : M jsval :=
  try_catch
    (let llmProvider := llmProvider_of hostProvider in
     let call := {| messages := fullHistory;
                    temperature := Some (3 # 10);
                    maxTokens := Some (1500 # 1);
                    extra := None |} in
     completion ←
       (if str_eqb llmProvider (lit "ollama") then
          ollamaService_chatCompletion svc call
        else if str_eqb llmProvider (lit "opea") then
          opeaService_chatCompletion svc call
        else ionosService_chatCompletion svc call);
     choices ← lift (prop_strict completion "choices");
     choice ← lift (first_strict choices);
     msg ← lift (prop_strict choice "message");
     reply ← lift (prop_strict msg "content");
     mret (JObj [ (lit "reply", reply);
                  (lit "sources", JArr (take 3 sources)) ]))
    (fun error =>
       log_line Error (lit "LLM call failed:");;
       throw (Exn InternalServerErrorException
                (lit "Failed to generate response"))).

(** The states of [handleQuery] from retrieval on. *)
Definition answer (hostProvider : option jsstring)
    (enhancedMessages : list ChatMsg) (vectorStoreIds : list jsstring)
  : M jsval :=
  '(contextText, sources) ← milvusSearch enhancedMessages hostProvider;
  let fullHistory :=
    with_context contextText (systemPrompt vectorStoreIds :: enhancedMessages) in
  generate hostProvider fullHistory sources.

(** The states of [handleQuery] after the chart check. *)
Definition after_chart_check (hostProvider : option jsstring)
    (enhancedMessages : list ChatMsg) (vectorStoreIds : list jsstring)
  : M jsval :=
  b ← getAlertsDataIfAny enhancedMessages;
  match b with
  | Some reply => mret reply
  | None => answer hostProvider enhancedMessages vectorStoreIds
  end.

(** [(process.env.CHART_INTENT || 'true') !== 'false'] *)
Definition chart_check_enabled : bool :=
  negb (str_eqb (env_or (env svc) "CHART_INTENT" (lit "true")) (lit "false")).

(** [handleQuery]; its argument [assets] is not read. *)
Definition handleQuery (hostProvider : option jsstring)
    (messages : list ChatMsg) (vectorStoreIds : list jsstring) : M jsval :=
  match messages with
  | [] =>
      throw (Exn BadRequestException
               (lit "Messages array is required and cannot be empty"))
  | _ =>
      let enhancedMessages := enhance messages vectorStoreIds in
      chartSummary ←
        (if chart_check_enabled
         then getChartSummaryIfAny enhancedMessages
         else mret None);
      match chartSummary with
      | Some summary => mret summary
      | None => after_chart_check hostProvider enhancedMessages vectorStoreIds
      end
  end.

End Service.
End Query.
(** ** Embedding calls of the gateways *)

(** [createEmbeddingsOVMS], [createEmbeddingsMegaService] and the
    [createEmbeddings] of the Ollama gateway. The provider's payload has
    the type [any]: it is a [jsval], and so is each of its items and each
    [embedding]. The line that reports the observed dimension once per
    process is written with [log] and reads the payload with [?.] only;
    the flag that guards it has no other effect. *)

Module Embeddings.
Import Gateway Str Normalizer.

(** The argument of [createEmbeddings]. *)
Record EmbedParams := {
  input : jsval;
  encodingFormat : option jsstring
}.

(** [v[i]] on a value that is not [null] or [undefined]. *)
Definition element (v : jsval) (i : nat) : jsval :=
  match v with
  | JArr l => default JUndefined (l !! i)
  | JStr s => match s !! i with Some c => JStr [c] | None => JUndefined end
  | JObj o => default JUndefined (obj_get (index_key i) o)
  | _ => JUndefined
  end.

(** The own enumerable properties that [{ ...v }] copies. *)
Definition spread_fields (v : jsval) : list (jsstring * jsval) :=
  match v with
  | JObj o => o
  | JArr l => imap (fun i x => (index_key i, x)) l
  | JStr s => imap (fun i c => (index_key i, JStr [c])) s
  | _ => []
  end.

(** A [length] as the operand of [>] and [<]: a number, with [true] as 1,
    [false] and [null] as 0 and [undefined] as [NaN] ([None]). The number
    that a string, an array or an object is coerced to is not computed. *)
Definition length_number (len : jsval) : res (option Q) :=
  match len with
  | JNum q => Ok (Some q)
  | JBool true => Ok (Some 1%Q)
  | JBool false | JNull => Ok (Some 0%Q)
  | JUndefined => Ok None
  | _ => Throw (Exn Unmodelled (lit "a length that is not a number"))
  end.

(** [fit] applied to an [embedding] of any type. On an array it is
    [Normalizer.fit]. The body is the same on the other values: a string
    has a [length], a [slice] and characters; a number or a boolean has no
    [length], so both comparisons fail and the result is the array of
    zeros; an object has the [length] it carries and, in a payload, no
    [slice] that could be called. *)
Definition fit_value (targetDim : jsint) (v : jsval) : res jsval :=
  match v with
  | JUndefined | JNull => Throw (Exn TypeError (lit "Cannot read properties"))
  | JArr l => out ← fit targetDim l; Ok (JArr out)
  | JStr s =>
      match targetDim with
      | Int d =>
          if Z.of_nat (length s) =? d then Ok v
          else if Z.of_nat (length s) >? d then Ok (JStr (slice0 s d))
          else out ← new_Array_fill d (JNum 0);
               Ok (JArr (copy_into ((fun c => JStr [c]) <$> s) out))
      | NaN => Throw (Exn RangeError (lit "Invalid array length"))
      end
  | JNum _ | JBool _ =>
      match targetDim with
      | Int d => out ← new_Array_fill d (JNum 0); Ok (JArr out)
      | NaN => Throw (Exn RangeError (lit "Invalid array length"))
      end
  | JObj _ =>
      match targetDim with
      | Int d =>
          let len := prop v "length" in
          if match len with JNum q => Qeq_bool q (inject_Z d) | _ => false end
          then Ok v
          else
            n ← length_number len;
            if match n with
               | Some q => negb (Qle_bool q (inject_Z d))
               | None => false
               end
            then Throw (Exn TypeError (lit "slice is not a function"))
            else
              out ← new_Array_fill d (JNum 0);
              let count := match n with
                           | Some q => Z.to_nat (Qceiling q)
                           | None => O
                           end in
              Ok (JArr (fold_left (fun out i => arr_set out i (element v i))
                                  (seq 0 count) out))
      | NaN => Throw (Exn RangeError (lit "Invalid array length"))
      end
  end.

(** The callback [d => ({ ...d, embedding: fit(d.embedding) })]. *)
Definition fit_item (targetDim : jsint) (d : jsval) : res jsval :=
  embedding ← prop_strict d "embedding";
  fitted ← fit_value targetDim embedding;
  Ok (JObj (obj_set (lit "embedding") fitted (spread_fields d))).

(** [(resp.data?.data ?? []).map(...)] and [{ ...resp.data, data }]. *)
Definition fit_response (targetDim : jsint) (resp_data : jsval) : res jsval :=
  items ← items_strict (coalesce (oprop resp_data "data") (JArr []));
  data ← map_res (fit_item targetDim) items;
  Ok (JObj (obj_set (lit "data") (JArr data) (spread_fields resp_data))).

(** An item is fitted: it is the item with its [embedding], an array,
    replaced by the fitted array, which has the target length. *)
Definition fitted_to (d : Z) (d_in d_out : jsval) : Prop :=
  exists v out,
    prop d_in "embedding" = JArr v
    /\ fit (Int d) v = Ok out
    /\ Z.of_nat (length out) = d
    /\ d_out = JObj (obj_set (lit "embedding") (JArr out) (spread_fields d_in)).

Section Opea.
Variable this : Opea.OpeaService.
Variable env : Env.
(** [this.http.post(url, body, ...)], giving [resp.data] or failing. *)
Variable http_post : jsstring -> jsval -> res jsval.

(** [parseInt(process.env.EMBEDDING_DIMENSIONS ?? '1024', 10)] *)
Definition targetDim : jsint :=
  parseInt (env_coalesce env "EMBEDDING_DIMENSIONS" (lit "1024")) 10.

Definition createEmbeddingsOVMS (params : EmbedParams) : M jsval :=
  let url := env_or env "OPEA_EMBEDDING_URL"
               (Opea.ovmsBaseUrl this ++ lit "/v3/embeddings") in
  let body :=
    [ (lit "model", JStr (Opea.embeddingModelName this));
      (lit "input", input params);
      (lit "encoding_format",
        JStr (default (lit "float") (encodingFormat params))) ] in
  try_catch
    (resp_data ← lift (http_post url (JObj body));
     lift (fit_response targetDim resp_data))
    (fun error =>
       log_line Error (lit "[OPEA/OVMS] Embedding failed: " ++ message error);;
       throw (Exn PlainError
         (lit "OPEA/OVMS embedding failed: " ++ message error))).

Definition createEmbeddingsMegaService (params : EmbedParams) : M jsval :=
  let body :=
    [ (lit "model",
        JStr (env_coalesce env "OPEA_EMBEDDING_MODEL"
                (lit "BAAI/bge-base-en-v1.5")));
      (lit "input", input params);
      (lit "encoding_format",
        JStr (default (lit "float") (encodingFormat params))) ] in
  try_catch
    (resp_data ← lift (http_post (Opea.embeddingUrl this) (JObj body));
     lift (fit_response targetDim resp_data))
    (fun error =>
       log_line Error
         (lit "[OPEA/MegaService] Embedding failed: " ++ message error);;
       throw (Exn PlainError
         (lit "OPEA MegaService embedding failed: " ++ message error))).

Definition createEmbeddings (params : EmbedParams) : M jsval :=
  match Opea.backendMode this with
  | Opea.ovms => createEmbeddingsOVMS params
  | Opea.megaservice => createEmbeddingsMegaService params
  end.

End Opea.

Section Ollama.
Variable env : Env.
Variable http_post : jsstring -> jsval -> res jsval.

(** [parseInt(process.env.RAG_EMBED_DIM ?? '1024', 10)] *)
Definition targetDim_ollama : jsint :=
  parseInt (env_coalesce env "RAG_EMBED_DIM" (lit "1024")) 10.

(** [OllamaService.createEmbeddings]: nothing is caught. *)
Definition createEmbeddings_ollama (params : EmbedParams) : M jsval :=
  let url := lit "http://localhost:11435/v1/embeddings" in
  let body :=
    [ (lit "model",
        JStr (env_coalesce env "EMBEDDING_MODEL" (lit "bge-m3:latest")));
      (lit "input", input params) ] in
  resp_data ← lift (http_post url (JObj body));
  lift (fit_response targetDim_ollama resp_data).

End Ollama.
End Embeddings.
(** ** Outcomes of a gateway call *)

Module Outcomes.

(** The outcome of an OPEA gateway call started with the log [l]: a value
    and an unchanged log, or an [Error] whose message carries the OPEA tag
    and one more line in the log. *)
Definition tagged_outcome {A} (l : list entry) (out : res A * list entry) : Prop :=
  match out with
  | (Ok _, l') => l' = l
  | (Throw e, l') =>
      kind e = PlainError
      /\ Str.starts_with (lit "OPEA") (message e) = true
      /\ exists t, l' = l ++ [Entry Error t]
  end.

(** The failure among these outcomes. *)
Definition tagged_failure {A} (l : list entry) (out : res A * list entry) : Prop :=
  exists e t,
    out = (Throw e, l ++ [Entry Error t])
    /\ kind e = PlainError
    /\ Str.starts_with (lit "OPEA") (message e) = true.

End Outcomes.

(** ** Concrete requests *)

(** Inputs at which the properties below are evaluated. *)
Module Scenarios.
Import Gateway.

Definition quote : jsstring := [34].

Definition opea_ovms : Opea.OpeaService :=
  {| Opea.backendMode := Opea.ovms;
     Opea.ovmsBaseUrl := lit "http://localhost:8000";
     Opea.llmModelName := lit "meta-llama/Llama-3.3-70B-Instruct";
     Opea.embeddingModelName := lit "BAAI/bge-m3";
     Opea.rerankModelName := lit "BAAI/bge-reranker-v2-m3";
     Opea.chatUrl := lit "http://localhost:8888/v1/chatqna";
     Opea.embeddingUrl := lit "http://localhost:8888/v1/embeddings";
     Opea.rerankUrl := lit "http://localhost:8888/v1/reranking" |}.

Definition no_env : Env := fun _ => None.




(** One document, and a provider that answers with an index of 5. *)
Definition one_document_call : RerankParams :=
  {| query := lit "pressure";
     documents := [ {| doc_text := JStr (lit "manual"); doc_id := JUndefined |} ];
     topN := None;
     model := None |}.

Definition stray_index_provider (url : jsstring) (body : jsval) : res jsval :=
  Ok (JObj [ (lit "results",
               JArr [ JObj [ (lit "index", JNum 5);
                             (lit "relevance_score", JNum (9 # 10)) ] ]) ]).

(** A provider that sends neither indices nor scores. *)
Definition bare_response : jsval :=
  JObj [ (lit "results", JArr [ JObj [] ]) ].

Definition bare_provider (url : jsstring) (body : jsval) : res jsval :=
  Ok bare_response.

(** Two hits, and a provider that ranks the second above the first. *)
Definition two_hits : Opea.RerankHitsParams :=
  {| Opea.rh_query := lit "pressure";
     Opea.hits :=
       [ {| Opea.hit_id := JStr (lit "a");
            Opea.hit_text := JStr (lit "valve");
            Opea.hit_score := JNum (8 # 10) |};
         {| Opea.hit_id := JStr (lit "b");
            Opea.hit_text := JStr (lit "pump");
            Opea.hit_score := JNum (7 # 10) |} ];
     Opea.topK := None |}.

Definition swapped_response : jsval :=
  JObj [ (lit "results",
           JArr [ JObj [ (lit "index", JNum 0);
                         (lit "relevance_score", JNum (1 # 10)) ];
                  JObj [ (lit "index", JNum 1);
                         (lit "relevance_score", JNum (9 # 10)) ] ]) ].

Definition swapping_provider (url : jsstring) (body : jsval) : res jsval :=
  Ok swapped_response.

(** Services that answer nothing: every call fails, nothing is configured. *)
Definition unreachable : exn := Exn TransportError (lit "connect ECONNREFUSED").

Definition offline : Query.Services :=
  {| Query.env := no_env;
     Query.pgPool := None;
     Query.ionosService_chatCompletion := fun _ => throw unreachable;
     Query.ollamaService_chatCompletion := fun _ => throw unreachable;
     Query.opeaService_chatCompletion := fun _ => throw unreachable;
     Query.ionosService_createEmbeddings := fun _ => throw unreachable;
     Query.ollamaService_createEmbeddings := fun _ => throw unreachable;
     Query.opeaService_createEmbeddings := fun _ => throw unreachable;
     Query.opeaService_rerankHits := fun _ => throw unreachable;
     Query.milvusService_search := fun _ _ _ => throw unreachable;
     Query.axios_get := fun _ => Throw unreachable;
     Query.JSON_parse := fun _ => None;
     Query.JSON_stringify := fun _ => lit "{}";
     Query.String_of := fun _ => lit "0";
     Query.parseFloat := fun _ => None;
     Query.random_id := fun _ => lit "0.5";
     Query.chart_intent_prompt := fun text => text;
     Query.alert_intent_prompt := fun text => text;
     Query.system_prompt_text := fun ids => ids |}.

(** [offline] with another environment. *)
Definition with_env (env : Env) (svc : Query.Services) : Query.Services :=
  {| Query.env := env;
     Query.pgPool := Query.pgPool svc;
     Query.ionosService_chatCompletion := Query.ionosService_chatCompletion svc;
     Query.ollamaService_chatCompletion := Query.ollamaService_chatCompletion svc;
     Query.opeaService_chatCompletion := Query.opeaService_chatCompletion svc;
     Query.ionosService_createEmbeddings := Query.ionosService_createEmbeddings svc;
     Query.ollamaService_createEmbeddings := Query.ollamaService_createEmbeddings svc;
     Query.opeaService_createEmbeddings := Query.opeaService_createEmbeddings svc;
     Query.opeaService_rerankHits := Query.opeaService_rerankHits svc;
     Query.milvusService_search := Query.milvusService_search svc;
     Query.axios_get := Query.axios_get svc;
     Query.JSON_parse := Query.JSON_parse svc;
     Query.JSON_stringify := Query.JSON_stringify svc;
     Query.String_of := Query.String_of svc;
     Query.parseFloat := Query.parseFloat svc;
     Query.random_id := Query.random_id svc;
     Query.chart_intent_prompt := Query.chart_intent_prompt svc;
     Query.alert_intent_prompt := Query.alert_intent_prompt svc;
     Query.system_prompt_text := Query.system_prompt_text svc |}.

(** The completion [{choices: [{message: {content}}]}]. *)
Definition completion (content : jsval) : jsval :=
  JObj [ (lit "choices",
           JArr [ JObj [ (lit "message",
                           JObj [ (lit "content", content) ]) ] ]) ].

(** The text [{"wants_alert":true,"asset_urn":"urn:iff:asset:7"}] and the
    record it parses to. *)
Definition alert_intent_text : jsstring :=
  lit "{" ++ quote ++ lit "wants_alert" ++ quote ++ lit ":true,"
    ++ quote ++ lit "asset_urn" ++ quote ++ lit ":"
    ++ quote ++ lit "urn:iff:asset:7" ++ quote ++ lit "}".

Definition alert_intent : jsval :=
  JObj [ (lit "wants_alert", JBool true);
         (lit "asset_urn", JStr (lit "urn:iff:asset:7")) ].

(** The text [{"wants_chart":false}] and the record it parses to. *)
Definition no_chart_text : jsstring :=
  lit "{" ++ quote ++ lit "wants_chart" ++ quote ++ lit ":false}".

(** A chart intent with a relative window and no [from] or [to]:
    [{"wants_chart":true,"asset_urn":"urn:iff:asset:42",
      "metric":"pressure","last":{"value":3,"unit":"d"}}]. *)
Definition windowed_chart_text : jsstring :=
  lit "{" ++ quote ++ lit "wants_chart" ++ quote ++ lit ":true,"
    ++ quote ++ lit "asset_urn" ++ quote ++ lit ":"
    ++ quote ++ lit "urn:iff:asset:42" ++ quote ++ lit ","
    ++ quote ++ lit "metric" ++ quote ++ lit ":"
    ++ quote ++ lit "pressure" ++ quote ++ lit ","
    ++ quote ++ lit "last" ++ quote ++ lit ":{"
    ++ quote ++ lit "value" ++ quote ++ lit ":3,"
    ++ quote ++ lit "unit" ++ quote ++ lit ":" ++ quote ++ lit "d" ++ quote
    ++ lit "}}".

Definition windowed_chart_intent : jsval :=
  JObj [ (lit "wants_chart", JBool true);
         (lit "asset_urn", JStr (lit "urn:iff:asset:42"));
         (lit "metric", JStr (lit "pressure"));
         (lit "last", JObj [ (lit "value", JNum 3);
                             (lit "unit", JStr (lit "d")) ]) ].

(** A parser that knows the three texts above. *)
Definition parse_known (s : jsstring) : option jsval :=
  if str_eqb s alert_intent_text then Some alert_intent
  else if str_eqb s no_chart_text then Some Query.no_chart_intent
  else if str_eqb s windowed_chart_text then Some windowed_chart_intent
  else None.

(** The prompt handed to a classifier: a tag and the user's text. *)
Definition tagged (tag : string) (text : jsstring) : jsstring := lit tag ++ text.

Definition prompt_of (params : ChatParams) : jsstring :=
  match messages params with
  | m :: _ => content m
  | [] => []
  end.

(** Scenario B: the user asks for the alerts of asset 7; the classifier
    finds an alert intent and no chart intent; the alert API answers with
    no alerts. *)
Definition no_alerts : Query.Services :=
  {| Query.env := no_env;
     Query.pgPool := None;
     Query.ionosService_chatCompletion :=
       fun params =>
         if Str.starts_with (lit "chart:") (prompt_of params)
         then mret (completion (JStr no_chart_text))
         else mret (completion (JStr alert_intent_text));
     Query.ollamaService_chatCompletion := fun _ => throw unreachable;
     Query.opeaService_chatCompletion := fun _ => throw unreachable;
     Query.ionosService_createEmbeddings := fun _ => throw unreachable;
     Query.ollamaService_createEmbeddings := fun _ => throw unreachable;
     Query.opeaService_createEmbeddings := fun _ => throw unreachable;
     Query.opeaService_rerankHits := fun _ => throw unreachable;
     Query.milvusService_search := fun _ _ _ => throw unreachable;
     Query.axios_get := fun _ => Ok (JObj [ (lit "alerts", JArr []) ]);
     Query.JSON_parse := parse_known;
     Query.JSON_stringify := fun _ => lit "{}";
     Query.String_of := fun _ => lit "0";
     Query.parseFloat := fun _ => None;
     Query.random_id := fun _ => lit "0.5";
     Query.chart_intent_prompt := tagged "chart:";
     Query.alert_intent_prompt := tagged "alert:";
     Query.system_prompt_text := fun ids => ids |}.

Definition alerts_question : list ChatMessage :=
  [ {| role := user;
       content := lit "show me current alerts for urn:iff:asset:7" |} ].

Definition live_alerts : jsval :=
  JObj [ (lit "reply", JStr Query.live_alerts_reply);
         (lit "alerts", JArr []) ].

Definition no_live_data_reply : jsval :=
  JObj [ (lit "reply",
           JStr (lit "No live data available for urn:iff:asset:7."));
         (lit "alerts", JArr []) ].

(** Scenario A without explicit dates: the classifier finds a chart intent
    with a relative window; the classifier's answer is fenced; the alert
    classifier's answer cannot be parsed. Postgres is configured. *)
Definition windowed_chart : Query.Services :=
  {| Query.env := no_env;
     Query.pgPool := Some (fun _ => Ok []);
     Query.ionosService_chatCompletion :=
       fun params =>
         if Str.starts_with (lit "chart:") (prompt_of params)
         then mret (completion
                      (JStr (Str.fence ++ lit "json" ++ [LF]
                               ++ windowed_chart_text ++ [LF] ++ Str.fence)))
         else mret (completion (JStr (lit "I cannot tell.")));
     Query.ollamaService_chatCompletion := fun _ => throw unreachable;
     Query.opeaService_chatCompletion := fun _ => throw unreachable;
     Query.ionosService_createEmbeddings := fun _ => throw unreachable;
     Query.ollamaService_createEmbeddings := fun _ => throw unreachable;
     Query.opeaService_createEmbeddings := fun _ => throw unreachable;
     Query.opeaService_rerankHits := fun _ => throw unreachable;
     Query.milvusService_search := fun _ _ _ => throw unreachable;
     Query.axios_get := fun _ => Throw unreachable;
     Query.JSON_parse := parse_known;
     Query.JSON_stringify := fun _ => lit "{}";
     Query.String_of := fun _ => lit "0";
     Query.parseFloat := fun _ => None;
     Query.random_id := fun _ => lit "0.5";
     Query.chart_intent_prompt := tagged "chart:";
     Query.alert_intent_prompt := tagged "alert:";
     Query.system_prompt_text := fun ids => ids |}.

Definition trend_text : jsstring :=
  lit "What's the 3-day trend for pressure on urn:iff:asset:42?".

Definition trend_question : list ChatMessage :=
  [ {| role := user; content := trend_text |} ].

(** A conversation with two user turns. *)
Definition torque_talk : list ChatMessage :=
  [ {| role := user; content := lit "The spindle rattles." |};
    {| role := assistant; content := lit "Since when?" |};
    {| role := user; content := lit "How tight should the chuck be?" |};
    {| role := assistant; content := lit "One moment." |} ].

(** [RETRIEVE_TOP_K=4] and [USE_RERANKER=True]. *)
Definition rerank_env : Env :=
  fun name =>
    if String.eqb name "RETRIEVE_TOP_K" then Some (lit "4")
    else if String.eqb name "USE_RERANKER" then Some (lit "True")
    else None.

(** A token and a masking secret, both ASCII. *)
Definition token : jsstring := lit "eyJhbGciOiJkaXIi.x-y_z".
Definition secret : jsstring := lit "s3cret".

(** ** Requests for the further properties *)

(** [EMBEDDING_DIMENSIONS=4] and [RAG_EMBED_DIM=3]. *)
Definition small_dims : Env :=
  fun name =>
    if String.eqb name "EMBEDDING_DIMENSIONS" then Some (lit "4")
    else if String.eqb name "RAG_EMBED_DIM" then Some (lit "3")
    else None.

(** [EMBEDDING_DIMENSIONS=auto] and [RAG_EMBED_DIM=] (set, and empty). *)
Definition bad_dims : Env :=
  fun name =>
    if String.eqb name "EMBEDDING_DIMENSIONS" then Some (lit "auto")
    else if String.eqb name "RAG_EMBED_DIM" then Some []
    else None.

Definition two_vectors : jsval :=
  JObj [ (lit "data",
           JArr [ JObj [ (lit "index", JNum 0);
                         (lit "embedding", JArr [JNum 1; JNum 2]) ];
                  JObj [ (lit "index", JNum 1);
                         (lit "embedding",
                           JArr [JNum 1; JNum 2; JNum 3; JNum 4; JNum 5]) ] ]);
         (lit "model", JStr (lit "BAAI/bge-m3")) ].

Definition embedding_provider (url : jsstring) (body : jsval) : res jsval :=
  Ok two_vectors.

Definition embed_hello : Embeddings.EmbedParams :=
  {| Embeddings.input := JStr (lit "hello"); Embeddings.encodingFormat := None |}.

Definition timeout_error : exn := Exn TransportError (lit "timeout of 60000ms exceeded").

(** The text and the record of a chart intent with explicit dates:
    [{"wants_chart":true,"asset_urn":"urn:iff:asset:42","metric":"pressure",
      "from":"2025-09-01T00:00:00.000","to":"2025-09-04T00:00:00.000"}]. *)
Definition dated_chart_intent : jsval :=
  JObj [ (lit "wants_chart", JBool true);
         (lit "asset_urn", JStr (lit "urn:iff:asset:42"));
         (lit "metric", JStr (lit "pressure"));
         (lit "from", JStr (lit "2025-09-01T00:00:00.000"));
         (lit "to", JStr (lit "2025-09-04T00:00:00.000")) ].

Definition dated_chart_text : jsstring := lit "dated chart intent".

(** Postgres is configured and its query fails; the classifier finds a
    chart intent with explicit dates. *)
Definition failing_postgres : Query.Services :=
  {| Query.env := no_env;
     Query.pgPool := Some (fun _ => Throw timeout_error);
     Query.ionosService_chatCompletion :=
       fun _ => mret (completion (JStr dated_chart_text));
     Query.ollamaService_chatCompletion := fun _ => throw unreachable;
     Query.opeaService_chatCompletion := fun _ => throw unreachable;
     Query.ionosService_createEmbeddings := fun _ => throw unreachable;
     Query.ollamaService_createEmbeddings := fun _ => throw unreachable;
     Query.opeaService_createEmbeddings := fun _ => throw unreachable;
     Query.opeaService_rerankHits := fun _ => throw unreachable;
     Query.milvusService_search := fun _ _ _ => throw unreachable;
     Query.axios_get := fun _ => Throw unreachable;
     Query.JSON_parse :=
       fun s => if str_eqb s dated_chart_text then Some dated_chart_intent
                else None;
     Query.JSON_stringify := fun _ => lit "{}";
     Query.String_of := fun _ => lit "0";
     Query.parseFloat := fun _ => None;
     Query.random_id := fun _ => lit "0.5";
     Query.chart_intent_prompt := tagged "chart:";
     Query.alert_intent_prompt := tagged "alert:";
     Query.system_prompt_text := fun ids => ids |}.

(** A classifier whose answer parses to [nlu], with Postgres configured
    and empty. *)
Definition classifying (nlu : jsval) : Query.Services :=
  {| Query.env := no_env;
     Query.pgPool := Some (fun _ => Ok []);
     Query.ionosService_chatCompletion :=
       fun _ => mret (completion (JStr dated_chart_text));
     Query.ollamaService_chatCompletion := fun _ => throw unreachable;
     Query.opeaService_chatCompletion := fun _ => throw unreachable;
     Query.ionosService_createEmbeddings := fun _ => throw unreachable;
     Query.ollamaService_createEmbeddings := fun _ => throw unreachable;
     Query.opeaService_createEmbeddings := fun _ => throw unreachable;
     Query.opeaService_rerankHits := fun _ => throw unreachable;
     Query.milvusService_search := fun _ _ _ => throw unreachable;
     Query.axios_get := fun _ => Throw unreachable;
     Query.JSON_parse := fun _ => Some nlu;
     Query.JSON_stringify := fun _ => lit "{}";
     Query.String_of := fun _ => lit "0";
     Query.parseFloat := fun _ => None;
     Query.random_id := fun _ => lit "0.5";
     Query.chart_intent_prompt := tagged "chart:";
     Query.alert_intent_prompt := tagged "alert:";
     Query.system_prompt_text := fun ids => ids |}.

(** The classifier answers
    [{"wants_chart":"yes","asset_urn":"urn:iff:asset:42",
      "from":"2025-09-01","to":"2025-09-04"}]: [wants_chart] is not [true]. *)
Definition loose_chart_intent : jsval :=
  JObj [ (lit "wants_chart", JStr (lit "yes"));
         (lit "asset_urn", JStr (lit "urn:iff:asset:42"));
         (lit "from", JStr (lit "2025-09-01"));
         (lit "to", JStr (lit "2025-09-04")) ].

Definition clarification : jsval :=
  JObj [ (lit "message",
           JStr (lit "Make sure you have mentioned asset ID, metric, from and to dates.")) ].

(** A conversation without a user turn. *)
Definition greeting_only : list ChatMessage :=
  [ {| role := assistant; content := lit "How can I help?" |} ].

(** Scenario C: embedding and vector search answer, the reranker times out. *)
Definition embedded_question : jsval :=
  JObj [ (lit "data",
           JArr [ JObj [ (lit "embedding", JArr [JNum 1; JNum 0]) ] ]) ].

Definition two_results : list jsval :=
  [ JObj [ (lit "text", JStr (lit "Tighten the chuck to 5 Nm."));
           (lit "filename", JStr (lit "manual.pdf"));
           (lit "score", JStr (lit "0.9")) ];
    JObj [ (lit "text", JStr (lit "Grease the spindle weekly."));
           (lit "filename", JStr (lit "service.pdf"));
           (lit "score", JStr (lit "0.8")) ] ].

Definition reranking (outcome : M (list Opea.RerankedHit)) : Query.Services :=
  {| Query.env := no_env;
     Query.pgPool := None;
     Query.ionosService_chatCompletion := fun _ => throw unreachable;
     Query.ollamaService_chatCompletion := fun _ => throw unreachable;
     Query.opeaService_chatCompletion := fun _ => throw unreachable;
     Query.ionosService_createEmbeddings := fun _ => mret embedded_question;
     Query.ollamaService_createEmbeddings := fun _ => mret embedded_question;
     Query.opeaService_createEmbeddings := fun _ => mret embedded_question;
     Query.opeaService_rerankHits := fun _ => outcome;
     Query.milvusService_search := fun _ _ _ => mret (JArr two_results);
     Query.axios_get := fun _ => Throw unreachable;
     Query.JSON_parse := fun _ => None;
     Query.JSON_stringify := fun _ => lit "{}";
     Query.String_of := fun _ => lit "0";
     Query.parseFloat := fun _ => None;
     Query.random_id := fun _ => lit "0.5";
     Query.chart_intent_prompt := tagged "chart:";
     Query.alert_intent_prompt := tagged "alert:";
     Query.system_prompt_text := fun ids => ids |}.


(** The reranker answers, and prefers the second result. *)
Definition reranked_two : list Opea.RerankedHit :=
  [ {| Opea.id := JStr (lit "0.5");
       Opea.text := JStr (lit "Grease the spindle weekly.");
       Opea.score := JStr (lit "0.8");
       Opea.rerank_score := 7 # 10 |};
    {| Opea.id := JStr (lit "0.5");
       Opea.text := JStr (lit "Tighten the chuck to 5 Nm.");
       Opea.score := JStr (lit "0.9");
       Opea.rerank_score := 2 # 10 |} ].

Definition reranker_up : Query.Services := reranking (mret reranked_two).

(** A classifier answer in a code fence. *)
Definition fenced (body : jsstring) : jsstring :=
  Str.fence ++ lit "json" ++ [LF] ++ body ++ [LF] ++ Str.fence.

(** Strings of code units below 256. *)
Definition is_latin1 (s : jsstring) : Prop := Forall (fun c => 0 <= c < 256) s.

(** A classifier answer without a backtick, and one in a fence. *)
Definition plain_answer : jsstring := lit " {} ".
Definition fenced_answer : jsstring := fenced (lit " {} ").

(** A name outside Latin-1: the code unit U+0141 and three ASCII letters. *)
Definition wide_token : jsstring := 321 :: lit "odz".

End Scenarios.
(** * Properties *)

Module JsFacts.

Lemma str_eqb_eq (a b : jsstring) : str_eqb a b = true <-> a = b.
Proof.
  revert b. induction a as [|x a IH]; intros [|y b]; simpl; try done.
  rewrite andb_true_iff, Z.eqb_eq, IH. split.
  - by intros [-> ->].
  - by intros [= -> ->].
Qed.

Lemma str_eqb_refl (a : jsstring) : str_eqb a a = true.
Proof. by apply str_eqb_eq. Qed.

Lemma str_eqb_neq (a b : jsstring) : str_eqb a b = false <-> a <> b.
Proof.
  rewrite <- str_eqb_eq. destruct (str_eqb a b); split; congruence.
Qed.

Lemma obj_get_set (k k' : jsstring) (v : jsval) (o : list (jsstring * jsval)) :
  obj_get k (obj_set k' v o) = if str_eqb k k' then Some v else obj_get k o.
Proof.
  induction o as [|[k0 v0] o IH]; simpl.
  - done.
  - destruct (str_eqb k' k0) eqn:E0; simpl.
    + apply str_eqb_eq in E0 as ->.
      by destruct (str_eqb k k0).
    + destruct (str_eqb k k0) eqn:E1.
      * apply str_eqb_eq in E1 as ->.
        destruct (str_eqb k0 k') eqn:E2; [|done].
        apply str_eqb_eq in E2 as ->. by rewrite str_eqb_refl in E0.
      * done.
Qed.



(** White space and trimming. *)
Lemma trim_start_keeps (c : Z) (s : jsstring) :
  c ∈ s -> is_space c = false -> c ∈ trim_start s.
Proof.
  induction s as [|x s IH]; simpl; [done|].
  intros Hin Hc. destruct (is_space x) eqn:Hx; [|done].
  apply elem_of_cons in Hin as [->|Hin]; [congruence | by apply IH].
Qed.

Lemma trim_keeps (c : Z) (s : jsstring) :
  c ∈ s -> is_space c = false -> c ∈ trim s.
Proof.
  intros Hin Hc. unfold trim, trim_end.
  apply elem_of_reverse, trim_start_keeps; [|done].
  by apply elem_of_reverse, trim_start_keeps.
Qed.

Lemma trim_truthy (c : Z) (s : jsstring) :
  c ∈ s -> is_space c = false -> truthy (JStr (trim s)) = true.
Proof.
  intros Hin Hc. pose proof (trim_keeps c s Hin Hc) as H.
  simpl. destruct (trim s); [by apply elem_of_nil in H | done].
Qed.

Lemma trim_all_space (s : jsstring) :
  Forall (fun c => is_space c = true) s -> trim s = [].
Proof.
  intros H. unfold trim, trim_end.
  assert (Hs : forall t, Forall (fun c => is_space c = true) t -> trim_start t = []).
  { induction 1 as [|x t Hx _ IH]; simpl; [done | by rewrite Hx]. }
  by rewrite (Hs s H).
Qed.

End JsFacts.

Module NormalizerFacts.
Import Normalizer.

Lemma copy_prefix (v out : list jsval) (k : nat) :
  (k <= length v)%nat -> (length v <= length out)%nat ->
  fold_left (fun out i => arr_set out i (default JUndefined (v !! i)))
            (seq 0 k) out
  = take k v ++ drop k out.
Proof.
  intros Hk Hlen. induction k as [|k IH].
  - by rewrite take_0, drop_0.
  - rewrite seq_S, fold_left_app. simpl. rewrite IH by lia.
    unfold arr_set.
    assert (Hl : length (take k v ++ drop k out) = length out).
    { rewrite length_app, length_take, length_drop. lia. }
    rewrite Hl.
    destruct (Nat.ltb_spec k (length out)) as [_|?]; [|lia].
    destruct (lookup_lt_is_Some_2 v k ltac:(lia)) as [x Hx].
    rewrite Hx. simpl.
    rewrite (take_S_r v k x Hx).
    rewrite insert_app_r_alt by (rewrite length_take; lia).
    rewrite length_take, Nat.min_l by lia. rewrite Nat.sub_diag.
    destruct (lookup_lt_is_Some_2 out k ltac:(lia)) as [y Hy].
    rewrite (drop_S out y k Hy). simpl.
    by rewrite <- app_assoc.
Qed.

Lemma copy_into_spec (v out : list jsval) :
  (length v <= length out)%nat ->
  copy_into v out = v ++ drop (length v) out.
Proof.
  intros H. unfold copy_into. rewrite copy_prefix by lia.
  by rewrite firstn_all.
Qed.

(** C1. For every vector [v] and every target dimension [d] (an array
    length: [0 <= d < 2^32]), [fit] returns a vector of exactly [d]
    elements; when [v] has at least [d] elements the result is the first
    [d] of them; when [v] is shorter, the result starts with [v] and every
    remaining element is the number zero; and a vector of length [d] is
    returned as it is. *)
Theorem fit_spec (d : Z) (v : list jsval) :
  0 <= d < 2 ^ 32 ->
  exists out,
    fit (Int d) v = Ok out
    /\ Z.of_nat (length out) = d
    /\ (d <= Z.of_nat (length v) -> out = take (Z.to_nat d) v)
    /\ (Z.of_nat (length v) < d ->
          take (length v) out = v
          /\ drop (length v) out = replicate (Z.to_nat d - length v) (JNum 0))
    /\ (Z.of_nat (length v) = d -> out = v).
Proof.
  intros Hd. unfold fit, slice0.
  destruct (Z.eqb_spec (Z.of_nat (length v)) d) as [He|Hne].
  - exists v. repeat split; try lia; intros _.
    by rewrite firstn_all2 by lia.
  - destruct (Z.gtb_spec (Z.of_nat (length v)) d) as [Hgt|Hle].
    + destruct (Z.ltb_spec d 0) as [?|_]; [lia|].
      eexists. split; [reflexivity|].
      repeat split; try lia; try done.
      rewrite length_take. lia.
    + unfold new_Array_fill.
      destruct (Z.leb_spec 0 d); [|lia].
      destruct (Z.ltb_spec d (2 ^ 32)); [|lia]. simpl.
      eexists. split; [reflexivity|].
      assert (Hlen : (length v <= length (replicate (Z.to_nat d) (JNum 0)))%nat)
        by (rewrite length_replicate; lia).
      rewrite (copy_into_spec _ _ Hlen), drop_replicate.
      repeat split; try lia.
      * rewrite length_app, length_replicate. lia.
      * by rewrite take_app_length.
      * by rewrite drop_app_length.
Qed.

Lemma fit_spec_witness :
  0 <= 4 < 2 ^ 32
  /\ exists out,
       fit (Int 4) [JNum 1; JNum 2] = Ok out
       /\ Z.of_nat (length out) = 4
       /\ (4 <= Z.of_nat (length [JNum 1; JNum 2]) ->
             out = take (Z.to_nat 4) [JNum 1; JNum 2])
       /\ (Z.of_nat (length [JNum 1; JNum 2]) < 4 ->
             take (length [JNum 1; JNum 2]) out = [JNum 1; JNum 2]
             /\ drop (length [JNum 1; JNum 2]) out
                = replicate (Z.to_nat 4 - length [JNum 1; JNum 2]) (JNum 0))
       /\ (Z.of_nat (length [JNum 1; JNum 2]) = 4 -> out = [JNum 1; JNum 2]).
Proof. split; [lia | apply (fit_spec 4 [JNum 1; JNum 2]); lia]. Defined.

End NormalizerFacts.

Module ChatBodyFacts.
Import Gateway JsFacts Scenarios.






End ChatBodyFacts.
Module RerankFacts.
Import Gateway Opea Outcomes JsFacts Scenarios.

Lemma run_catch_ok {A} (m : M A) (h : exn -> M A) (l l' : list entry) (a : A) :
  m l = (Ok a, l') -> try_catch m h l = (Ok a, l').
Proof. intros H. unfold try_catch. by rewrite H. Qed.

(** What both rerank paths do with the parse of the provider's answer. *)
Lemma rerank_parsed (this : OpeaService) (env : Env)
    (post : jsstring -> jsval -> res jsval)
    (params : RerankParams) (resp_data : jsval) (l : list entry)
    (rs : list RerankResult) :
  (forall url body, post url body = Ok resp_data) ->
  parse_response (documents params)
    (match backendMode this with
     | ovms => entries_OVMS resp_data
     | megaservice => entries_MegaService resp_data
     end) = Ok rs ->
  rerank this env post params l = (Ok rs, l).
Proof.
  intros Hpost Hparse. unfold rerank, rerankOVMS, rerankMegaService.
  destruct (backendMode this);
    apply run_catch_ok; unfold mbind, M_bind, bind, lift;
    by rewrite Hpost, Hparse.
Qed.

Lemma rerank_failed (this : OpeaService) (env : Env)
    (post : jsstring -> jsval -> res jsval)
    (params : RerankParams) (resp_data : jsval) (l : list entry) (e : exn) :
  (forall url body, post url body = Ok resp_data) ->
  parse_response (documents params)
    (match backendMode this with
     | ovms => entries_OVMS resp_data
     | megaservice => entries_MegaService resp_data
     end) = Throw e ->
  tagged_failure l (rerank this env post params l).
Proof.
  intros Hpost Hparse. unfold rerank, rerankOVMS, rerankMegaService.
  destruct (backendMode this);
    unfold try_catch, mbind, M_bind, bind, lift, log_line, throw;
    rewrite Hpost, Hparse; by eexists _, _.
Qed.

Lemma Qred_inject (z : Z) : Qred (inject_Z z) = inject_Z z.
Proof.
  unfold inject_Z, Qred.
  pose proof (Z.ggcd_gcd z 1) as Hg.
  pose proof (Z.ggcd_correct_divisors z 1) as Hd.
  destruct (Z.ggcd z 1) as [g [aa bb]]. simpl in *.
  rewrite Z.gcd_1_r in Hg. subst g. destruct Hd as [Ha Hb].
  rewrite Z.mul_1_l in Ha, Hb. by subst.
Qed.

Lemma as_integer_inject (z : Z) : as_integer (JNum (inject_Z z)) = Some z.
Proof. unfold as_integer. by rewrite Qred_inject. Qed.

Lemma entry_score_given (e : jsval) : nullish (entry_score e) = false.
Proof.
  unfold entry_score. generalize (coalesce (prop e "relevance_score")
                                           (prop e "score")).
  intros v. unfold coalesce. by destruct (nullish v) eqn:E.
Qed.

Lemma read_entries (n : nat) (entries : list jsval) :
  Forall (fun e => nullish e = false) entries ->
  map_res (fun r => r) (imap (fun i => read_entry (n + i)) entries)
  = Ok (imap (fun i e => (entry_index (n + i) e, entry_score e)) entries).
Proof.
  intros Hall. revert n. induction Hall as [|e entries He _ IH]; intros n.
  - done.
  - cbn [imap map_res]. unfold read_entry at 1. rewrite He.
    rewrite (imap_ext _ (fun i => read_entry (S n + i)) entries)
      by (intros; unfold compose; f_equal; lia).
    rewrite (IH (S n)). rewrite Nat.add_0_r. do 2 f_equal.
    apply imap_ext. intros. unfold compose. by rewrite Nat.add_succ_r.
Qed.

Lemma read_entries_null (n : nat) (entries : list jsval) :
  Exists (fun e => nullish e = true) entries ->
  exists err,
    map_res (fun r => r) (imap (fun i => read_entry (n + i)) entries)
    = Throw err.
Proof.
  intros Hex. revert n. induction Hex as [e entries He|e entries _ IH]; intros n.
  - cbn [imap map_res]. unfold read_entry at 1. rewrite He. by eexists.
  - cbn [imap map_res]. destruct (read_entry (n + 0) e); [|by eexists].
    rewrite (imap_ext _ (fun i => read_entry (S n + i)) entries)
      by (intros; unfold compose; f_equal; lia).
    destruct (IH (S n)) as [err ->]. by eexists.
Qed.

Lemma declared_results (docs : list RerankDocument) (n : nat)
    (entries : list jsval) :
  (forall i e, entries !! i = Some e ->
     is_Some (as_integer (entry_index (n + i) e))
     /\ is_Some (as_number (entry_score e))) ->
  exists rs,
    map_res (declared_result docs)
      (imap (fun i e => (entry_index (n + i) e, entry_score e)) entries)
    = Ok rs
    /\ length rs = length entries
    /\ forall i e r, entries !! i = Some e -> rs !! i = Some r ->
         as_integer (entry_index (n + i) e) = Some (index r)
         /\ as_number (entry_score e) = Some (relevance_score r)
         /\ document r = at_index docs (index r).
Proof.
  revert n. induction entries as [|e entries IH]; intros n Htyped.
  - exists []. split; [done|]. split; [done|]. intros i ? ? Hi.
    by rewrite lookup_nil in Hi.
  - destruct (Htyped 0%nat e eq_refl) as [[z Hz] [q Hq]].
    destruct (IH (S n)) as (rs & Hrs & Hlen & Hat).
    { intros i e' Hi. replace (S n + i)%nat with (n + S i)%nat by lia.
      by apply (Htyped (S i)). }
    cbn [imap map_res]. unfold declared_result at 1. cbn [fst snd].
    rewrite Hz, Hq.
    rewrite (imap_ext _ (fun i e => (entry_index (S n + i) e, entry_score e))
               entries) by (intros; unfold compose; by rewrite Nat.add_succ_r).
    rewrite Hrs. eexists. split; [reflexivity|]. split; [simpl; by rewrite Hlen|].
    intros [|i] e' r He' Hr.
    + injection He' as <-. injection Hr as <-. done.
    + replace (n + S i)%nat with (S n + i)%nat by lia. by apply (Hat i).
Qed.

(** The parse of an answer whose entries have the declared types. *)
Lemma parse_declared (docs : list RerankDocument) (entries : list jsval) :
  (forall i e, entries !! i = Some e ->
     nullish e = false
     /\ is_Some (as_integer (entry_index i e))
     /\ is_Some (as_number (entry_score e))) ->
  exists rs,
    parse_response docs (JArr entries) = Ok rs
    /\ length rs = length entries
    /\ forall i e r, entries !! i = Some e -> rs !! i = Some r ->
         as_integer (entry_index i e) = Some (index r)
         /\ as_number (entry_score e) = Some (relevance_score r)
         /\ document r = at_index docs (index r).
Proof.
  intros Htyped.
  assert (Hnonnull : Forall (fun e => nullish e = false) entries).
  { apply Forall_lookup. intros i e He. by apply (Htyped i e He). }
  destruct (declared_results docs 0 entries) as (rs & Hrs & Hlen & Hat).
  { intros i e He. by apply (Htyped i e He). }
  change (imap (fun i e => (entry_index (0 + i) e, entry_score e)) entries)
    with (imap (fun i e => (entry_index i e, entry_score e)) entries) in Hrs.
  pose proof (read_entries 0 entries Hnonnull) as Hread.
  change (imap (fun i => read_entry (0 + i)) entries)
    with (imap read_entry entries) in Hread.
  change (imap (fun i e => (entry_index (0 + i) e, entry_score e)) entries)
    with (imap (fun i e => (entry_index i e, entry_score e)) entries)
    in Hread.
  exists rs. split; [|split; [exact Hlen | exact Hat]].
  unfold parse_response. cbn [items_strict]. unfold mbind, res_bind.
  rewrite Hread.
  destruct entries as [|e0 rest]; [exact Hrs|].
  cbn [imap top_score].
  destruct (Htyped 0%nat e0 eq_refl) as (_ & _ & [q Hq]).
  assert (Htop : top_score [(entry_index 0 e0, entry_score e0)] = Ok tt).
  { cbn [top_score]. by destruct (entry_score e0). }
  cbn [top_score] in Htop. rewrite Htop. exact Hrs.
Qed.

(** Counterexample to C4 as stated: the provider's index is taken as it
    comes; with one document and an answer that carries index 5, the
    result's index is 5. *)
Lemma rerank_index_not_validated :
  exists rs,
    (rerank opea_ovms no_env stray_index_provider one_document_call []).1 = Ok rs
    /\ ~ index_fidelity (documents one_document_call) rs.
Proof.
  eexists. split; [vm_compute; reflexivity|].
  intros [Hvalid _]. apply Forall_cons_1 in Hvalid as [Hr _].
  simpl in Hr. lia.
Qed.

(** C4, amended. Let the provider answer, and let [found] be the value
    that the gateway reads the entries from. When [found] is not an array,
    when one of its entries is [null] or [undefined], and when the score of
    its first entry is not a number, [rerank] fails with the gateway's
    tagged error. When every entry has an [index] that is an integer, where
    it has one, and a score that is a number, where it has one, [rerank]
    returns one result per entry, in the order of the entries. The index of
    a result is the entry's own index where the provider sent one and the
    entry's position otherwise; the document is the one at that index. The
    score is [relevance_score], else [score], else 0: an entry with neither
    field gets 0. Indices are not checked against the documents; they are
    valid and without repetition when the provider sends no index and no
    more entries than there are documents. *)
Theorem rerank_results (this : OpeaService) (env : Env)
    (post : jsstring -> jsval -> res jsval)
    (params : RerankParams) (resp_data : jsval) (l : list entry) :
  (forall url body, post url body = Ok resp_data) ->
  let found := match backendMode this with
               | ovms => entries_OVMS resp_data
               | megaservice => entries_MegaService resp_data
               end in
  ((forall entries, found <> JArr entries) ->
   tagged_failure l (rerank this env post params l))
  /\ forall entries, found = JArr entries ->
       (Exists (fun e => nullish e = true) entries ->
        tagged_failure l (rerank this env post params l))
       /\ (forall e0 rest, entries = e0 :: rest ->
             nullish e0 = false -> as_number (entry_score e0) = None ->
             tagged_failure l (rerank this env post params l))
       /\ ((forall i e, entries !! i = Some e ->
              nullish e = false
              /\ is_Some (as_integer (entry_index i e))
              /\ is_Some (as_number (entry_score e))) ->
           exists rs,
             rerank this env post params l = (Ok rs, l)
             /\ length rs = length entries
             /\ (forall i e r, entries !! i = Some e -> rs !! i = Some r ->
                   as_integer (entry_index i e) = Some (index r)
                   /\ as_number (entry_score e) = Some (relevance_score r)
                   /\ document r = at_index (documents params) (index r)
                   /\ (nullish (prop e "index") = true -> index r = Z.of_nat i)
                   /\ (nullish (prop e "relevance_score") = true ->
                       nullish (prop e "score") = true ->
                       relevance_score r = 0%Q))
             /\ (Forall (fun e => nullish (prop e "index") = true) entries ->
                 (length entries <= length (documents params))%nat ->
                 index_fidelity (documents params) rs)).
Proof.
  intros Hpost found. split.
  - intros Hnot.
    assert (Hfail : exists e, parse_response (documents params) found = Throw e).
    { unfold parse_response.
      destruct found as [| | | | |entries|]; try by eexists.
      by destruct (Hnot entries). }
    destruct Hfail as [e He]. by apply (rerank_failed _ _ _ _ resp_data _ e).
  - intros entries Hfound. split; [|split].
    + intros Hnull.
      destruct (read_entries_null 0 entries Hnull) as [err Herr].
      change (imap (fun i => read_entry (0 + i)) entries)
        with (imap read_entry entries) in Herr.
      apply (rerank_failed _ _ _ _ resp_data _ err); [done|].
      fold found. rewrite Hfound. unfold parse_response. cbn [items_strict].
      unfold mbind, res_bind. by rewrite Herr.
    + intros e0 rest -> He0 Hscore.
      assert (Hfail : exists e,
                parse_response (documents params) (JArr (e0 :: rest)) = Throw e).
      { unfold parse_response. cbn [items_strict]. unfold mbind, res_bind.
        cbn [imap map_res]. unfold read_entry at 1. rewrite He0.
        destruct (map_res _ (imap (read_entry ∘ S) rest)); [|by eexists].
        cbn [top_score]. unfold as_number in Hscore.
        pose proof (entry_score_given e0) as Hgiven.
        destruct (entry_score e0); try discriminate Hscore;
          try discriminate Hgiven; by eexists. }
      destruct Hfail as [e He].
      apply (rerank_failed _ _ _ _ resp_data _ e); [done|].
      fold found. by rewrite Hfound.
    + intros Htyped.
      destruct (parse_declared (documents params) entries Htyped)
        as (rs & Hparse & Hlen & Hat).
      exists rs. split.
      { apply (rerank_parsed _ _ _ _ resp_data); [done|].
        fold found. by rewrite Hfound. }
      split; [exact Hlen|]. split.
      * intros i e r He Hr.
        destruct (Hat i e r He Hr) as (Hi & Hs & Hd).
        repeat split; try done.
        -- intros Habsent. unfold entry_index, coalesce in Hi.
           rewrite Habsent, as_integer_inject in Hi. congruence.
        -- intros H1 H2. unfold entry_score, coalesce in Hs.
           rewrite H1, H2 in Hs. simpl in Hs. congruence.
      * intros Habsent Hfew.
        assert (Hidx : forall i r, rs !! i = Some r -> index r = Z.of_nat i).
        { intros i r Hr.
          destruct (lookup_lt_is_Some_2 entries i) as [e He].
          { rewrite <- Hlen. by apply lookup_lt_Some in Hr. }
          destruct (Hat i e r He Hr) as (Hi & _ & _).
          unfold entry_index, coalesce in Hi.
          rewrite (Forall_lookup_1 _ _ _ _ Habsent He), as_integer_inject in Hi.
          congruence. }
        split.
        -- apply Forall_lookup. intros i r Hr. rewrite (Hidx i r Hr).
           apply lookup_lt_Some in Hr. lia.
        -- apply NoDup_alt. intros i j z Hi Hj.
           rewrite list_lookup_fmap in Hi, Hj.
           destruct (rs !! i) as [ri|] eqn:Hri; [|done].
           destruct (rs !! j) as [rj|] eqn:Hrj; [|done].
           simpl in Hi, Hj. rewrite (Hidx i ri Hri) in Hi.
           rewrite (Hidx j rj Hrj) in Hj. injection Hi. injection Hj. lia.
Qed.

Lemma rerank_results_witness :
  (forall url body, bare_provider url body = Ok bare_response)
  /\ exists rs,
       rerank opea_ovms no_env bare_provider one_document_call [] = (Ok rs, [])
       /\ index <$> rs = [0]
       /\ relevance_score <$> rs = [0%Q].
Proof.
  split; [reflexivity|].
  destruct (rerank_results opea_ovms no_env bare_provider one_document_call
              bare_response [] ltac:(reflexivity)) as [_ Harr].
  destruct (Harr [JObj []] eq_refl) as (_ & _ & Hok).
  destruct Hok as (rs & Hrun & _).
  { intros [|i] e He; [|by destruct i].
    injection He as <-. split; [done|]. split; by eexists. }
  exists rs. split; [exact Hrun|].
  vm_compute in Hrun. by injection Hrun as <-.
Defined.

End RerankFacts.

Module RerankHitsFacts.
Import Gateway Opea JsFacts Scenarios.

Lemma compare_le (a b : RerankedHit) :
  Qle_bool (compare_scores a b) 0 = true <-> by_rerank_score a b.
Proof.
  unfold compare_scores, by_rerank_score. rewrite Qle_bool_iff. split; lra.
Qed.

Lemma compare_gt (a b : RerankedHit) :
  Qle_bool (compare_scores a b) 0 = false -> by_rerank_score b a.
Proof.
  intros H. unfold by_rerank_score.
  destruct (Qlt_le_dec (rerank_score a) (rerank_score b)) as [Hlt|Hle].
  - by apply Qlt_le_weak.
  - apply compare_le in Hle. congruence.
Qed.

Lemma sort_insert_perm {A} (cmp : A -> A -> Q) (x : A) (l : list A) :
  Permutation (x :: l) (sort_insert cmp x l).
Proof.
  induction l as [|y l IH]; simpl; [done|].
  destruct (Qle_bool (cmp x y) 0); [done|].
  rewrite perm_swap. by apply perm_skip.
Qed.

Lemma js_sort_perm {A} (cmp : A -> A -> Q) (l : list A) :
  Permutation l (js_sort cmp l).
Proof.
  induction l as [|x l IH]; simpl; [done|].
  rewrite <- sort_insert_perm. by apply perm_skip.
Qed.

Lemma sort_insert_sorted (x : RerankedHit) (l : list RerankedHit) :
  StronglySorted by_rerank_score l ->
  StronglySorted by_rerank_score (sort_insert compare_scores x l).
Proof.
  induction 1 as [|y l Hl IH Hy]; simpl.
  - repeat constructor.
  - destruct (Qle_bool (compare_scores x y) 0) eqn:E.
    + apply compare_le in E. constructor; [by constructor|].
      constructor; [done|].
      eapply Forall_impl; [exact Hy|]. unfold by_rerank_score in *.
      simpl. intros z Hz. lra.
    + apply compare_gt in E. constructor; [done|].
      rewrite <- sort_insert_perm. by constructor.
Qed.

Lemma js_sort_sorted (l : list RerankedHit) :
  StronglySorted by_rerank_score (js_sort compare_scores l).
Proof.
  induction l as [|x l IH]; simpl; [constructor | by apply sort_insert_sorted].
Qed.

Lemma map_reranked (hs : list Hit) (rs : list RerankResult) :
  Forall (fun r => 0 <= index r < Z.of_nat (length hs)) rs ->
  exists made, map_res (reranked_hit hs) rs = Ok made
               /\ Forall2 (made_from hs) rs made.
Proof.
  induction 1 as [|r rs Hr _ (made & Hmade & Hall)]; simpl.
  - by exists [].
  - unfold reranked_hit at 1, at_index.
    destruct (Z.ltb_spec (index r) 0); [lia|].
    destruct (lookup_lt_is_Some_2 hs (Z.to_nat (index r)) ltac:(lia)) as [h Hh].
    rewrite Hh, Hmade. eexists. split; [reflexivity|].
    constructor; [|done]. by exists h.
Qed.

(** C8. When the rerank call made for the hits returns results whose
    indices all lie within the hit list, [rerankHits] returns one record per
    rerank result: its [id], [text] and [score] are those of the hit at the
    result's index (the retrieval score is kept), its [rerank_score] is the
    result's relevance score, and the list returned is in descending order
    of [rerank_score]. *)
Theorem rerankHits_spec (this : OpeaService) (env : Env)
    (post : jsstring -> jsval -> res jsval)
    (params : RerankHitsParams) (rs : list RerankResult) (l l' : list entry) :
  rerank this env post (rerank_call params) l = (Ok rs, l') ->
  Forall (fun r => 0 <= index r < Z.of_nat (length (hits params))) rs ->
  exists made out,
    rerankHits this env post params l = (Ok out, l')
    /\ Forall2 (made_from (hits params)) rs made
    /\ Permutation made out
    /\ StronglySorted by_rerank_score out.
Proof.
  intros Hrun Hvalid.
  destruct (map_reranked _ _ Hvalid) as (made & Hmade & Hall).
  exists made, (js_sort compare_scores made).
  split; [|split; [done|split]].
  - unfold rerankHits, mbind, M_bind, bind, lift. by rewrite Hrun, Hmade.
  - apply js_sort_perm.
  - apply js_sort_sorted.
Qed.

Lemma rerankHits_spec_witness :
  exists out,
    rerankHits opea_ovms no_env swapping_provider two_hits [] = (Ok out, [])
    /\ id <$> out = [JStr (lit "b"); JStr (lit "a")]
    /\ StronglySorted by_rerank_score out.
Proof.
  destruct (rerankHits_spec opea_ovms no_env swapping_provider two_hits
              _ [] [] ltac:(reflexivity)) as (made & out & Hrun & _ & _ & Hs).
  - repeat constructor; simpl; lia.
  - exists out. split; [exact Hrun|]. split; [|exact Hs].
    vm_compute in Hrun. by injection Hrun as <-.
Defined.

End RerankHitsFacts.

Module MaskFacts.
Import Gateway Str Query JsFacts Scenarios.

Lemma all_bytes_ok : forallb byte_ok (Z.of_nat <$> seq 0 256) = true.
Proof. vm_compute. reflexivity. Qed.

Lemma byte_pair (b : Z) :
  0 <= b < 256 ->
  exists h l,
    padStart2 (toString16 b) = [h; l]
    /\ is_lower_hex h = true /\ is_lower_hex l = true
    /\ is_line_terminator h = false /\ is_line_terminator l = false
    /\ parseInt [h; l] 16 = Int b.
Proof.
  intros Hb.
  assert (Hin : In b (Z.of_nat <$> seq 0 256)).
  { apply list_elem_of_In, list_elem_of_fmap. exists (Z.to_nat b).
    split; [lia|]. apply elem_of_seq. lia. }
  pose proof (proj1 (forallb_forall _ _) all_bytes_ok b Hin) as Hok.
  unfold byte_ok in Hok.
  destruct (padStart2 (toString16 b)) as [|h [|l [|? ?]]]; try discriminate.
  exists h, l.
  repeat (apply andb_true_iff in Hok as [Hok ?]).
  destruct (parseInt [h; l] 16) as [|n]; [discriminate|].
  repeat split; try done; try by apply negb_true_iff.
  f_equal. by apply Z.eqb_eq.
Qed.

Lemma match_pairs_concat (chunks : list jsstring) :
  Forall (fun ch => exists h l, ch = [h; l]
                    /\ is_line_terminator h = false
                    /\ is_line_terminator l = false) chunks ->
  match_pairs (concat chunks) = chunks.
Proof.
  induction 1 as [|ch chunks (h & l & -> & Hh & Hl) _ IH]; [done|].
  simpl. by rewrite Hh, Hl, IH.
Qed.

Lemma key_unit_range (key : jsstring) (i : nat) :
  is_jsstring key -> 0 <= key_unit key i < 65536.
Proof.
  intros Hkey. unfold key_unit. destruct key as [|k key]; [lia|].
  generalize (i mod length (k :: key))%nat. intros j.
  destruct ((k :: key) !! j) as [c|] eqn:E.
  - exact (Forall_lookup_1 _ _ _ _ Hkey E).
  - change (0 <= 0 < 65536). lia.
Qed.

Lemma xor_twice (c k : Z) : Z.lxor (Z.lxor c k) k = c.
Proof. by rewrite Z.lxor_assoc, Z.lxor_nilpotent, Z.lxor_0_r. Qed.

(** Counterexample to C10 as stated: the empty input is a string whose
    characters all satisfy the condition, and [unmask] of its mask throws. *)
Lemma unmask_empty_throws :
  mask [] secret = []
  /\ unmask (mask [] secret) secret
     = Throw (Exn TypeError (lit "Cannot read properties"))
  /\ unmask (mask [] secret) secret <> Ok [].
Proof. repeat split. discriminate. Qed.

(** C10, amended. For a key and an input that are both not empty, when each
    input code unit XORed with the key code unit at the same position (the
    key repeated cyclically) is below 256, [unmask] of [mask] gives the
    input back, and [mask] writes exactly two lowercase hexadecimal digits
    per input code unit. *)
Theorem mask_roundtrip (input key : jsstring) :
  key <> [] -> input <> [] ->
  is_jsstring key -> is_jsstring input ->
  (forall i c, input !! i = Some c -> Z.lxor c (key_unit key i) < 256) ->
  unmask (mask input key) key = Ok input
  /\ exists chunks,
       mask input key = concat chunks
       /\ Forall2 (fun c ch => length ch = 2%nat
                               /\ Forall (fun d => is_lower_hex d = true) ch)
                  input chunks.
Proof.
  intros Hkey Hinput Hwk Hwi Hsmall.
  set (f := fun (i : nat) (char : Z) =>
              padStart2 (toString16 (Z.lxor char (key_unit key i)))).
  assert (Hbyte : forall i c, input !! i = Some c ->
                    0 <= Z.lxor c (key_unit key i) < 256).
  { intros i c Hc. split; [|by eapply Hsmall].
    apply Z.lxor_nonneg. pose proof (key_unit_range key i Hwk).
    pose proof (Forall_lookup_1 _ _ _ _ Hwi Hc). simpl in *. lia. }
  assert (Hpairs : match_pairs (concat (imap f input)) = imap f input).
  { apply match_pairs_concat, Forall_forall. intros ch Hch.
    apply elem_of_lookup_imap_1 in Hch as (i & c & -> & Hc).
    destruct (byte_pair _ (Hbyte i c Hc)) as (h & l & E & _ & _ & Hh & Hl & _).
    by exists h, l. }
  split.
  - unfold unmask, mask. fold f. rewrite Hpairs.
    destruct key as [|k key']; [done|].
    destruct (imap f input) as [|p ps] eqn:Eimap.
    { apply (f_equal length) in Eimap. rewrite length_imap in Eimap.
      by destruct input. }
    rewrite <- Eimap. f_equal. apply list_eq. intros i.
    rewrite list_lookup_imap, list_lookup_fmap, list_lookup_imap.
    destruct (input !! i) as [c|] eqn:Hc; simpl; [|done].
    f_equal. unfold f.
    destruct (byte_pair _ (Hbyte i c Hc)) as (h & l & E & _ & _ & _ & _ & Hp).
    rewrite E, Hp. simpl. rewrite xor_twice. unfold fromCharCode.
    pose proof (Forall_lookup_1 _ _ _ _ Hwi Hc). simpl in *.
    apply Z.mod_small. lia.
  - exists (imap f input). split; [done|].
    apply Forall2_same_length_lookup_2; [by rewrite length_imap|].
    intros i c ch Hc Hch. rewrite list_lookup_imap, Hc in Hch.
    injection Hch as <-. unfold f.
    destruct (byte_pair _ (Hbyte i c Hc)) as (h & l & -> & Hh & Hl & _).
    split; [done|]. by repeat constructor.
Qed.

Lemma mask_roundtrip_witness :
  unmask (mask token secret) secret = Ok token
  /\ exists chunks,
       mask token secret = concat chunks
       /\ Forall2 (fun c ch => length ch = 2%nat
                               /\ Forall (fun d => is_lower_hex d = true) ch)
                  token chunks.
Proof.
  apply mask_roundtrip.
  - discriminate.
  - discriminate.
  - apply Forall_forall. intros c Hc. apply list_elem_of_In in Hc.
    vm_compute in Hc. intuition lia.
  - apply Forall_forall. intros c Hc. apply list_elem_of_In in Hc.
    vm_compute in Hc. intuition lia.
  - intros i c Hc.
    assert (Hi : (i < length token)%nat) by (by apply lookup_lt_Some in Hc).
    vm_compute in Hi.
    do 22 (destruct i as [|i]; [vm_compute in Hc; injection Hc as <-;
                                vm_compute; reflexivity|]).
    lia.
Defined.

End MaskFacts.

Module IntentFacts.
Import Gateway Str Query JsFacts Scenarios.

(** Unfolding of the monad of [async] code. *)
Ltac run :=
  unfold mbind, M_bind, bind, mret, M_ret, ret, lift, try_catch, throw,
    log_line in *.

Lemma bind_ok {A B} (m : M A) (k : A -> M B) (l l' : list entry) (a : A) :
  m l = (Ok a, l') -> (m ≫= k) l = k a l'.
Proof. intros H. run. by rewrite H. Qed.

Lemma bind_throw {A B} (m : M A) (k : A -> M B) (l l' : list entry) (e : exn) :
  m l = (Throw e, l') -> (m ≫= k) l = (Throw e, l').
Proof. intros H. run. by rewrite H. Qed.

Lemma parse_failure_caught (svc : Services) (cleaned : jsstring)
    (lv : level) (t : jsstring) (fallback : jsval) (l : list entry) :
  try_catch (lift (JSON_parse_res svc cleaned))
    (fun err => log_line lv t;; mret fallback) l
  = match JSON_parse svc cleaned with
    | Some v => (Ok v, l)
    | None => (Ok fallback, l ++ [Entry lv t])
    end.
Proof. run. unfold JSON_parse_res. by destruct (JSON_parse svc cleaned). Qed.

(** C9. Once the provider has answered the classifier call with a
    completion [r], whatever its content is, neither detector throws. When
    [JSON.parse] fails on the cleaned content, the chart detector returns
    [{wants_chart: false}] and the alert detector [{wants_alert: false}],
    and the failure leaves one line in the log; otherwise the parsed value
    is returned and nothing is logged. *)
Theorem detectors_parse_failure (svc : Services) (text : jsstring)
    (rc ra : jsval) (l lc la : list entry) :
  chart_llm_call svc (chart_intent_prompt svc text) l = (Ok rc, lc) ->
  ionosService_chatCompletion svc (intent_call (alert_intent_prompt svc text)) l
  = (Ok ra, la) ->
  (exists v l', detectChartIntentWithLLM svc text l = (Ok v, l'))
  /\ (exists v l', detectAlertIntentWithLLM svc text l = (Ok v, l'))
  /\ (JSON_parse svc (cleaned_chart svc rc) = None ->
      detectChartIntentWithLLM svc text l
      = (Ok no_chart_intent,
         lc ++ [Entry Warn (lit "Failed to parse chart intent JSON:")]))
  /\ (JSON_parse svc (cleaned_alert svc ra) = None ->
      detectAlertIntentWithLLM svc text l
      = (Ok no_alert_intent,
         la ++ [Entry Error (lit "Error parsing alert intent response:")]))
  /\ (forall v, JSON_parse svc (cleaned_chart svc rc) = Some v ->
                detectChartIntentWithLLM svc text l = (Ok v, lc))
  /\ (forall v, JSON_parse svc (cleaned_alert svc ra) = Some v ->
                detectAlertIntentWithLLM svc text l = (Ok v, la)).
Proof.
  intros Hc Ha.
  assert (Echart : detectChartIntentWithLLM svc text l
            = match JSON_parse svc (cleaned_chart svc rc) with
              | Some v => (Ok v, lc)
              | None => (Ok no_chart_intent,
                         lc ++ [Entry Warn (lit "Failed to parse chart intent JSON:")])
              end).
  { unfold detectChartIntentWithLLM.
    rewrite (bind_ok _ _ _ _ _ Hc). apply parse_failure_caught. }
  assert (Ealert : detectAlertIntentWithLLM svc text l
            = match JSON_parse svc (cleaned_alert svc ra) with
              | Some v => (Ok v, la)
              | None => (Ok no_alert_intent,
                         la ++ [Entry Error (lit "Error parsing alert intent response:")])
              end).
  { unfold detectAlertIntentWithLLM.
    rewrite (bind_ok _ _ _ _ _ Ha). apply parse_failure_caught. }
  rewrite Echart, Ealert.
  repeat split.
  - destruct (JSON_parse svc (cleaned_chart svc rc)); eauto.
  - destruct (JSON_parse svc (cleaned_alert svc ra)); eauto.
  - by intros ->.
  - by intros ->.
  - by intros v ->.
  - by intros v ->.
Qed.

Lemma detectors_parse_failure_witness :
  detectChartIntentWithLLM windowed_chart trend_text []
  = (Ok windowed_chart_intent, [])
  /\ detectAlertIntentWithLLM windowed_chart trend_text []
     = (Ok no_alert_intent,
        [Entry Error (lit "Error parsing alert intent response:")]).
Proof.
  destruct (detectors_parse_failure windowed_chart trend_text
              _ _ [] [] [] ltac:(reflexivity) ltac:(reflexivity))
    as (_ & _ & _ & Halert & Hchart & _).
  split.
  - apply Hchart. vm_compute. reflexivity.
  - apply Halert. vm_compute. reflexivity.
Defined.

(** ** Intent gating *)

Lemma lift_ok {A B} (a : A) (k : A -> M B) (l : list entry) :
  (lift (Ok a) ≫= k) l = k a l.
Proof. by run. Qed.

Lemma catch_ok {A} (m : M A) (h : exn -> M A) (l l' : list entry) (a : A) :
  m l = (Ok a, l') -> try_catch m h l = (Ok a, l').
Proof. intros H. run. by rewrite H. Qed.

Lemma handleQuery_after_chart (svc : Services) (messages : list ChatMsg)
    (l l' : list entry) :
  getChartSummaryIfAny svc messages l = (Ok None, l') ->
  forall hostProvider msgs vectorStoreIds,
    msgs <> [] -> enhance msgs vectorStoreIds = messages ->
    handleQuery svc hostProvider msgs vectorStoreIds l
    = after_chart_check svc hostProvider messages vectorStoreIds
        (if chart_check_enabled svc then l' else l).
Proof.
  intros Hsummary hostProvider msgs vectorStoreIds Hmsgs Henh.
  unfold handleQuery. destruct msgs as [|m msgs]; [done|]. rewrite Henh.
  destruct (chart_check_enabled svc).
  - by rewrite (bind_ok _ _ _ _ _ Hsummary).
  - by run.
Qed.

(** Counterexample to C5 as stated. The slots are tested for truthiness,
    not for the value [true]: with a classifier result whose [wants_chart]
    is the string [yes], the chart path is taken. And a classifier result
    of [null], in which every slot is missing, makes [maybeGetChartData]
    throw instead of returning [null]. *)
Lemma chart_gating_loose :
  (exists chart,
     maybeGetChartData (classifying loose_chart_intent) trend_question []
     = (Ok (Some chart), [])
     /\ prop loose_chart_intent "wants_chart" <> JBool true)
  /\ maybeGetChartData (classifying JNull) trend_question []
     = (Throw (Exn TypeError (lit "Cannot read properties")), []).
Proof.
  split; [|vm_compute; reflexivity].
  eexists. split; [vm_compute; reflexivity | discriminate].
Qed.

(** C5, amended. Let the classifier answer the last user turn with any
    value [nlu]. [maybeGetChartData] produces a chart only when Postgres is
    configured and, in [nlu], [wants_chart] is truthy, [asset_urn] is a
    string that is not empty, and [from] and [to] are truthy. When [nlu] is
    not [null] and one of these fails, [maybeGetChartData] returns [null]
    without throwing; when [nlu] is [null] it throws a [TypeError], which
    [getChartSummaryIfAny] catches and logs. In both cases
    [getChartSummaryIfAny] returns [null] and [handleQuery] goes on with
    the states after the chart check. *)
Theorem chart_gating (svc : Services) (messages : list ChatMsg)
    (lastUser : ChatMsg) (nlu : jsval) (l l1 : list entry) :
  last_user messages = Some lastUser ->
  detectChartIntentWithLLM svc (content lastUser) l = (Ok nlu, l1) ->
  (forall chart l2,
     maybeGetChartData svc messages l = (Ok (Some chart), l2) ->
     chart_taken nlu = true /\ pool_configured svc = true)
  /\ (nullish nlu = false ->
      chart_taken nlu && pool_configured svc = false ->
      maybeGetChartData svc messages l = (Ok None, l1)
      /\ getChartSummaryIfAny svc messages l = (Ok None, l1)
      /\ forall hostProvider msgs vectorStoreIds,
           msgs <> [] -> enhance msgs vectorStoreIds = messages ->
           handleQuery svc hostProvider msgs vectorStoreIds l
           = after_chart_check svc hostProvider messages vectorStoreIds
               (if chart_check_enabled svc then l1 else l))
  /\ (nullish nlu = true ->
      maybeGetChartData svc messages l
      = (Throw (Exn TypeError (lit "Cannot read properties")), l1)
      /\ getChartSummaryIfAny svc messages l
         = (Ok None, l1 ++ [Entry Error (lit "Chart data fetch failed:")])
      /\ forall hostProvider msgs vectorStoreIds,
           msgs <> [] -> enhance msgs vectorStoreIds = messages ->
           handleQuery svc hostProvider msgs vectorStoreIds l
           = after_chart_check svc hostProvider messages vectorStoreIds
               (if chart_check_enabled svc
                then l1 ++ [Entry Error (lit "Chart data fetch failed:")]
                else l)).
Proof.
  intros Hlast Hdetect.
  assert (Hnull : nullish nlu = true ->
            maybeGetChartData svc messages l
            = (Throw (Exn TypeError (lit "Cannot read properties")), l1)).
  { intros Hn. unfold maybeGetChartData.
    rewrite Hlast, (bind_ok _ _ _ _ _ Hdetect).
    unfold prop_strict. rewrite Hn. by run. }
  assert (Hnone : nullish nlu = false ->
            chart_taken nlu && pool_configured svc = false ->
            maybeGetChartData svc messages l = (Ok None, l1)).
  { intros Hn Hcond. unfold maybeGetChartData.
    rewrite Hlast, (bind_ok _ _ _ _ _ Hdetect).
    unfold prop_strict. rewrite Hn, lift_ok.
    unfold chart_taken in Hcond.
    generalize dependent (prop nlu "wants_chart").
    generalize dependent (prop nlu "asset_urn").
    generalize dependent (prop nlu "from").
    generalize dependent (prop nlu "to").
    intros to from asset_urn wants_chart Hcond.
    destruct (truthy wants_chart); [|done]. cbn [negb orb andb] in *.
    destruct (truthy asset_urn) eqn:Ha; [|done]. cbn [negb].
    match goal with
    | |- context [if ?c then fetchSeriesFromPostgres _ _ _ _ _ ≫= _ else _] =>
        destruct c eqn:Hgo; [|done]
    end.
    exfalso.
    apply andb_true_iff in Hgo as [Hgo Ht].
    apply andb_true_iff in Hgo as [Hgo Hf].
    apply andb_true_iff in Hgo as [Hp Hs].
    assert (Hurn : nonempty_string asset_urn = true).
    { destruct asset_urn as [| | | |[|c s]| |]; done. }
    assert (Hfrom : truthy from = true) by (by destruct (truthy from)).
    assert (Hto : truthy to = true) by (by destruct (truthy to)).
    rewrite Hurn, Hfrom, Hto, Hp in Hcond. discriminate. }
  split; [|split].
  - intros chart l2 Hchart.
    destruct (nullish nlu) eqn:Hn; [by rewrite (Hnull eq_refl) in Hchart|].
    destruct (chart_taken nlu && pool_configured svc) eqn:Hcond.
    + by apply andb_true_iff in Hcond.
    + by rewrite (Hnone eq_refl eq_refl) in Hchart.
  - intros Hn Hcond. pose proof (Hnone Hn Hcond) as Hrun.
    assert (Hsummary : getChartSummaryIfAny svc messages l = (Ok None, l1)).
    { unfold getChartSummaryIfAny.
      by rewrite (bind_ok _ _ _ _ _ (catch_ok _ _ _ _ _ Hrun)). }
    split; [done|]. split; [done|].
    by apply handleQuery_after_chart.
  - intros Hn. pose proof (Hnull Hn) as Hrun.
    assert (Hsummary : getChartSummaryIfAny svc messages l
              = (Ok None, l1 ++ [Entry Error (lit "Chart data fetch failed:")])).
    { unfold getChartSummaryIfAny. run. by rewrite Hrun. }
    split; [done|]. split; [done|].
    by apply handleQuery_after_chart.
Qed.

Lemma chart_gating_witness :
  last_user trend_question = Some (Build_ChatMessage user trend_text)
  /\ chart_taken windowed_chart_intent = false
  /\ maybeGetChartData windowed_chart trend_question [] = (Ok None, [])
  /\ getChartSummaryIfAny windowed_chart trend_question [] = (Ok None, []).
Proof.
  split; [reflexivity|]. split; [reflexivity|].
  destruct (chart_gating windowed_chart trend_question
              (Build_ChatMessage user trend_text) windowed_chart_intent [] []
              ltac:(reflexivity) ltac:(vm_compute; reflexivity))
    as (_ & Hnull & _).
  destruct (Hnull ltac:(reflexivity) ltac:(reflexivity)) as (Hdata & Hsummary & _).
  by split.
Defined.

(** ** The alert path *)

Lemma fetchAlertData_truthy (svc : Services) (assetUrn : jsval)
    (l l' : list entry) (a : AlertResult) :
  fetchAlertData svc assetUrn l = (Ok a, l') -> truthy (alerts a) = true.
Proof.
  unfold fetchAlertData. run.
  destruct (axios_get svc _) as [data|e]; simpl.
  - unfold prop_strict. destruct (nullish data); simpl.
    + intros [= <- _]. done.
    + intros [= <- _]. simpl. unfold or_else.
      by destruct (truthy (prop data "alerts")) eqn:E.
  - intros [= <- _]. done.
Qed.

(** Whatever the alert API answers, a reply of [getAlertsDataIfAny] carries
    the text of the first branch: the branch for an empty list is never
    taken. *)
Lemma getAlertsDataIfAny_reply (svc : Services) (messages : list ChatMsg)
    (l l' : list entry) (r : jsval) :
  getAlertsDataIfAny svc messages l = (Ok (Some r), l') ->
  prop r "reply" = JStr live_alerts_reply.
Proof.
  unfold getAlertsDataIfAny.
  destruct (try_catch (maybeGetAlertData svc messages) (fun _ => mret None) l)
    as [[[a|]|e] l0] eqn:Hrun; rewrite ?(bind_ok _ _ _ _ _ Hrun),
                                       ?(bind_throw _ _ _ _ _ Hrun);
    try (by run).
  assert (Htruthy : truthy (alerts a) = true).
  { revert Hrun. unfold maybeGetAlertData.
    destruct (last_user messages) as [lastUser|]; [|by run].
    unfold try_catch.
    destruct (detectAlertIntentWithLLM svc (content lastUser) l)
      as [[nlu|e] l1] eqn:Hd;
      [rewrite (bind_ok _ _ _ _ _ Hd) | rewrite (bind_throw _ _ _ _ _ Hd); by run].
    unfold prop_strict. destruct (nullish nlu); [by run|]. rewrite lift_ok.
    destruct (negb _ || negb _); [by run|].
    destruct (is_string _); [|by run].
    destruct (fetchAlertData svc (prop nlu "asset_urn") l1) as [[a'|e] l2] eqn:Hf;
      [rewrite (bind_ok _ _ _ _ _ Hf) | rewrite (bind_throw _ _ _ _ _ Hf); by run].
    run. intros [= <- _]. by eapply fetchAlertData_truthy. }
  rewrite Htruthy. run. by intros [= <- _].
Qed.

(** C2, the code at Scenario B. With an actionable alert intent for
    [urn:iff:asset:7] and an alert API that returns no alerts,
    [getAlertsDataIfAny] and [handleQuery] return the reply of the branch for
    live alerts with an empty list, not the reply that says that no live
    data is available. *)
Theorem zero_alerts_reply :
  getAlertsDataIfAny no_alerts alerts_question [] = (Ok (Some live_alerts), [])
  /\ handleQuery no_alerts None alerts_question [] [] = (Ok live_alerts, [])
  /\ live_alerts <> no_live_data_reply.
Proof.
  split; [vm_compute; reflexivity|].
  split; [vm_compute; reflexivity|].
  discriminate.
Qed.

End IntentFacts.

Module SpliceFacts.
Import Gateway Str Query JsFacts Scenarios IntentFacts.

Lemma lastUserIdx_snoc (h : list ChatMsg) (x : ChatMsg) :
  lastUserIdx (h ++ [x])
  = if is_user x then Some (length h) else lastUserIdx h.
Proof.
  unfold lastUserIdx. rewrite imap_app. simpl. rewrite reverse_snoc. simpl.
  rewrite Nat.add_0_r. by destruct (is_user x).
Qed.

Lemma lastUserIdx_none (h : list ChatMsg) :
  Forall (fun m => is_user m = false) h -> lastUserIdx h = None.
Proof.
  induction h as [|x h IH] using rev_ind; [done|].
  intros [Hh Hx]%Forall_app. apply Forall_cons_1 in Hx as [Hx _].
  rewrite lastUserIdx_snoc, Hx. by apply IH.
Qed.

Lemma lastUserIdx_last (h : list ChatMsg) (i : nat) (m : ChatMsg) :
  h !! i = Some m -> is_user m = true ->
  (forall j m', (i < j)%nat -> h !! j = Some m' -> is_user m' = false) ->
  lastUserIdx h = Some i.
Proof.
  induction h as [|x h IH] using rev_ind; [done|].
  intros Hi Hm Hlater. rewrite lastUserIdx_snoc.
  destruct (decide (i = length h)) as [->|Hne].
  - rewrite list_lookup_middle in Hi by done. injection Hi as ->.
    by rewrite Hm.
  - assert (Hlt : (i < length h)%nat).
    { apply lookup_lt_Some in Hi. rewrite length_app in Hi. simpl in Hi. lia. }
    rewrite (Hlater (length h) x Hlt (list_lookup_middle _ _ _ _ eq_refl)).
    rewrite lookup_app_l in Hi by done. apply IH; [done..|].
    intros j m' Hj Hm'. apply (Hlater j m' Hj).
    rewrite lookup_app_l; [done|]. by apply lookup_lt_Some in Hm'.
Qed.

Lemma imap_res_blocks (svc : Services) (rs : list jsval) (i : nat)
    (blocks : list jsstring) :
  imap_res (render_block svc) i rs = Ok blocks ->
  Forall (fun b => exists t, b = 91 :: t) blocks.
Proof.
  revert i blocks. induction rs as [|r rs IH]; intros i blocks; simpl.
  - by intros [= <-].
  - unfold mbind, res_bind.
    destruct (render_block svc i r) as [b|e] eqn:Hb; [|done].
    destruct (imap_res (render_block svc) (S i) rs) as [bs|e] eqn:Hbs; [|done].
    intros [= <-]. constructor; [|by eapply IH].
    unfold render_block in Hb. destruct (nullish r); [done|].
    injection Hb as <-. by eexists.
Qed.

Lemma join_head (sep : jsstring) (blocks : list jsstring) :
  Forall (fun b => exists t, b = 91 :: t) blocks ->
  join sep blocks = [] \/ exists t, join sep blocks = 91 :: t.
Proof.
  intros [|b bs (t & ->) _]; [by left|]. right.
  destruct bs; simpl; by eexists.
Qed.

(** A rendered context that is not empty opens with the bracket of its
    first block, so it has content that is not white space. *)
Lemma render_context_bracket (svc : Services) (rs : list jsval) (ctx : jsstring) :
  render_context svc rs = Ok ctx -> ctx <> [] -> exists t, ctx = 91 :: t.
Proof.
  unfold render_context, mbind, res_bind.
  destruct (imap_res (render_block svc) 0 rs) as [blocks|e] eqn:Hb; [|done].
  intros [= <-] Hne.
  apply imap_res_blocks in Hb.
  destruct (join_head block_separator
              (List.filter (fun s => truthy (JStr s) && (4 <? length s)%nat) blocks))
    as [E|E]; [|done|done].
  apply Forall_forall. intros b Hin.
  apply list_elem_of_In, filter_In in Hin as [Hin _].
  rewrite Forall_forall in Hb. apply Hb. by apply list_elem_of_In.
Qed.

(** Attaching a rendered context that is not empty to a history. *)
Lemma splice_at_last_user (svc : Services) (searchResults : list jsval)
    (contextText : jsstring) (fullHistory : list ChatMsg) :
  render_context svc searchResults = Ok contextText ->
  contextText <> [] ->
  length (with_context contextText fullHistory) = length fullHistory
  /\ (forall i m,
        fullHistory !! i = Some m -> is_user m = true ->
        (forall j m', (i < j)%nat -> fullHistory !! j = Some m' ->
                      is_user m' = false) ->
        with_context contextText fullHistory !! i
        = Some {| role := role m;
                  content := content m ++ context_header ++ context_header
                               ++ contextText |}
        /\ forall j, j <> i ->
             with_context contextText fullHistory !! j = fullHistory !! j)
  /\ (Forall (fun m => is_user m = false) fullHistory ->
      with_context contextText fullHistory = fullHistory).
Proof.
  intros Hrender Hne.
  destruct (render_context_bracket _ _ _ Hrender Hne) as [t ->].
  assert (Hbracket : is_space 91 = false) by reflexivity.
  assert (Hfull : fullContext_of (91 :: t) = context_header ++ 91 :: t).
  { unfold fullContext_of.
    by rewrite (trim_truthy 91 (91 :: t) (list_elem_of_here _ _) Hbracket). }
  assert (Htruthy : truthy (JStr (trim (context_header ++ 91 :: t))) = true).
  { apply (trim_truthy 91); [|done].
    apply elem_of_app. right. apply list_elem_of_here. }
  unfold with_context. rewrite Hfull, Htruthy.
  split; [|split].
  - destruct (lastUserIdx fullHistory) as [idx|]; [|done].
    destruct (fullHistory !! idx); [|done]. by rewrite length_insert.
  - intros i m Hi Hm Hlater.
    rewrite (lastUserIdx_last _ _ _ Hi Hm Hlater), Hi. split.
    + apply list_lookup_insert_eq. by apply lookup_lt_Some in Hi.
    + intros j Hj. by apply list_lookup_insert_ne.
  - intros Hnone. by rewrite (lastUserIdx_none _ Hnone).
Qed.

(** The context that [milvusSearch] returns is the rendering of the
    sources it returns. *)
Lemma after_search_rendered (svc : Services) (question provider : jsstring)
    (rawResults : jsval) (l l1 : list entry) (contextText : jsstring)
    (sources : list jsval) :
  after_search svc question provider rawResults l
  = (Ok (contextText, sources), l1) ->
  render_context svc sources = Ok contextText.
Proof.
  unfold after_search. run.
  destruct (normalize_results rawResults l) as [[results|?] l2]; [|done].
  match goal with
  | |- context [if ?c then _ else _] => destruct c
  end.
  - match goal with
    | |- context [imap_res ?f ?i ?xs] => destruct (imap_res f i xs) as [hits|?]
    end.
    + match goal with
      | |- context [opeaService_rerankHits svc ?p ?l0] =>
          destruct (opeaService_rerankHits svc p l0) as [[reranked|?] l3]
      end.
      * destruct (render_context svc (reranked_js <$> reranked)) eqn:E; [|done].
        by intros [= <- <- _].
      * destruct (render_context svc results) eqn:E; [|done].
        by intros [= <- <- _].
    + destruct (render_context svc results) eqn:E; [|done].
      by intros [= <- <- _].
  - destruct (render_context svc results) eqn:E; [|done].
    by intros [= <- <- _].
Qed.

Lemma milvusSearch_rendered (svc : Services) (messages : list ChatMsg)
    (hostProvider : option jsstring) (l l1 : list entry)
    (contextText : jsstring) (sources : list jsval) :
  milvusSearch svc messages hostProvider l = (Ok (contextText, sources), l1) ->
  render_context svc sources = Ok contextText.
Proof.
  unfold milvusSearch.
  set (embed := if str_eqb _ (lit "ollama") then _ else _).
  unfold mbind at 1, M_bind, bind.
  destruct (embed l) as [[emb|?] l2]; [|done].
  unfold mbind at 1, M_bind, bind, lift.
  destruct (prop_strict emb "data") as [data|?]; [|done].
  unfold mbind at 1, M_bind, bind, lift.
  destruct (first_strict data) as [data0|?]; [|done].
  unfold mbind at 1, M_bind, bind, lift.
  destruct (prop_strict data0 "embedding") as [vec|?]; [|done].
  unfold mbind at 1, M_bind, bind.
  match goal with
  | |- context [milvusService_search svc ?c ?v ?k ?l0] =>
      destruct (milvusService_search svc c v k l0) as [[raw|?] l3]; [|done]
  end.
  apply after_search_rendered.
Qed.

(** C6. Let retrieval succeed with a rendered context that is not empty.
    The history that the orchestrator sends to the language model is the
    assembled history, the system prompt followed by the conversation,
    with the context attached: [handleQuery] from retrieval on is the
    completion of that history. Attaching changes exactly one message, the
    last one whose role is [user]: its content becomes its original content
    followed by the context headers and the context text. No message is
    inserted, the number of messages is unchanged, and every other message
    is as before. A history without a user message is left as it is. A
    request whose chart and alert checks give no reply of their own is
    answered by that completion. *)
Theorem context_splice (svc : Services) (hostProvider : option jsstring)
    (enhancedMessages : list ChatMsg) (vectorStoreIds : list jsstring)
    (l l1 : list entry) (contextText : jsstring) (sources : list jsval) :
  milvusSearch svc enhancedMessages hostProvider l
  = (Ok (contextText, sources), l1) ->
  contextText <> [] ->
  let fullHistory := systemPrompt svc vectorStoreIds :: enhancedMessages in
  let spliced := with_context contextText fullHistory in
  answer svc hostProvider enhancedMessages vectorStoreIds l
  = generate svc hostProvider spliced sources l1
  /\ length spliced = length fullHistory
  /\ (forall i m,
        fullHistory !! i = Some m -> is_user m = true ->
        (forall j m', (i < j)%nat -> fullHistory !! j = Some m' ->
                      is_user m' = false) ->
        spliced !! i
        = Some {| role := role m;
                  content := content m ++ context_header ++ context_header
                               ++ contextText |}
        /\ forall j, j <> i -> spliced !! j = fullHistory !! j)
  /\ (Forall (fun m => is_user m = false) fullHistory ->
      spliced = fullHistory)
  /\ (forall messages l0 l0',
        messages <> [] ->
        enhance messages vectorStoreIds = enhancedMessages ->
        (if chart_check_enabled svc
         then getChartSummaryIfAny svc enhancedMessages
         else mret None) l0 = (Ok None, l0') ->
        getAlertsDataIfAny svc enhancedMessages l0' = (Ok None, l) ->
        handleQuery svc hostProvider messages vectorStoreIds l0
        = generate svc hostProvider spliced sources l1).
Proof.
  intros Hsearch Hne fullHistory spliced.
  assert (Hanswer : answer svc hostProvider enhancedMessages vectorStoreIds l
                    = generate svc hostProvider spliced sources l1).
  { unfold answer. by rewrite (bind_ok _ _ _ _ _ Hsearch). }
  split; [exact Hanswer|].
  destruct (splice_at_last_user svc sources contextText fullHistory
              (milvusSearch_rendered _ _ _ _ _ _ _ Hsearch) Hne)
    as (Hlen & Hlast & Hnone).
  split; [exact Hlen|]. split; [exact Hlast|]. split; [exact Hnone|].
  intros messages l0 l0' Hmessages Henhance Hchart Halert.
  unfold handleQuery. destruct messages as [|m messages]; [done|].
  rewrite Henhance, (bind_ok _ _ _ _ _ Hchart).
  unfold after_chart_check. by rewrite (bind_ok _ _ _ _ _ Halert).
Qed.

Lemma context_splice_witness :
  exists contextText sources,
    milvusSearch reranker_up torque_talk (Some (lit "opea")) []
    = (Ok (contextText, sources), [])
    /\ contextText <> []
    /\ answer reranker_up (Some (lit "opea")) torque_talk [] []
       = generate reranker_up (Some (lit "opea"))
           (with_context contextText (systemPrompt reranker_up [] :: torque_talk))
           sources []
    /\ length (with_context contextText (systemPrompt reranker_up [] :: torque_talk))
       = 5%nat
    /\ with_context contextText (systemPrompt reranker_up [] :: torque_talk) !! 3%nat
       = Some {| role := user;
                 content := lit "How tight should the chuck be?"
                              ++ context_header ++ context_header
                              ++ contextText |}.
Proof.
  eexists _, _. split; [vm_compute; reflexivity|]. split; [discriminate|].
  match goal with
  | |- context [generate _ _ (with_context ?c _) ?s _] =>
      destruct (context_splice reranker_up (Some (lit "opea")) torque_talk []
                  [] [] c s ltac:(vm_compute; reflexivity) ltac:(discriminate))
        as (Hrun & Hlen & Hlast & _ & _)
  end.
  split; [exact Hrun|]. split; [exact Hlen|].
  refine (proj1 (Hlast 3%nat {| role := user;
                                content := lit "How tight should the chuck be?" |}
                   eq_refl eq_refl _)).
  intros j m' Hj Hm'.
  destruct j as [|[|[|[|[|j]]]]]; try lia.
  - by injection Hm' as <-.
  - done.
Defined.

End SpliceFacts.

Module RetrievalFacts.
Import Gateway Str Query JsFacts Scenarios IntentFacts.

Lemma env_or_set (env : Env) (name : string) (d v : jsstring) :
  env name = Some v -> v <> [] -> env_or env name d = v.
Proof. intros H Hv. unfold env_or. rewrite H. by destruct v. Qed.

Lemma env_or_default (env : Env) (name : string) (d : jsstring) :
  env name = None \/ env name = Some [] -> env_or env name d = d.
Proof. intros [H|H]; unfold env_or; by rewrite H. Qed.

(** The configuration flag is set to true: [USE_RERANKER] is defined and
    reads [true] in any capitalisation. *)
Lemma flag_true_iff (svc : Services) :
  str_eqb (toLowerCase (env_or (env svc) "USE_RERANKER" (lit "false")))
          (lit "true") = true
  <-> exists v, env svc "USE_RERANKER"%string = Some v
                /\ toLowerCase v = lit "true".
Proof.
  rewrite str_eqb_eq. unfold env_or.
  destruct (env svc "USE_RERANKER"%string) as [[|c v]|] eqn:E.
  - split; [discriminate|]. by intros (v & [= <-] & Hv).
  - split; [by exists (c :: v) | by intros (v' & [= <-] & Hv)].
  - split; [discriminate | by intros (v & ? & _)].
Qed.

Lemma to_double_small (z : Z) : Z.abs z <= 2 ^ 53 -> to_double z = z.
Proof.
  intros Hz. unfold to_double.
  by destruct (Z.leb_spec (Z.abs z) (2 ^ 53)); [|lia].
Qed.

Lemma to_double_large (z : Z) : 2 ^ 53 < z -> 2 ^ 52 <= to_double z.
Proof.
  intros Hz. unfold to_double.
  destruct (Z.leb_spec (Z.abs z) (2 ^ 53)); [lia|].
  rewrite (Z.abs_eq z), (Z.sgn_pos z), Z.mul_1_l by lia.
  assert (Hlog : 53 <= Z.log2 z).
  { change 53 with (Z.log2 (2 ^ 53)). apply Z.log2_le_mono. lia. }
  set (e := Z.log2 z - 52).
  assert (He : 0 < 2 ^ e) by (apply Z.pow_pos_nonneg; lia).
  assert (Hq : 2 ^ 52 <= z / 2 ^ e).
  { apply Z.div_le_lower_bound; [done|].
    rewrite <- Z.pow_add_r by lia.
    replace (e + 52) with (Z.log2 z) by lia.
    apply Z.log2_spec. lia. }
  destruct (_ || _); nia.
Qed.

Lemma min_to_double (z : Z) :
  - 2 ^ 53 <= z -> Z.min (to_double z) 20 = Z.min z 20.
Proof.
  intros Hz. destruct (Z.le_gt_cases z (2 ^ 53)) as [Hle|Hgt].
  - rewrite to_double_small; [done|lia].
  - pose proof (to_double_large z Hgt). lia.
Qed.

(** C7. With a configured top-K of [k], the number of candidates that
    [milvusSearch] requests from the vector index is [k] when reranking is
    inactive and [min(3k, 20)] when it is active, the product being the
    double that JavaScript computes, which is [3k] itself unless [3k] is
    below [-2^53]. Reranking is active whenever the embedding provider is
    [opea], whatever the flag says; with any other provider it is active
    exactly when the flag [USE_RERANKER] is set to true. Once the question
    is embedded, [milvusSearch] is the search of the collection for the
    question vector with that count, followed by the states after the
    search. *)
Theorem retrieveK_spec (svc : Services) (messages : list ChatMsg)
    (hostProvider : option jsstring) (k : Z) (l : list entry) :
  topK_of svc = Int k ->
  let provider := embeddingProvider_of svc hostProvider in
  let active := useReranker_of svc provider in
  let count := Int (if active then Z.min (to_double (3 * k)) 20 else k) in
  retrieveK svc hostProvider = count
  /\ (- 2 ^ 53 <= 3 * k ->
      count = Int (if active then Z.min (3 * k) 20 else k))
  /\ (provider = lit "opea" -> active = true)
  /\ (provider <> lit "opea" ->
      (active = true <->
       exists v, env svc "USE_RERANKER"%string = Some v
                 /\ toLowerCase v = lit "true"))
  /\ (forall embeddingForQuestion l1,
        (if str_eqb provider (lit "ollama") then
           ollamaService_createEmbeddings svc (question_of messages)
         else if str_eqb provider (lit "opea") then
           opeaService_createEmbeddings svc (question_of messages)
         else ionosService_createEmbeddings svc (question_of messages)) l
        = (Ok embeddingForQuestion, l1) ->
        nullish embeddingForQuestion = false ->
        nullish (prop embeddingForQuestion "data") = false ->
        nullish (ofirst (prop embeddingForQuestion "data")) = false ->
        milvusSearch svc messages hostProvider l
        = (rawResults ←
             milvusService_search svc
               (env_or (env svc) "RAG_COLLECTION_NAME" (lit "custom_setup_7"))
               (prop (ofirst (prop embeddingForQuestion "data")) "embedding")
               count;
           after_search svc (question_of messages) provider rawResults) l1).
Proof.
  intros Hk provider active count.
  assert (Hcount : retrieveK svc hostProvider = count).
  { unfold retrieveK, retrieveK_of, count, active. fold provider. rewrite Hk.
    destruct (useReranker_of svc provider); [|done].
    by rewrite Z.mul_comm. }
  split; [exact Hcount|]. split; [|split; [|split]].
  - intros Hlow. unfold count. destruct active; [|done].
    by rewrite min_to_double.
  - intros Hp. unfold active. rewrite Hp. unfold useReranker_of.
    by rewrite str_eqb_refl.
  - intros Hne. unfold active, useReranker_of.
    apply str_eqb_neq in Hne. rewrite Hne. apply flag_true_iff.
  - intros emb l1 Hembed Hemb Hdata Hfirst.
    unfold milvusSearch. fold provider.
    rewrite (bind_ok _ _ _ _ _ Hembed).
    unfold prop_strict, first_strict.
    rewrite Hemb, lift_ok, Hdata, lift_ok, Hfirst, lift_ok.
    by rewrite Hcount.
Qed.

Lemma retrieveK_spec_witness :
  topK_of (with_env rerank_env offline) = Int 4
  /\ retrieveK (with_env rerank_env offline) (Some (lit "ollama")) = Int 12
  /\ retrieveK reranker_up (Some (lit "opea")) = Int 15
  /\ milvusSearch reranker_up [] (Some (lit "opea")) []
     = (rawResults ←
          milvusService_search reranker_up (lit "custom_setup_7")
            (JArr [JNum 1; JNum 0]) (Int 15);
        after_search reranker_up [] (lit "opea") rawResults) [].
Proof.
  split; [reflexivity|]. split.
  - exact (proj1 (retrieveK_spec (with_env rerank_env offline) []
                    (Some (lit "ollama")) 4 [] eq_refl)).
  - destruct (retrieveK_spec reranker_up [] (Some (lit "opea")) 5 [] eq_refl)
      as (Hcount & _ & _ & _ & Hcall).
    split; [exact Hcount|].
    exact (Hcall embedded_question [] eq_refl eq_refl eq_refl eq_refl).
Defined.

End RetrievalFacts.

(** * Further properties *)

Module EmbeddingFacts.
Import Gateway Str Normalizer Embeddings JsFacts NormalizerFacts Scenarios.

Ltac run :=
  unfold mbind, M_bind, bind, mret, M_ret, ret, lift, try_catch, throw,
    log_line in *.

Lemma fit_length (d : Z) (v : list jsval) :
  0 <= d < 2 ^ 32 ->
  exists out, fit (Int d) v = Ok out /\ Z.of_nat (length out) = d.
Proof.
  intros Hd. unfold fit, slice0.
  destruct (Z.eqb_spec (Z.of_nat (length v)) d) as [He|Hne]; [by exists v|].
  destruct (Z.gtb_spec (Z.of_nat (length v)) d) as [Hgt|Hle].
  - destruct (Z.ltb_spec d 0); [lia|].
    eexists. split; [done|]. rewrite length_take. lia.
  - unfold new_Array_fill.
    destruct (Z.leb_spec 0 d); [|lia].
    destruct (Z.ltb_spec d (2 ^ 32)); [|lia]. simpl.
    eexists. split; [done|].
    rewrite copy_into_spec by (rewrite length_replicate; lia).
    rewrite length_app, length_drop, length_replicate. lia.
Qed.

Lemma fit_NaN (v : list jsval) :
  fit NaN v = Throw (Exn RangeError (lit "Invalid array length")).
Proof. done. Qed.

Lemma fit_items (d : Z) (items : list jsval) :
  0 <= d < 2 ^ 32 ->
  Forall (fun item => exists v, prop item "embedding" = JArr v) items ->
  exists out, map_res (fit_item (Int d)) items = Ok out
              /\ Forall2 (fitted_to d) items out.
Proof.
  intros Hd. induction 1 as [|x items [v Hv] _ (out & Hout & Hall)]; simpl.
  - by exists [].
  - unfold fit_item at 1, mbind, res_bind, prop_strict.
    assert (Hx : nullish x = false) by (by destruct x).
    rewrite Hx, Hv. cbn [fit_value]. unfold mbind, res_bind.
    destruct (fit_length d v Hd) as (w & Hw & Hlen).
    rewrite Hw, Hout. eexists. split; [done|].
    constructor; [|done]. by exists v, w.
Qed.

Lemma fit_response_ok (d : Z) (resp_data : jsval) (items : list jsval) :
  0 <= d < 2 ^ 32 ->
  coalesce (oprop resp_data "data") (JArr []) = JArr items ->
  Forall (fun item => exists v, prop item "embedding" = JArr v) items ->
  exists out,
    fit_response (Int d) resp_data
    = Ok (JObj (obj_set (lit "data") (JArr out) (spread_fields resp_data)))
    /\ Forall2 (fitted_to d) items out.
Proof.
  intros Hd Hdata Hitems. unfold fit_response. rewrite Hdata.
  cbn [items_strict]. unfold mbind, res_bind.
  destruct (fit_items d items Hd Hitems) as (out & Hout & Hall).
  rewrite Hout. by exists out.
Qed.

(** Every vector a gateway returns has the configured dimension. Let the
    provider answer with a [data] that is an array of items whose
    [embedding] is an array, or with no [data] at all, and let the
    dimension variable parse to an array length [d]. Then the embedding
    call succeeds and returns the answer with its [data] replaced: one
    item per item of the answer, in order, each with its vector fitted to
    [d] elements and its other properties kept. The OPEA paths read
    [EMBEDDING_DIMENSIONS], the Ollama path [RAG_EMBED_DIM]. *)
Theorem embeddings_fitted (this : Opea.OpeaService) (env : Env)
    (post : jsstring -> jsval -> res jsval)
    (params : EmbedParams) (resp_data : jsval) (items : list jsval)
    (l : list entry) (d d' : Z) :
  (forall url body, post url body = Ok resp_data) ->
  coalesce (oprop resp_data "data") (JArr []) = JArr items ->
  Forall (fun item => exists v, prop item "embedding" = JArr v) items ->
  targetDim env = Int d -> 0 <= d < 2 ^ 32 ->
  targetDim_ollama env = Int d' -> 0 <= d' < 2 ^ 32 ->
  (exists out,
     createEmbeddings this env post params l
     = (Ok (JObj (obj_set (lit "data") (JArr out) (spread_fields resp_data))), l)
     /\ Forall2 (fitted_to d) items out)
  /\ (exists out,
        createEmbeddings_ollama env post params l
        = (Ok (JObj (obj_set (lit "data") (JArr out) (spread_fields resp_data))),
           l)
        /\ Forall2 (fitted_to d') items out).
Proof.
  intros Hpost Hdata Hitems Hd Hrange Hd' Hrange'. split.
  - destruct (fit_response_ok d resp_data items Hrange Hdata Hitems)
      as (out & Hout & Hall).
    exists out. split; [|done].
    unfold createEmbeddings, createEmbeddingsOVMS, createEmbeddingsMegaService.
    destruct (Opea.backendMode this); run; by rewrite Hpost, Hd, Hout.
  - destruct (fit_response_ok d' resp_data items Hrange' Hdata Hitems)
      as (out & Hout & Hall).
    exists out. split; [|done].
    unfold createEmbeddings_ollama. run. by rewrite Hpost, Hd', Hout.
Qed.

Lemma embeddings_fitted_witness :
  (exists out,
     createEmbeddings opea_ovms small_dims embedding_provider embed_hello []
     = (Ok (JObj (obj_set (lit "data") (JArr out) (spread_fields two_vectors))),
        [])
     /\ (fun item => prop item "embedding") <$> out
        = [ JArr [JNum 1; JNum 2; JNum 0; JNum 0];
            JArr [JNum 1; JNum 2; JNum 3; JNum 4] ])
  /\ (exists out,
        createEmbeddings_ollama small_dims embedding_provider embed_hello []
        = (Ok (JObj (obj_set (lit "data") (JArr out)
                       (spread_fields two_vectors))), [])
        /\ (fun item => prop item "embedding") <$> out
           = [ JArr [JNum 1; JNum 2; JNum 0]; JArr [JNum 1; JNum 2; JNum 3] ]).
Proof.
  destruct (embeddings_fitted opea_ovms small_dims embedding_provider embed_hello
              two_vectors _ [] 4 3 ltac:(reflexivity) ltac:(reflexivity))
    as [(out & Hrun & _) (out' & Hrun' & _)];
    [repeat constructor; by eexists | reflexivity | lia | reflexivity | lia |].
  split.
  - exists out. split; [exact Hrun|].
    vm_compute in Hrun. by injection Hrun as <-.
  - exists out'. split; [exact Hrun'|].
    vm_compute in Hrun'. by injection Hrun' as <-.
Defined.

Lemma fit_value_NaN (v : jsval) :
  nullish v = false ->
  fit_value NaN v = Throw (Exn RangeError (lit "Invalid array length")).
Proof. by destruct v. Qed.

(** A dimension variable that does not start with a number. When
    [parseInt] gives [NaN] and the first item of the provider's answer has
    an [embedding], the OPEA embedding call fails with its tagged error and
    one line in the log, and the Ollama call throws the [RangeError]
    itself; an answer without items still succeeds. *)
Theorem embeddings_bad_dimension (this : Opea.OpeaService) (env : Env)
    (post : jsstring -> jsval -> res jsval)
    (params : EmbedParams) (resp_data : jsval) (l : list entry) :
  (forall url body, post url body = Ok resp_data) ->
  targetDim env = NaN -> targetDim_ollama env = NaN ->
  (forall item items,
     coalesce (oprop resp_data "data") (JArr []) = JArr (item :: items) ->
     nullish (prop item "embedding") = false ->
     createEmbeddings this env post params l
     = match Opea.backendMode this with
       | Opea.ovms =>
           (Throw (Exn PlainError
                     (lit "OPEA/OVMS embedding failed: Invalid array length")),
            l ++ [Entry Error
                    (lit "[OPEA/OVMS] Embedding failed: Invalid array length")])
       | Opea.megaservice =>
           (Throw (Exn PlainError
                     (lit "OPEA MegaService embedding failed: Invalid array length")),
            l ++ [Entry Error
                    (lit "[OPEA/MegaService] Embedding failed: Invalid array length")])
       end
     /\ createEmbeddings_ollama env post params l
        = (Throw (Exn RangeError (lit "Invalid array length")), l))
  /\ (coalesce (oprop resp_data "data") (JArr []) = JArr [] ->
      exists out,
        createEmbeddings this env post params l = (Ok out, l)
        /\ createEmbeddings_ollama env post params l = (Ok out, l)
        /\ prop out "data" = JArr []).
Proof.
  intros Hpost Hd Hd'. split.
  - intros item items Hdata Hembedding.
    assert (Hfail : fit_response NaN resp_data
                    = Throw (Exn RangeError (lit "Invalid array length"))).
    { assert (Hone : fit_item NaN item
                     = Throw (Exn RangeError (lit "Invalid array length"))).
      { unfold fit_item, mbind, res_bind, prop_strict.
        assert (Hitem : nullish item = false) by (by destruct item).
        by rewrite Hitem, (fit_value_NaN _ Hembedding). }
      unfold fit_response. rewrite Hdata. cbn [items_strict].
      unfold mbind, res_bind. cbn [map_res]. by rewrite Hone. }
    split.
    + unfold createEmbeddings, createEmbeddingsOVMS, createEmbeddingsMegaService.
      destruct (Opea.backendMode this); run; by rewrite Hpost, Hd, Hfail.
    + unfold createEmbeddings_ollama. run. by rewrite Hpost, Hd', Hfail.
  - intros Hnil.
    assert (Hok : fit_response NaN resp_data
                  = Ok (JObj (obj_set (lit "data") (JArr [])
                                (spread_fields resp_data)))).
    { unfold fit_response. by rewrite Hnil. }
    eexists. split; [|split].
    + unfold createEmbeddings, createEmbeddingsOVMS, createEmbeddingsMegaService.
      destruct (Opea.backendMode this); run; by rewrite Hpost, Hd, Hok.
    + unfold createEmbeddings_ollama. run. by rewrite Hpost, Hd', Hok.
    + unfold prop. by rewrite obj_get_set, str_eqb_refl.
Qed.

Lemma embeddings_bad_dimension_witness :
  createEmbeddings opea_ovms bad_dims embedding_provider embed_hello []
  = (Throw (Exn PlainError
              (lit "OPEA/OVMS embedding failed: Invalid array length")),
     [Entry Error (lit "[OPEA/OVMS] Embedding failed: Invalid array length")])
  /\ createEmbeddings_ollama bad_dims embedding_provider embed_hello []
     = (Throw (Exn RangeError (lit "Invalid array length")), []).
Proof.
  destruct (embeddings_bad_dimension opea_ovms bad_dims embedding_provider
              embed_hello two_vectors [] ltac:(reflexivity) ltac:(reflexivity)
              ltac:(reflexivity)) as [Hfail _].
  exact (Hfail _ _ eq_refl eq_refl).
Defined.

End EmbeddingFacts.

Module GatewayFacts.
Import Gateway Str Opea Embeddings Outcomes JsFacts Scenarios.
Import RerankFacts RerankHitsFacts.

Ltac run :=
  unfold mbind, M_bind, bind, mret, M_ret, ret, lift, try_catch, throw,
    log_line in *.

Lemma starts_with_app (p s m : jsstring) :
  starts_with p s = true -> starts_with p (s ++ m) = true.
Proof.
  revert s. induction p as [|a p IH]; intros [|b s]; simpl; try done.
  intros [-> Hs]%andb_true_iff. by rewrite (IH _ Hs).
Qed.

(** The OPEA gateway throws nothing but its own tagged errors. Whatever the
    transport does, a call of [chatCompletion], [rerank] or
    [createEmbeddings] either returns a value and writes no warning or
    error, or throws a plain [Error] whose message starts with the OPEA tag
    and logs one error line; the error of the transport never leaves the
    gateway as it is. *)
Theorem opea_outcomes (this : OpeaService) (env : Env)
    (post : jsstring -> jsval -> res jsval)
    (post_rerank : jsstring -> jsval -> res jsval)
    (post_embed : jsstring -> jsval -> res jsval)
    (chat : ChatParams) (call : RerankParams) (embed : EmbedParams)
    (l : list entry) :
  tagged_outcome l (chatCompletion this env post chat l)
  /\ tagged_outcome l (rerank this env post_rerank call l)
  /\ tagged_outcome l (createEmbeddings this env post_embed embed l).
Proof.
  unfold tagged_outcome.
  assert (Htag : forall (tag line m : jsstring),
            starts_with (lit "OPEA") tag = true ->
            kind (Exn PlainError (tag ++ m)) = PlainError
            /\ starts_with (lit "OPEA") (message (Exn PlainError (tag ++ m))) = true
            /\ exists t, l ++ [Entry Error (line ++ m)] = l ++ [Entry Error t]).
  { intros tag line m Htag. split; [done|]. split; [|by eexists].
    cbn [message]. by apply starts_with_app. }
  split; [|split].
  - unfold chatCompletion, chatCompletionOVMS, chatCompletionMegaService.
    destruct (backendMode this);
      unfold try_catch, mbind, M_bind, bind, lift, log_line, throw;
      match goal with |- context [post ?u ?b] => destruct (post u b) end;
      cbv beta iota; first [reflexivity | by apply Htag].
  - unfold rerank, rerankOVMS, rerankMegaService.
    destruct (backendMode this);
      unfold try_catch, mbind, M_bind, bind, lift, log_line, throw;
      match goal with
      | |- context [post_rerank ?u ?b] => destruct (post_rerank u b)
      end;
      cbv beta iota;
      try match goal with
          | |- context [parse_response ?d ?f] => destruct (parse_response d f)
          end;
      cbv beta iota; first [reflexivity | by apply Htag].
  - unfold createEmbeddings, createEmbeddingsOVMS, createEmbeddingsMegaService.
    destruct (backendMode this);
      unfold try_catch, mbind, M_bind, bind, lift, log_line, throw;
      match goal with
      | |- context [post_embed ?u ?b] => destruct (post_embed u b)
      end;
      cbv beta iota;
      try match goal with
          | |- context [fit_response ?d ?r] => destruct (fit_response d r)
          end;
      cbv beta iota; first [reflexivity | by apply Htag].
Qed.

Lemma map_res_stray (hs : list Hit) (rs : list RerankResult) :
  Exists (fun r => ~ (0 <= index r < Z.of_nat (length hs))) rs ->
  map_res (reranked_hit hs) rs
  = Throw (Exn TypeError (lit "Cannot read properties of undefined")).
Proof.
  assert (Hone : forall r,
            reranked_hit hs r
            = Throw (Exn TypeError (lit "Cannot read properties of undefined"))
            \/ exists h, reranked_hit hs r = Ok h).
  { intros r. unfold reranked_hit. destruct (at_index hs (index r)); eauto. }
  induction 1 as [r rs Hr|r rs _ IH]; simpl.
  - unfold reranked_hit at 1, at_index.
    destruct (Z.ltb_spec (index r) 0); [done|].
    rewrite (proj2 (lookup_ge_None hs (Z.to_nat (index r)))); [done|lia].
  - destruct (Hone r) as [->|[h ->]]; [done|]. by rewrite IH.
Qed.

(** An index off the hit list fails the whole call. When one of the rerank
    results carries an index that is not an index of the hit list,
    [rerankHits] throws a [TypeError]: no partial list is returned. *)
Theorem rerankHits_stray_index (this : OpeaService) (env : Env)
    (post : jsstring -> jsval -> res jsval)
    (params : RerankHitsParams) (rs : list RerankResult) (l l' : list entry) :
  rerank this env post (rerank_call params) l = (Ok rs, l') ->
  Exists (fun r => ~ (0 <= index r < Z.of_nat (length (hits params)))) rs ->
  rerankHits this env post params l
  = (Throw (Exn TypeError (lit "Cannot read properties of undefined")), l').
Proof.
  intros Hrun Hstray. unfold rerankHits. run.
  by rewrite Hrun, (map_res_stray _ _ Hstray).
Qed.

Lemma rerankHits_stray_index_witness :
  rerankHits opea_ovms no_env stray_index_provider
    {| rh_query := lit "pressure"; hits := hits two_hits; topK := None |} []
  = (Throw (Exn TypeError (lit "Cannot read properties of undefined")), []).
Proof.
  eapply rerankHits_stray_index; [reflexivity|].
  apply Exists_cons_hd. simpl. lia.
Defined.

(** The hits are not cut to [topK] by the gateway. Let the provider
    answer with an array of entries that are not [null], each with a score
    that is a number, where it has one, and an index (its own or, where it
    has none, its position) that is an integer within the hit list. Then
    [rerankHits] succeeds and returns exactly one hit per entry of the
    answer, whatever [topK] is. *)
Theorem rerankHits_one_per_entry (this : OpeaService) (env : Env)
    (post : jsstring -> jsval -> res jsval)
    (params : RerankHitsParams) (resp_data : jsval) (entries : list jsval)
    (l : list entry) :
  (forall url body, post url body = Ok resp_data) ->
  match backendMode this with
  | ovms => entries_OVMS resp_data
  | megaservice => entries_MegaService resp_data
  end = JArr entries ->
  (forall i e, entries !! i = Some e ->
     nullish e = false
     /\ (exists z, as_integer (entry_index i e) = Some z
                   /\ 0 <= z < Z.of_nat (length (hits params)))
     /\ is_Some (as_number (entry_score e))) ->
  exists out,
    rerankHits this env post params l = (Ok out, l)
    /\ length out = length entries.
Proof.
  intros Hpost Hfound Htyped.
  destruct (parse_declared (documents (rerank_call params)) entries)
    as (rs & Hparse & Hlen & Hat).
  { intros i e He. destruct (Htyped i e He) as (Hn & (z & Hz & _) & Hs).
    split; [done|]. split; [by exists z | done]. }
  assert (Hrun : rerank this env post (rerank_call params) l = (Ok rs, l)).
  { apply (rerank_parsed _ _ _ _ resp_data); [done|]. by rewrite Hfound. }
  assert (Hrs : Forall (fun r => 0 <= index r < Z.of_nat (length (hits params))) rs).
  { apply Forall_lookup. intros i r Hr.
    destruct (lookup_lt_is_Some_2 entries i) as [e He].
    { rewrite <- Hlen. by apply lookup_lt_Some in Hr. }
    destruct (Htyped i e He) as (_ & (z & Hz & Hrange) & _).
    destruct (Hat i e r He Hr) as (Hi & _). congruence. }
  destruct (map_reranked _ _ Hrs) as (made & Hmade & Hall).
  exists (js_sort compare_scores made). split.
  - unfold rerankHits. run. by rewrite Hrun, Hmade.
  - rewrite <- (Permutation_length (js_sort_perm compare_scores made)).
    by rewrite <- (Forall2_length _ _ _ Hall).
Qed.

Lemma rerankHits_one_per_entry_witness :
  exists out,
    rerankHits opea_ovms no_env swapping_provider
      {| rh_query := lit "pressure"; hits := hits two_hits; topK := Some (Int 1) |} []
    = (Ok out, [])
    /\ length out = 2%nat.
Proof.
  apply (rerankHits_one_per_entry opea_ovms no_env swapping_provider
           {| rh_query := lit "pressure"; hits := hits two_hits;
              topK := Some (Int 1) |}
           swapped_response
           [ JObj [ (lit "index", JNum 0);
                    (lit "relevance_score", JNum (1 # 10)) ];
             JObj [ (lit "index", JNum 1);
                    (lit "relevance_score", JNum (9 # 10)) ] ] []).
  - reflexivity.
  - reflexivity.
  - intros [|[|i]] e He; try done; injection He as <-.
    + split; [done|]. split; [exists 0; split; [reflexivity | simpl; lia]|].
      by eexists.
    + split; [done|]. split; [exists 1; split; [reflexivity | simpl; lia]|].
      by eexists.
Defined.

End GatewayFacts.

Module LiveDataFacts.
Import Gateway Str Query JsFacts Scenarios IntentFacts.

Ltac run :=
  unfold mbind, M_bind, bind, mret, M_ret, ret, lift, try_catch, throw,
    log_line in *.

(** The alert fetch never throws. For every asset and every behaviour of
    the alert API, [fetchAlertData] returns a result for that asset whose
    [alerts] is truthy; when the API call fails, or its answer has no
    [alerts] (or a falsy one), [alerts] is the empty array, and only the
    failure leaves a line in the log. *)
Theorem fetchAlertData_total (svc : Services) (assetUrn : jsval) (l : list entry) :
  (exists a l',
     fetchAlertData svc assetUrn l = (Ok a, l')
     /\ alert_assetUrn a = assetUrn
     /\ truthy (alerts a) = true)
  /\ (forall e, (forall url, axios_get svc url = Throw e) ->
        fetchAlertData svc assetUrn l
        = (Ok {| alerts := JArr []; alert_assetUrn := assetUrn |},
           l ++ [Entry Error (lit "Error fetching alerts:")]))
  /\ (forall data, (forall url, axios_get svc url = Ok data) ->
        nullish data = false ->
        fetchAlertData svc assetUrn l
        = (Ok {| alerts := if truthy (prop data "alerts")
                           then prop data "alerts" else JArr [];
                 alert_assetUrn := assetUrn |}, l)).
Proof.
  split; [|split].
  - destruct (fetchAlertData svc assetUrn l) as [[a|e] l'] eqn:Hrun.
    + exists a, l'. split; [done|]. split.
      * revert Hrun. unfold fetchAlertData. run.
        destruct (axios_get svc _) as [data|?]; simpl.
        -- unfold prop_strict. destruct (nullish data); simpl; by intros [= <- _].
        -- by intros [= <- _].
      * by eapply fetchAlertData_truthy.
    + exfalso. revert Hrun. unfold fetchAlertData. run.
      destruct (axios_get svc _) as [data|?]; simpl; [|done].
      unfold prop_strict. by destruct (nullish data).
  - intros e He. unfold fetchAlertData. run. by rewrite He.
  - intros data Hdata Hnn. unfold fetchAlertData. run.
    rewrite Hdata. unfold prop_strict. by rewrite Hnn.
Qed.



Lemma maybeGetAlertData_truthy (svc : Services) (messages : list ChatMsg)
    (l l' : list entry) (a : AlertResult) :
  maybeGetAlertData svc messages l = (Ok (Some a), l') ->
  truthy (alerts a) = true.
Proof.
  unfold maybeGetAlertData.
  destruct (last_user messages) as [lastUser|]; [|by run].
  destruct (detectAlertIntentWithLLM svc (content lastUser) l)
    as [[nlu|e] l1] eqn:Hd;
    [rewrite (bind_ok _ _ _ _ _ Hd) | rewrite (bind_throw _ _ _ _ _ Hd); done].
  unfold prop_strict. destruct (nullish nlu); [by run|]. rewrite lift_ok.
  destruct (negb _ || negb _); [by run|].
  destruct (is_string _); [|by run].
  destruct (fetchAlertData svc (prop nlu "asset_urn") l1) as [[a'|e] l2] eqn:Hf;
    [rewrite (bind_ok _ _ _ _ _ Hf) | rewrite (bind_throw _ _ _ _ _ Hf); done].
  run. intros [= <- _]. by eapply fetchAlertData_truthy.
Qed.

(** The alert check never fails a request. For every conversation and
    every behaviour of the classifier and of the alert API,
    [getAlertsDataIfAny] returns without throwing: either [null], or a
    reply with the text of the live alerts and a truthy [alerts]. *)
Theorem getAlertsDataIfAny_total (svc : Services) (messages : list ChatMsg)
    (l : list entry) :
  exists r l',
    getAlertsDataIfAny svc messages l = (Ok r, l')
    /\ (r = None
        \/ exists found,
             r = Some (JObj [ (lit "reply", JStr live_alerts_reply);
                              (lit "alerts", found) ])
             /\ truthy found = true).
Proof.
  unfold getAlertsDataIfAny.
  destruct (try_catch (maybeGetAlertData svc messages) (fun _ => mret None) l)
    as [[[a|]|e] l0] eqn:Hrun.
  - rewrite (bind_ok _ _ _ _ _ Hrun).
    assert (Htruthy : truthy (alerts a) = true).
    { revert Hrun. unfold try_catch.
      destruct (maybeGetAlertData svc messages l) as [[[a'|]|e] l1] eqn:Hm;
        try (by run).
      intros [= <- _]. by eapply maybeGetAlertData_truthy. }
    rewrite Htruthy. eexists _, _. split; [reflexivity|]. right. by eexists.
  - rewrite (bind_ok _ _ _ _ _ Hrun). eexists _, _. split; [reflexivity|]. by left.
  - exfalso. revert Hrun. unfold try_catch.
    destruct (maybeGetAlertData svc messages l) as [[?|?] ?]; by run.
Qed.

(** The chart check never fails a request. [getChartSummaryIfAny] returns
    without throwing, whatever the classifier and Postgres do: [null], the
    request to name asset, metric and dates, or a summary of a series that
    is not empty. *)
Theorem getChartSummaryIfAny_total (svc : Services) (messages : list ChatMsg)
    (l : list entry) :
  exists r l',
    getChartSummaryIfAny svc messages l = (Ok r, l')
    /\ (r = None
        \/ r = Some clarification
        \/ exists c,
             series c <> []
             /\ r = Some (JObj ((lit "chart", chart_js c)
                                 :: formatChartSummary svc c))).
Proof.
  unfold getChartSummaryIfAny.
  destruct (try_catch (maybeGetChartData svc messages)
              (fun error => log_line Error (lit "Chart data fetch failed:");;
                            mret None) l)
    as [[[c|]|e] l0] eqn:Hrun.
  - rewrite (bind_ok _ _ _ _ _ Hrun).
    destruct (series c) as [|p ps] eqn:Hs; simpl.
    + eexists _, _. split; [reflexivity|]. right. by left.
    + eexists _, _. split; [reflexivity|]. right. right.
      exists c. split; [by rewrite Hs | done].
  - rewrite (bind_ok _ _ _ _ _ Hrun). eexists _, _. split; [reflexivity|]. by left.
  - exfalso. revert Hrun. unfold try_catch.
    destruct (maybeGetChartData svc messages l) as [[?|?] ?]; by run.
Qed.

(** A failing or empty Postgres query asks the user to be more specific.
    When the classifier's answer to the last user turn has [wants_chart]
    true and [asset_urn], [from] and [to] as strings that are not empty, and
    the configured pool's query fails, [getChartSummaryIfAny] returns the
    message that asks for asset, metric and dates, and the failure is one
    line in the log. *)
Theorem chart_query_failure (svc : Services) (messages : list ChatMsg)
    (lastUser : ChatMsg) (nlu : jsval) (l l1 : list entry)
    (pool : list jsval -> res (list jsval)) (e : exn) :
  last_user messages = Some lastUser ->
  detectChartIntentWithLLM svc (content lastUser) l = (Ok nlu, l1) ->
  chart_actionable nlu = true ->
  nonempty_string (prop nlu "asset_urn") = true ->
  pgPool svc = Some pool ->
  (forall args, pool args = Throw e) ->
  getChartSummaryIfAny svc messages l
  = (Ok (Some clarification),
     l1 ++ [Entry Error (lit "PostgreSQL query failed:")]).
Proof.
  intros Hlast Hdetect Hact Hurn Hpool Hfail.
  assert (Hdata : maybeGetChartData svc messages l
                  = (Ok (Some {| series := [];
                                 chart_assetUrn := prop nlu "asset_urn";
                                 chart_metric :=
                                   coalesce (prop nlu "metric") JUndefined |}),
                     l1 ++ [Entry Error (lit "PostgreSQL query failed:")])).
  { unfold maybeGetChartData. rewrite Hlast, (bind_ok _ _ _ _ _ Hdetect).
    unfold chart_actionable in Hact.
    assert (Hnn : nullish nlu = false).
    { destruct nlu; try done; simpl in Hact; discriminate. }
    unfold prop_strict. rewrite Hnn, lift_ok.
    unfold pool_configured, fetchSeriesFromPostgres. rewrite Hpool.
    generalize dependent (prop nlu "wants_chart").
    generalize dependent (prop nlu "asset_urn").
    generalize dependent (prop nlu "from").
    generalize dependent (prop nlu "to").
    intros to from asset_urn Hurn wants_chart Hact.
    destruct wants_chart as [| |[|]| | | |]; try discriminate Hact.
    destruct asset_urn as [| | | |[|? ?]| |]; try discriminate Hurn.
    destruct from as [| | | |[|? ?]| |]; try discriminate Hact.
    destruct to as [| | | |[|? ?]| |]; try discriminate Hact.
    simpl. run. by rewrite Hfail. }
  unfold getChartSummaryIfAny.
  by rewrite (bind_ok _ _ _ _ _ (catch_ok _ _ _ _ _ Hdata)).
Qed.

Lemma chart_query_failure_witness :
  getChartSummaryIfAny failing_postgres trend_question []
  = (Ok (Some clarification), [Entry Error (lit "PostgreSQL query failed:")]).
Proof.
  apply (chart_query_failure failing_postgres trend_question
           (Build_ChatMessage user trend_text) dated_chart_intent [] []
           (fun _ => Throw timeout_error) timeout_error);
    reflexivity.
Defined.

End LiveDataFacts.

Module PathFacts.
Import Gateway Str Query JsFacts Scenarios IntentFacts SpliceFacts.

Ltac run :=
  unfold mbind, M_bind, bind, mret, M_ret, ret, lift, try_catch, throw,
    log_line in *.

Lemma last_user_snoc (h : list ChatMsg) (x : ChatMsg) :
  last_user (h ++ [x]) = if is_user x then Some x else last_user h.
Proof. unfold last_user. rewrite reverse_snoc. simpl. by destruct (is_user x). Qed.

Lemma last_user_none (h : list ChatMsg) :
  Forall (fun m => is_user m = false) h -> last_user h = None.
Proof.
  induction h as [|x h IH] using rev_ind; [done|].
  intros [Hh Hx]%Forall_app. apply Forall_cons_1 in Hx as [Hx _].
  rewrite last_user_snoc, Hx. by apply IH.
Qed.

(** The turn that [last_user] finds is the one at [lastUserIdx]. *)
Lemma last_user_at_idx (h : list ChatMsg) :
  last_user h = lastUserIdx h ≫= (fun i => h !! i).
Proof.
  induction h as [|x h IH] using rev_ind; [done|].
  rewrite last_user_snoc, lastUserIdx_snoc.
  destruct (is_user x); simpl.
  - by rewrite list_lookup_middle.
  - rewrite IH. destruct (lastUserIdx h) as [i|] eqn:Hi; simpl; [|done].
    destruct (h !! i) as [m|] eqn:Hm.
    + by rewrite (lookup_app_l_Some _ _ _ _ Hm).
    + apply lookup_ge_None in Hm.
      assert (Hlt : (i < length h)%nat); [|lia].
      clear -Hi. revert i Hi.
      induction h as [|y h IHh] using rev_ind; [done|].
      intros i. rewrite lastUserIdx_snoc, length_app. simpl.
      destruct (is_user y); [intros [= <-]; lia|].
      intros Hi. specialize (IHh _ Hi). lia.
Qed.

Lemma lastUserIdx_cons (x : ChatMsg) (h : list ChatMsg) :
  is_user x = false -> lastUserIdx (x :: h) = S <$> lastUserIdx h.
Proof.
  intros Hx. induction h as [|y h IH] using rev_ind.
  - unfold lastUserIdx. simpl. by rewrite Hx.
  - change (x :: h ++ [y]) with ((x :: h) ++ [y]).
    rewrite !lastUserIdx_snoc. destruct (is_user y); [done|]. exact IH.
Qed.

Lemma lastUserIdx_is_user (h : list ChatMsg) (i : nat) :
  lastUserIdx h = Some i -> exists m, h !! i = Some m /\ is_user m = true.
Proof.
  revert i. induction h as [|x h IH] using rev_ind; [done|].
  intros i. rewrite lastUserIdx_snoc.
  destruct (is_user x) eqn:Hx.
  - intros [= <-]. exists x. by rewrite list_lookup_middle.
  - intros Hi. destruct (IH _ Hi) as (m & Hm & Hu).
    exists m. by rewrite (lookup_app_l_Some _ _ _ _ Hm).
Qed.

(** What attaching a context never does. For every context text and every
    history, [with_context] keeps the number of messages and, position by
    position, the role of each message; a message that is not a user turn
    is returned as it is, and the content of a user turn is at most
    extended. A context that is empty or all white space changes nothing. *)
Theorem with_context_frame (contextText : jsstring) (fullHistory : list ChatMsg) :
  Forall2 (fun m m' =>
             role m' = role m
             /\ (is_user m = false -> m' = m)
             /\ exists suffix, content m' = content m ++ suffix)
          fullHistory (with_context contextText fullHistory)
  /\ (Forall (fun c => is_space c = true) contextText ->
      with_context contextText fullHistory = fullHistory).
Proof.
  assert (Hsame : Forall2 (fun m m' : ChatMsg =>
                     role m' = role m /\ (is_user m = false -> m' = m)
                     /\ exists suffix, content m' = content m ++ suffix)
                    fullHistory fullHistory).
  { apply Forall2_same_length_lookup_2; [done|].
    intros i m m' Hm Hm'. rewrite Hm in Hm'. injection Hm' as <-.
    repeat split; try done. exists []. by rewrite app_nil_r. }
  split.
  - unfold with_context.
    destruct (truthy _); [|done].
    destruct (lastUserIdx fullHistory) as [idx|] eqn:Hidx; [|done].
    destruct (lastUserIdx_is_user _ _ Hidx) as (m & Hm & Hu). rewrite Hm.
    apply Forall2_same_length_lookup_2; [by rewrite length_insert|].
    intros i x y Hx Hy.
    destruct (decide (i = idx)) as [->|Hne].
    + rewrite list_lookup_insert_eq in Hy by (by apply lookup_lt_Some in Hm).
      injection Hy as <-. rewrite Hm in Hx. injection Hx as <-. simpl.
      split; [done|]. split; [congruence|]. by eexists.
    + rewrite list_lookup_insert_ne in Hy by done.
      rewrite Hx in Hy. injection Hy as <-.
      repeat split; try done. exists []. by rewrite app_nil_r.
  - intros Hblank. unfold with_context, fullContext_of.
    rewrite (trim_all_space _ Hblank). simpl.
    by rewrite (trim_all_space _ Hblank).
Qed.

(** The context goes to the turn the classifiers read. In the history that
    [handleQuery] assembles, the system prompt followed by the enhanced
    conversation, a context with content is attached to the very message
    that [last_user] selects for intent detection, and the system prompt is
    untouched; without a user turn nothing is attached. The history with
    the context attached is the one the completion is asked for. *)
Theorem context_goes_to_last_user (svc : Services) (contextText : jsstring)
    (vectorStoreIds : list jsstring) (enhancedMessages : list ChatMsg) :
  truthy (JStr (trim contextText)) = true ->
  let fullHistory := systemPrompt svc vectorStoreIds :: enhancedMessages in
  with_context contextText fullHistory !! 0%nat
  = Some (systemPrompt svc vectorStoreIds)
  /\ match last_user enhancedMessages with
     | Some lastUser =>
         exists i,
           enhancedMessages !! i = Some lastUser
           /\ with_context contextText fullHistory !! S i
              = Some {| role := role lastUser;
                        content := content lastUser ++ context_header
                                     ++ context_header ++ contextText |}
     | None => with_context contextText fullHistory = fullHistory
     end
  /\ (forall hostProvider sources l l1,
        milvusSearch svc enhancedMessages hostProvider l
        = (Ok (contextText, sources), l1) ->
        answer svc hostProvider enhancedMessages vectorStoreIds l
        = generate svc hostProvider (with_context contextText fullHistory)
            sources l1).
Proof.
  intros Hctx fullHistory.
  apply and_assoc. split; [|
    intros hostProvider sources l l1 Hsearch; unfold answer;
    by rewrite (bind_ok _ _ _ _ _ Hsearch)].
  assert (Hsys : is_user (systemPrompt svc vectorStoreIds) = false) by done.
  assert (Hfull : truthy (JStr (trim (fullContext_of contextText))) = true).
  { unfold fullContext_of. rewrite Hctx.
    apply (trim_truthy 45); [|done].
    apply elem_of_app. left. apply list_elem_of_In. vm_compute. tauto. }
  pose proof (last_user_at_idx enhancedMessages) as Hlast.
  unfold with_context. rewrite Hfull. unfold fullHistory.
  rewrite (lastUserIdx_cons _ _ Hsys).
  destruct (lastUserIdx enhancedMessages) as [i|] eqn:Hi.
  - destruct (lastUserIdx_is_user _ _ Hi) as (m & Hm & Hu).
    change (Some i ≫= (fun i => enhancedMessages !! i))
      with (enhancedMessages !! i) in Hlast.
    rewrite Hm in Hlast. rewrite Hlast.
    change (S <$> Some i) with (Some (S i)). cbv beta iota.
    change ((systemPrompt svc vectorStoreIds :: enhancedMessages) !! S i)
      with (enhancedMessages !! i).
    rewrite Hm. split; [done|].
    exists i. split; [done|].
    rewrite list_lookup_insert_eq
      by (simpl; apply lookup_lt_Some in Hm; lia).
    unfold fullContext_of. by rewrite Hctx.
  - change (None ≫= (fun i => enhancedMessages !! i)) with (@None ChatMsg) in Hlast.
    by rewrite Hlast.
Qed.

Lemma context_goes_to_last_user_witness :
  with_context (lit "[manual.pdf] torque")
    (systemPrompt offline [] :: torque_talk) !! 3%nat
  = Some {| role := user;
            content := lit "How tight should the chuck be?" ++ context_header
                         ++ context_header ++ lit "[manual.pdf] torque" |}.
Proof.
  destruct (context_goes_to_last_user offline (lit "[manual.pdf] torque") []
              torque_talk ltac:(reflexivity)) as (_ & Hlast & _).
  vm_compute in Hlast. destruct Hlast as (i & Hi & Hsplice).
  destruct i as [|[|[|[|i]]]]; try discriminate Hi.
  exact Hsplice.
Defined.

Lemma question_fold (messages : list ChatMsg) (acc : jsstring) :
  fold_left
    (fun question m =>
       if is_user m then question ++ content m ++ lit " " else question)
    messages acc
  = acc ++ concat ((fun m => content m ++ lit " ")
                     <$> List.filter is_user messages).
Proof.
  revert acc. induction messages as [|m messages IH]; intros acc; simpl.
  - by rewrite app_nil_r.
  - rewrite IH. destruct (is_user m); simpl; [|done].
    by rewrite <- !app_assoc.
Qed.

Lemma last_user_cons (x : ChatMsg) (h : list ChatMsg) :
  last_user (x :: h)
  = match last_user h with
    | Some m => Some m
    | None => if is_user x then Some x else None
    end.
Proof.
  induction h as [|y h IH] using rev_ind.
  - unfold last_user. simpl. by destruct (is_user x).
  - change (x :: h ++ [y]) with ((x :: h) ++ [y]).
    rewrite !last_user_snoc. destruct (is_user y); [done|]. exact IH.
Qed.

Lemma question_of_filter (ms : list ChatMsg) :
  question_of ms
  = trim (concat ((fun m => content m ++ lit " ") <$> List.filter is_user ms)).
Proof. unfold question_of. by rewrite question_fold. Qed.

Lemma question_of_no_user (ms : list ChatMsg) :
  Forall (fun m => is_user m = false) ms -> question_of ms = [].
Proof.
  intros Hnone. rewrite question_of_filter.
  assert (Hnil : List.filter is_user ms = []).
  { induction Hnone as [|m ms Hm _ IH]; simpl; [done|]. by rewrite Hm. }
  by rewrite Hnil.
Qed.

(** The retrieval question is made of the user turns only. [question_of]
    is the contents of the user turns, in order, each followed by a space,
    with the white space at both ends removed; turns of other roles do not
    enter it, and a conversation without a user turn gives the empty
    question. *)
Theorem question_of_user_turns (messages : list ChatMsg) :
  question_of messages
  = trim (concat ((fun m => content m ++ lit " ")
                    <$> List.filter is_user messages))
  /\ question_of messages = question_of (List.filter is_user messages)
  /\ (Forall (fun m => is_user m = false) messages -> question_of messages = []).
Proof.
  pose proof question_of_filter as Hq.
  assert (Hidem : List.filter is_user (List.filter is_user messages)
                  = List.filter is_user messages).
  { induction messages as [|m ms IH]; simpl; [done|].
    destruct (is_user m) eqn:Hm; simpl; [by rewrite Hm, IH | done]. }
  split; [apply Hq|]. split.
  - by rewrite (Hq messages), (Hq (List.filter is_user messages)), Hidem.
  - apply question_of_no_user.
Qed.

(** With vector store ids the classifiers always have a turn to read.
    [enhance] without ids returns the conversation; with ids it puts one
    user turn that names them in front and changes nothing else, so the
    last user turn is the conversation's own when it has one and the added
    turn otherwise, and the retrieval question opens with the added turn. *)
Theorem enhance_last_user (messages : list ChatMsg) (id0 : jsstring)
    (ids : list jsstring) :
  let added := {| role := user;
                  content := lit "Find Information for product "
                               ++ join (lit ", ") (id0 :: ids) ++ lit "." |} in
  enhance messages [] = messages
  /\ enhance messages (id0 :: ids) = added :: messages
  /\ last_user (enhance messages (id0 :: ids))
     = Some (default added (last_user messages))
  /\ question_of (enhance messages (id0 :: ids))
     = trim (content added ++ lit " "
               ++ concat ((fun m => content m ++ lit " ")
                            <$> List.filter is_user messages)).
Proof.
  intros added. split; [done|]. split; [done|]. split.
  - unfold enhance. fold added. rewrite last_user_cons.
    by destruct (last_user messages).
  - unfold enhance. fold added.
    rewrite (question_of_filter (added :: messages)).
    simpl. by rewrite <- !app_assoc.
Qed.

(** A conversation without a user turn goes straight to retrieval. When no
    message has the role [user] and no vector store id is given, neither
    classifier is called and nothing is logged before retrieval:
    [handleQuery] is the retrieval and generation path, run on the empty
    question. *)
Theorem handleQuery_no_user_turn (svc : Services)
    (hostProvider : option jsstring) (messages : list ChatMsg) (l : list entry) :
  messages <> [] ->
  Forall (fun m => is_user m = false) messages ->
  handleQuery svc hostProvider messages [] l
  = answer svc hostProvider messages [] l
  /\ question_of messages = [].
Proof.
  intros Hne Hnone.
  pose proof (last_user_none _ Hnone) as Hlast.
  split; [|by apply question_of_no_user].
  assert (Hchart : getChartSummaryIfAny svc messages l = (Ok None, l)).
  { unfold getChartSummaryIfAny, maybeGetChartData. rewrite Hlast. by run. }
  assert (Halert : getAlertsDataIfAny svc messages l = (Ok None, l)).
  { unfold getAlertsDataIfAny, maybeGetAlertData. rewrite Hlast. by run. }
  unfold handleQuery. destruct messages as [|m ms]; [done|].
  change (enhance (m :: ms) []) with (m :: ms).
  assert (Hafter : after_chart_check svc hostProvider (m :: ms) [] l
                   = answer svc hostProvider (m :: ms) [] l).
  { unfold after_chart_check. by rewrite (bind_ok _ _ _ _ _ Halert). }
  destruct (chart_check_enabled svc).
  - by rewrite (bind_ok _ _ _ _ _ Hchart).
  - run. exact Hafter.
Qed.

Lemma handleQuery_no_user_turn_witness :
  handleQuery offline None greeting_only [] []
  = answer offline None greeting_only [] []
  /\ question_of greeting_only = [].
Proof.
  apply handleQuery_no_user_turn; [discriminate|].
  repeat constructor.
Defined.

End PathFacts.

Module AnswerFacts.
Import Gateway Str Query JsFacts Scenarios IntentFacts SpliceFacts.

Ltac run :=
  unfold mbind, M_bind, bind, mret, M_ret, ret, lift, try_catch, throw,
    log_line in *.

Lemma render_block_long (svc : Services) (i : nat) (hit : jsval) (b : jsstring) :
  render_block svc i hit = Ok b -> (4 <? length b)%nat = true /\ b <> [].
Proof.
  unfold render_block. destruct (nullish hit); [done|].
  intros [= <-]. split; [|done].
  apply Nat.ltb_lt. rewrite length_cons, length_app. simpl. lia.
Qed.

Lemma imap_res_long (svc : Services) (rs : list jsval) (i : nat)
    (blocks : list jsstring) :
  imap_res (render_block svc) i rs = Ok blocks ->
  length blocks = length rs
  /\ List.filter (fun s => truthy (JStr s) && (4 <? length s)%nat) blocks = blocks.
Proof.
  revert i blocks. induction rs as [|r rs IH]; intros i blocks; simpl.
  - by intros [= <-].
  - unfold mbind, res_bind.
    destruct (render_block svc i r) as [b|e] eqn:Hb; [|done].
    destruct (imap_res (render_block svc) (S i) rs) as [bs|e] eqn:Hbs; [|done].
    intros [= <-]. destruct (IH _ _ Hbs) as [Hlen Hfilter].
    destruct (render_block_long _ _ _ _ Hb) as [Hlong Hne].
    split; [simpl; by rewrite Hlen|].
    destruct b as [|c b]; [done|].
    cbn [List.filter truthy andb]. rewrite Hlong. f_equal. exact Hfilter.
Qed.

Lemma imap_res_total (svc : Services) (rs : list jsval) (i : nat) :
  Forall (fun h => nullish h = false) rs ->
  exists blocks, imap_res (render_block svc) i rs = Ok blocks.
Proof.
  intros Hall. revert i. induction Hall as [|r rs Hr _ IH]; intros i; simpl.
  - by eexists.
  - unfold mbind, res_bind. unfold render_block at 1. rewrite Hr.
    destruct (IH (S i)) as [bs ->]. by eexists.
Qed.

Lemma imap_res_null (svc : Services) (rs : list jsval) (i : nat) :
  Exists (fun h => nullish h = true) rs ->
  imap_res (render_block svc) i rs = type_error.
Proof.
  intros Hex. revert i. induction Hex as [r rs Hr|r rs _ IH]; intros i; simpl.
  - unfold mbind, res_bind, render_block. by rewrite Hr.
  - unfold mbind, res_bind. rewrite IH.
    unfold render_block. by destruct (nullish r).
Qed.

Lemma join_nonempty (sep : jsstring) (blocks : list jsstring) :
  blocks <> [] -> Forall (fun b => b <> []) blocks -> join sep blocks <> [].
Proof.
  intros Hne Hall. destruct Hall as [|b bs Hb _]; [done|].
  destruct b as [|c b]; [done|]. by destruct bs.
Qed.

(** Every search result gets its block. The filter on rendered blocks
    never removes one, since a block is never shorter than its frame of
    brackets, score and line break: the context is the blocks of all
    results, in their order, joined by the separator. With results that are
    all objects the rendering succeeds, and is not empty unless there is no
    result; a [null] among the results makes it throw a [TypeError]. *)
Theorem render_context_all_blocks (svc : Services) (searchResults : list jsval) :
  render_context svc searchResults
  = (blocks ← imap_res (render_block svc) 0 searchResults;
     Ok (join block_separator blocks))
  /\ (forall blocks, imap_res (render_block svc) 0 searchResults = Ok blocks ->
        length blocks = length searchResults)
  /\ (Forall (fun h => nullish h = false) searchResults ->
      exists contextText,
        render_context svc searchResults = Ok contextText
        /\ (searchResults <> [] -> contextText <> []))
  /\ (Exists (fun h => nullish h = true) searchResults ->
      render_context svc searchResults = type_error).
Proof.
  assert (Heq : render_context svc searchResults
                = (blocks ← imap_res (render_block svc) 0 searchResults;
                   Ok (join block_separator blocks))).
  { unfold render_context, mbind, res_bind.
    destruct (imap_res (render_block svc) 0 searchResults) as [blocks|e] eqn:Hb;
      [|done].
    by rewrite (proj2 (imap_res_long _ _ _ _ Hb)). }
  split; [exact Heq|]. split; [|split].
  - intros blocks Hb. by apply (imap_res_long _ _ _ _ Hb).
  - intros Hall. rewrite Heq.
    destruct (imap_res_total svc searchResults 0 Hall) as [blocks Hb].
    unfold mbind, res_bind. rewrite Hb. eexists. split; [done|].
    intros Hne. apply join_nonempty.
    + destruct (imap_res_long _ _ _ _ Hb) as [Hlen _].
      destruct blocks; [|done]. by destruct searchResults.
    + eapply Forall_impl; [exact (imap_res_blocks _ _ _ _ Hb)|].
      by intros b [t ->].
  - intros Hex. rewrite Heq. unfold mbind, res_bind.
    by rewrite (imap_res_null _ _ _ Hex).
Qed.

(** What the generation path can throw. When retrieval throws, [answer]
    throws the same exception: failures of the embedding provider or of the
    vector search are not caught. When retrieval succeeds, [answer] either
    returns a reply with at most the first three retrieval sources, or
    throws the one error [Failed to generate response] after logging the
    failure: no detail of a provider error reaches the caller. *)
Theorem answer_outcomes (svc : Services) (hostProvider : option jsstring)
    (enhancedMessages : list ChatMsg) (vectorStoreIds : list jsstring)
    (l : list entry) :
  match milvusSearch svc enhancedMessages hostProvider l with
  | (Throw e, l1) =>
      answer svc hostProvider enhancedMessages vectorStoreIds l = (Throw e, l1)
  | (Ok (contextText, sources), l1) =>
      (exists reply l2,
         answer svc hostProvider enhancedMessages vectorStoreIds l
         = (Ok (JObj [ (lit "reply", reply);
                       (lit "sources", JArr (take 3 sources)) ]), l2))
      \/ (exists l2,
            answer svc hostProvider enhancedMessages vectorStoreIds l
            = (Throw (Exn InternalServerErrorException
                        (lit "Failed to generate response")),
               l2 ++ [Entry Error (lit "LLM call failed:")]))
  end.
Proof.
  destruct (milvusSearch svc enhancedMessages hostProvider l)
    as [[[contextText sources]|e] l1] eqn:Hsearch.
  - unfold answer. rewrite (bind_ok _ _ _ _ _ Hsearch). cbv beta iota.
    set (fullHistory := with_context contextText _).
    unfold generate.
    set (call := Build_ChatParams fullHistory _ _ _).
    unfold try_catch.
    assert (Hshape : forall (chat : M jsval),
      match (completion ← chat;
             choices ← lift (prop_strict completion "choices");
             choice ← lift (first_strict choices);
             msg ← lift (prop_strict choice "message");
             reply ← lift (prop_strict msg "content");
             mret (JObj [ (lit "reply", reply);
                          (lit "sources", JArr (take 3 sources)) ])) l1 with
      | (Ok v, l2) => exists reply, v = JObj [ (lit "reply", reply);
                                               (lit "sources", JArr (take 3 sources)) ]
      | (Throw _, _) => True
      end).
    { intros chat. run. destruct (chat l1) as [[c|?] l2]; [|done].
      unfold prop_strict, first_strict.
      destruct (nullish c); [done|].
      destruct (nullish (prop c "choices")); [done|].
      destruct (nullish (ofirst (prop c "choices"))); [done|].
      destruct (nullish (prop (ofirst (prop c "choices")) "message")); [done|].
      by eexists. }
    set (chat := if str_eqb (llmProvider_of svc hostProvider) (lit "ollama")
                 then _ else _).
    specialize (Hshape chat).
    match type of Hshape with
    | match ?x with _ => _ end => destruct x as [[v|e] l2]
    end.
    + destruct Hshape as [reply ->]. left. by eexists _, _.
    + right. run. by eexists.
  - unfold answer. by rewrite (bind_throw _ _ _ _ _ Hsearch).
Qed.

End AnswerFacts.

Module FallbackFacts.
Import Gateway Str Query JsFacts Scenarios IntentFacts SpliceFacts AnswerFacts.

Ltac run :=
  unfold mbind, M_bind, bind, mret, M_ret, ret, lift, try_catch, throw,
    log_line in *.


Lemma hits_total (svc : Services) (rs : list jsval) (i : nat) :
  Forall (fun h => nullish h = false) rs ->
  exists hits, imap_res (hit_of svc) i rs = Ok hits.
Proof.
  intros Hall. revert i. induction Hall as [|r rs Hr _ IH]; intros i; simpl.
  - by eexists.
  - unfold mbind, res_bind. unfold hit_of at 1. rewrite Hr.
    destruct (IH (S i)) as [hs ->]. by eexists.
Qed.



Lemma render_reranked (svc : Services) (i : nat) (h : Opea.RerankedHit) :
  render_block svc i (reranked_js h)
  = Ok (lit "[doc-" ++ to_string svc (JNum (inject_Z (Z.of_nat i)))
          ++ lit "] (score: "
          ++ to_string svc (or_else (Opea.score h) (JStr (lit "N/A")))
          ++ lit ")" ++ NL
          ++ to_string svc (or_else (Opea.text h)
                              (JStr (JSON_stringify svc (reranked_js h))))).
Proof.
  destruct h as [hid htext hscore hrr]. unfold render_block, reranked_js.
  cbn [nullish Opea.id Opea.text Opea.score Opea.rerank_score].
  set (hit := JObj _).
  assert (Hlabels : prop hit "labels" = JUndefined) by reflexivity.
  assert (Hentity : prop hit "entity" = JUndefined) by reflexivity.
  assert (Hsource : prop hit "source" = JUndefined) by reflexivity.
  assert (Hfilename : prop hit "filename" = JUndefined) by reflexivity.
  assert (Hcontent : prop hit "content" = JUndefined) by reflexivity.
  assert (Hdistance : prop hit "distance" = JUndefined) by reflexivity.
  assert (Htext : prop hit "text" = htext) by reflexivity.
  assert (Hscore : prop hit "score" = hscore) by reflexivity.
  rewrite Hlabels, Hentity.
  change (coerceLabels svc (or3 JUndefined JUndefined hit)) with hit.
  rewrite Hsource, Hfilename, Hcontent, Hdistance, Htext, Hscore.
  unfold or3, or_else. cbn [truthy].
  destruct (truthy htext) eqn:Ht, (truthy hscore) eqn:Hs;
    rewrite ?Ht, ?Hs; cbn [truthy to_string]; reflexivity.
Qed.

Lemma reranked_blocks (svc : Services) (rs : list Opea.RerankedHit) (i : nat) :
  exists blocks,
    imap_res (render_block svc) i (reranked_js <$> rs) = Ok blocks
    /\ forall j h, rs !! j = Some h ->
         blocks !! j
         = Some (lit "[doc-"
                   ++ to_string svc (JNum (inject_Z (Z.of_nat (i + j))))
                   ++ lit "] (score: "
                   ++ to_string svc (or_else (Opea.score h) (JStr (lit "N/A")))
                   ++ lit ")" ++ NL
                   ++ to_string svc
                        (or_else (Opea.text h)
                           (JStr (JSON_stringify svc (reranked_js h))))).
Proof.
  revert i. induction rs as [|r rs IH]; intros i.
  - exists []. split; [done|]. intros j h Hj. by rewrite lookup_nil in Hj.
  - destruct (IH (S i)) as (bs & Hbs & Hat).
    eexists (_ :: bs). split.
    + rewrite fmap_cons. cbn [imap_res]. unfold mbind, res_bind.
      rewrite render_reranked, Hbs. reflexivity.
    + intros [|j] h Hj.
      * injection Hj as ->. by rewrite Nat.add_0_r.
      * change (bs !! j = Some
                 (lit "[doc-"
                    ++ to_string svc (JNum (inject_Z (Z.of_nat (i + S j))))
                    ++ lit "] (score: "
                    ++ to_string svc (or_else (Opea.score h) (JStr (lit "N/A")))
                    ++ lit ")" ++ NL
                    ++ to_string svc
                         (or_else (Opea.text h)
                            (JStr (JSON_stringify svc (reranked_js h)))))).
        rewrite Nat.add_succ_r. exact (Hat j h Hj).
Qed.

(** After a successful reranking the context no longer names a document.
    Let the embedding providers answer with a vector and the vector search
    with a non-empty list of objects, let reranking be active with the OPEA
    reranker, and let the reranker answer [reranked]. Then the sources of
    [milvusSearch] are the reranked records, which carry only [id], [text],
    [score] and [rerank_score]; and the context has one block for each of
    them, in the reranker's order, headed [doc-<position>] and the score of
    the vector search: neither the file name of a result nor its rerank
    score appears in the heading. *)
Theorem reranked_context (svc : Services) (messages : list ChatMsg)
    (hostProvider : option jsstring) (emb : jsval) (results : list jsval)
    (reranked : list Opea.RerankedHit) (l : list entry) :
  (forall q l0, ollamaService_createEmbeddings svc q l0 = (Ok emb, l0)) ->
  (forall q l0, opeaService_createEmbeddings svc q l0 = (Ok emb, l0)) ->
  (forall q l0, ionosService_createEmbeddings svc q l0 = (Ok emb, l0)) ->
  nullish emb = false ->
  nullish (prop emb "data") = false ->
  nullish (ofirst (prop emb "data")) = false ->
  (forall coll vec k l0,
     milvusService_search svc coll vec k l0 = (Ok (JArr results), l0)) ->
  results <> [] ->
  Forall (fun h => nullish h = false) results ->
  useReranker_of svc (embeddingProvider_of svc hostProvider) = true ->
  env_or (env svc) "RERANKER_PROVIDER" (lit "opea") = lit "opea" ->
  (forall p l0, opeaService_rerankHits svc p l0 = (Ok reranked, l0)) ->
  exists blocks,
    milvusSearch svc messages hostProvider l
    = (Ok (join block_separator blocks, reranked_js <$> reranked), l)
    /\ length blocks = length reranked
    /\ forall i h, reranked !! i = Some h ->
         blocks !! i
         = Some (lit "[doc-"
                   ++ to_string svc (JNum (inject_Z (Z.of_nat i)))
                   ++ lit "] (score: "
                   ++ to_string svc (or_else (Opea.score h) (JStr (lit "N/A")))
                   ++ lit ")" ++ NL
                   ++ to_string svc
                        (or_else (Opea.text h)
                           (JStr (JSON_stringify svc (reranked_js h))))).
Proof.
  intros Hollama Hopea Hionos Hemb Hdata Hfirst Hsearch Hne Hobj Hactive
    Hprovider Hrerank.
  destruct (reranked_blocks svc reranked 0) as (blocks & Hblocks & Hat).
  destruct (imap_res_long _ _ _ _ Hblocks) as [Hlen Hfilter].
  rewrite length_fmap in Hlen.
  exists blocks. split; [|split; [exact Hlen | exact Hat]].
  destruct (hits_total svc results 0 Hobj) as [hits Hhits].
  unfold milvusSearch.
  assert (Hembed :
    (if str_eqb (embeddingProvider_of svc hostProvider) (lit "ollama")
     then ollamaService_createEmbeddings svc (question_of messages)
     else if str_eqb (embeddingProvider_of svc hostProvider) (lit "opea")
          then opeaService_createEmbeddings svc (question_of messages)
          else ionosService_createEmbeddings svc (question_of messages)) l
    = (Ok emb, l)).
  { destruct (str_eqb _ (lit "ollama")); [apply Hollama|].
    destruct (str_eqb _ (lit "opea")); [apply Hopea | apply Hionos]. }
  rewrite (bind_ok _ _ _ _ _ Hembed).
  unfold prop_strict, first_strict. rewrite Hemb, lift_ok, Hdata, lift_ok.
  rewrite Hfirst, lift_ok.
  rewrite (bind_ok _ _ _ _ _ (Hsearch _ _ _ l)).
  unfold after_search, normalize_results. cbn [is_array items_of].
  rewrite Hactive, Hprovider, str_eqb_refl.
  assert (Hlen' : (0 <? length results)%nat = true).
  { destruct results; [done | reflexivity]. }
  run. cbv beta iota. rewrite Hlen'. cbn [andb].
  rewrite Hhits, Hrerank. cbv beta iota.
  unfold render_context, mbind, res_bind. rewrite Hblocks, Hfilter. done.
Qed.

Lemma reranked_context_witness :
  exists blocks,
    milvusSearch reranker_up [] (Some (lit "opea")) []
    = (Ok (join block_separator blocks, reranked_js <$> reranked_two), [])
    /\ length blocks = length reranked_two
    /\ forall i h, reranked_two !! i = Some h ->
         blocks !! i
         = Some (lit "[doc-"
                   ++ to_string reranker_up (JNum (inject_Z (Z.of_nat i)))
                   ++ lit "] (score: "
                   ++ to_string reranker_up
                        (or_else (Opea.score h) (JStr (lit "N/A")))
                   ++ lit ")" ++ NL
                   ++ to_string reranker_up
                        (or_else (Opea.text h)
                           (JStr (JSON_stringify reranker_up (reranked_js h))))).
Proof.
  apply (reranked_context reranker_up [] (Some (lit "opea"))
           embedded_question two_results reranked_two []);
    try reflexivity; try discriminate.
  repeat constructor.
Defined.

End FallbackFacts.

Module FenceFacts.
Import Gateway Str Query JsFacts Scenarios.

Lemma trim_start_all (s u : jsstring) :
  forallb is_space s = true -> trim_start (s ++ u) = trim_start u.
Proof.
  induction s as [|c s IH]; simpl; [done|].
  intros [Hc Hs]%andb_true_iff. rewrite Hc. by apply IH.
Qed.

Lemma trim_start_some (s u : jsstring) :
  forallb is_space s = false ->
  trim_start (s ++ u) = trim_start s ++ u /\ trim_start s <> [].
Proof.
  induction s as [|c s IH]; simpl; [done|].
  destruct (is_space c) eqn:Hc; simpl; [exact IH|]. by intros _.
Qed.

Lemma trim_start_head (s : jsstring) :
  match trim_start s with
  | c :: _ => is_space c = false
  | [] => forallb is_space s = true
  end.
Proof.
  induction s as [|c s IH]; simpl; [done|].
  destruct (is_space c) eqn:Hc; simpl; [exact IH | exact Hc].
Qed.

Lemma forallb_reverse (f : Z -> bool) (s : jsstring) :
  forallb f (reverse s) = forallb f s.
Proof.
  induction s as [|c s IH]; [done|].
  rewrite reverse_cons, forallb_app, IH. simpl.
  by rewrite andb_true_r, andb_comm.
Qed.

Lemma trim_end_all (s : jsstring) :
  forallb is_space s = true -> trim_end s = [].
Proof.
  intros Hs. unfold trim_end.
  rewrite <- (app_nil_r (reverse s)), trim_start_all; [done|].
  by rewrite forallb_reverse.
Qed.

Lemma trim_end_cons (c : Z) (t : jsstring) :
  forallb is_space (c :: t) = false -> trim_end (c :: t) = c :: trim_end t.
Proof.
  intros Hct. unfold trim_end. rewrite reverse_cons.
  destruct (forallb is_space t) eqn:Ht.
  - rewrite trim_start_all by (by rewrite forallb_reverse).
    simpl in Hct. rewrite Ht, andb_true_r in Hct. simpl. rewrite Hct.
    rewrite <- (app_nil_r (reverse t)), trim_start_all;
      [done | by rewrite forallb_reverse].
  - destruct (trim_start_some (reverse t) [c]) as [-> _];
      [by rewrite forallb_reverse|].
    by rewrite reverse_app.
Qed.

Lemma trim_idem (s : jsstring) : trim (trim s) = trim s.
Proof.
  unfold trim. pose proof (trim_start_head s) as Hhead.
  destruct (trim_start s) as [|c u]; [done|].
  assert (Hcu : forallb is_space (c :: u) = false) by (simpl; by rewrite Hhead).
  rewrite (trim_end_cons _ _ Hcu). simpl. rewrite Hhead.
  rewrite <- (trim_end_cons _ _ Hcu). unfold trim_end.
  rewrite reverse_involutive.
  pose proof (trim_start_head (reverse (c :: u))) as Hlast.
  destruct (trim_start (reverse (c :: u))) as [|d w]; [done|].
  simpl. by rewrite Hlast.
Qed.

Lemma closing_fence_tail (t : jsstring) :
  is_closing_fence (t ++ LF :: fence) = forallb is_space t.
Proof.
  unfold is_closing_fence. destruct (forallb is_space t) eqn:Ht.
  - by rewrite trim_start_all.
  - destruct (trim_start_some t (LF :: fence) Ht) as [-> Hne].
    apply str_eqb_neq. intros Heq. apply (f_equal length) in Heq.
    rewrite length_app in Heq. destruct (trim_start t); [done|].
    simpl in Heq. lia.
Qed.

Lemma strip_tail (t : jsstring) :
  strip_closing_fence (t ++ LF :: fence) = trim_end t.
Proof.
  induction t as [|c t IH]; [done|].
  change (strip_closing_fence ((c :: t) ++ LF :: fence))
    with (if is_closing_fence ((c :: t) ++ LF :: fence) then []
          else c :: strip_closing_fence (t ++ LF :: fence)).
  rewrite closing_fence_tail.
  destruct (forallb is_space (c :: t)) eqn:Hct.
  - by rewrite trim_end_all.
  - by rewrite IH, trim_end_cons.
Qed.

Lemma strip_fenced (body : jsstring) :
  trim (strip_fences (fenced body)) = trim body.
Proof.
  unfold fenced, strip_fences.
  change (starts_with fence (fence ++ lit "json" ++ [LF] ++ body ++ [LF] ++ fence))
    with true.
  cbv beta iota zeta.
  change (drop 3 (fence ++ lit "json" ++ [LF] ++ body ++ [LF] ++ fence))
    with (lit "json" ++ [LF] ++ body ++ [LF] ++ fence).
  change (starts_with (lit "json") (lit "json" ++ [LF] ++ body ++ [LF] ++ fence))
    with true.
  cbv beta iota.
  change (drop 4 (lit "json" ++ [LF] ++ body ++ [LF] ++ fence))
    with ([LF] ++ body ++ LF :: fence).
  change (trim_start ([LF] ++ body ++ LF :: fence))
    with (trim_start (body ++ LF :: fence)).
  destruct (forallb is_space body) eqn:Hbody.
  - rewrite trim_start_all by done.
    change (trim_start (LF :: fence)) with ([] ++ fence).
    unfold trim. rewrite <- (app_nil_r body), trim_start_all by done. done.
  - destruct (trim_start_some body (LF :: fence) Hbody) as [-> _].
    rewrite strip_tail. apply trim_idem.
Qed.

Lemma no_closing_fence (s : jsstring) : 96 ∉ s -> is_closing_fence s = false.
Proof.
  intros Hs. unfold is_closing_fence. apply str_eqb_neq. intros Heq.
  apply Hs. clear Hs. induction s as [|c s IH]; [done|].
  simpl in Heq. destruct (is_space c).
  - right. by apply IH.
  - injection Heq as -> _. left.
Qed.

Lemma strip_unfenced (s : jsstring) : 96 ∉ s -> strip_fences s = s.
Proof.
  intros Hs.
  assert (Hstrip : strip_closing_fence s = s).
  { induction s as [|c s IH]; [done|].
    change (strip_closing_fence (c :: s))
      with (if is_closing_fence (c :: s) then [] else c :: strip_closing_fence s).
    rewrite (no_closing_fence _ Hs), IH; [done|].
    intros Hin. apply Hs. by right. }
  unfold strip_fences. destruct s as [|c s]; [done|].
  destruct (starts_with fence (c :: s)) eqn:Hstart; [|exact Hstrip].
  exfalso. apply Hs.
  change (starts_with fence (c :: s))
    with ((96 =? c) && starts_with [96; 96] s) in Hstart.
  apply andb_true_iff in Hstart as [<-%Z.eqb_eq _]. left.
Qed.

(** A fenced answer is read as its body. When the content of a completion
    is a string made of an opening fence with the tag [json], a line break,
    a body, a line break and a closing fence, both detectors clean it to
    the body without the white space around it, whatever the body holds. *)
Theorem fenced_answer_cleaned (svc : Services) (r : jsval) (body : jsstring) :
  completion_content r = JStr (fenced body) ->
  cleaned_chart svc r = trim body /\ cleaned_alert svc r = trim body.
Proof.
  intros Hr. unfold cleaned_chart, cleaned_alert. rewrite Hr.
  cbn [asString_chart asString_alert]. by rewrite strip_fenced.
Qed.

Lemma fenced_answer_cleaned_witness :
  cleaned_chart offline (completion (JStr fenced_answer)) = trim (lit " {} ")
  /\ cleaned_alert offline (completion (JStr fenced_answer)) = trim (lit " {} ").
Proof.
  apply (fenced_answer_cleaned offline (completion (JStr fenced_answer))
           (lit " {} ")).
  reflexivity.
Defined.

(** An answer without a backtick is only trimmed: when the content of a
    completion is a string that holds no backtick, both detectors clean it
    to the string without the white space around it. *)
Theorem unfenced_answer_trimmed (svc : Services) (r : jsval) (s : jsstring) :
  completion_content r = JStr s -> 96 ∉ s ->
  cleaned_chart svc r = trim s /\ cleaned_alert svc r = trim s.
Proof.
  intros Hr Hs. unfold cleaned_chart, cleaned_alert. rewrite Hr.
  cbn [asString_chart asString_alert]. by rewrite strip_unfenced.
Qed.

Lemma unfenced_answer_trimmed_witness :
  cleaned_chart offline (completion (JStr plain_answer)) = trim plain_answer
  /\ cleaned_alert offline (completion (JStr plain_answer)) = trim plain_answer.
Proof.
  apply (unfenced_answer_trimmed offline (completion (JStr plain_answer))
           plain_answer).
  - reflexivity.
  - intros Hin. apply list_elem_of_In in Hin. vm_compute in Hin. intuition lia.
Defined.

End FenceFacts.

Module ReversibleFacts.
Import Gateway Str Query JsFacts Scenarios MaskFacts.

Lemma lxor_byte (a b : Z) :
  0 <= a < 256 -> 0 <= b < 256 -> 0 <= Z.lxor a b < 256.
Proof.
  intros Ha Hb. split; [apply Z.lxor_nonneg; lia|].
  destruct (Z.eq_dec (Z.lxor a b) 0) as [->|Hnz]; [lia|].
  assert (Hpos : 0 < Z.lxor a b).
  { pose proof (proj2 (Z.lxor_nonneg a b)). lia. }
  apply (Z.log2_lt_pow2 _ 8 Hpos).
  pose proof (Z.log2_lxor a b ltac:(lia) ltac:(lia)) as Hlog.
  assert (Hla : Z.log2 a < 8).
  { destruct (Z.eq_dec a 0) as [->|]; [done|]. apply Z.log2_lt_pow2; lia. }
  assert (Hlb : Z.log2 b < 8).
  { destruct (Z.eq_dec b 0) as [->|]; [done|]. apply Z.log2_lt_pow2; lia. }
  lia.
Qed.

Lemma key_unit_byte (key : jsstring) (i : nat) :
  is_latin1 key -> 0 <= key_unit key i < 256.
Proof.
  intros Hkey. unfold key_unit. destruct key as [|k key]; [lia|].
  generalize (i mod length (k :: key))%nat. intros j.
  destruct ((k :: key) !! j) as [c|] eqn:E.
  - exact (Forall_lookup_1 _ _ _ _ Hkey E).
  - change (0 <= 0 < 256). lia.
Qed.

Lemma hex_digit_plain (d : Z) :
  0 <= d < 16 -> is_line_terminator (hex_digit d) = false.
Proof.
  intros Hd. unfold hex_digit, is_line_terminator.
  destruct (d <? 10) eqn:E; repeat (apply orb_false_iff; split); lia.
Qed.

Lemma hex_digits_plain (fuel : nat) (n : Z) (acc : jsstring) :
  Forall (fun c => is_line_terminator c = false) acc ->
  Forall (fun c => is_line_terminator c = false) (hex_digits fuel n acc).
Proof.
  revert n acc. induction fuel as [|fuel IH]; intros n acc Hacc; simpl; [done|].
  assert (Hacc' : Forall (fun c => is_line_terminator c = false)
                    (hex_digit (n mod 16) :: acc)).
  { constructor; [|done]. apply hex_digit_plain, Z.mod_pos_bound. lia. }
  destruct (n / 16 =? 0); [done | by apply IH].
Qed.

Lemma hex_digits_length (fuel : nat) (n : Z) (acc : jsstring) :
  (length acc <= length (hex_digits fuel n acc))%nat.
Proof.
  revert n acc. induction fuel as [|fuel IH]; intros n acc; simpl; [done|].
  destruct (n / 16 =? 0); [simpl; lia|].
  etrans; [|apply IH]. simpl. lia.
Qed.

Lemma toString16_long (z : Z) :
  256 <= z -> (3 <= length (toString16 z))%nat.
Proof.
  intros Hz. unfold toString16.
  destruct (z <? 0) eqn:Hneg; [lia|].
  assert (Hlog : 8 <= Z.log2 z).
  { change 8 with (Z.log2 256). by apply Z.log2_le_mono. }
  destruct (Z.to_nat (Z.log2 z)) as [|[|f]] eqn:Hf; [lia | lia |].
  cbn [hex_digits].
  assert (H1 : (z / 16 =? 0) = false).
  { apply Z.eqb_neq. pose proof (Z.div_le_mono 256 z 16 ltac:(lia) Hz) as H.
    change (256 / 16) with 16 in H. lia. }
  assert (H2 : (z / 16 / 16 =? 0) = false).
  { apply Z.eqb_neq. rewrite Z.div_div by lia.
    pose proof (Z.div_le_mono 256 z (16 * 16) ltac:(lia) Hz) as H.
    change (256 / (16 * 16)) with 1 in H. lia. }
  rewrite H1, H2.
  destruct (z / 16 / 16 / 16 =? 0); [simpl; lia|].
  etrans; [|apply hex_digits_length]. simpl. lia.
Qed.

Lemma chunk_shape (x : Z) :
  0 <= x ->
  Forall (fun c => is_line_terminator c = false) (padStart2 (toString16 x))
  /\ (2 <= length (padStart2 (toString16 x)))%nat
  /\ (256 <= x -> (3 <= length (padStart2 (toString16 x)))%nat).
Proof.
  intros Hx. unfold padStart2. split; [|split].
  - apply Forall_app. split.
    + by apply Forall_replicate.
    + unfold toString16. destruct (x <? 0) eqn:Hneg; [lia|].
      by apply hex_digits_plain.
  - rewrite length_app, length_replicate. lia.
  - intros Hbig. pose proof (toString16_long x Hbig).
    rewrite length_app, length_replicate. lia.
Qed.

Lemma concat_long (f : nat -> Z -> jsstring) (l : jsstring) :
  (forall i c, l !! i = Some c -> (2 <= length (f i c))%nat) ->
  (2 * length l <= length (concat (imap f l)))%nat
  /\ ((exists i c, l !! i = Some c /\ (3 <= length (f i c))%nat) ->
      (2 * length l + 1 <= length (concat (imap f l)))%nat).
Proof.
  revert f. induction l as [|x l IH]; intros f Hall.
  - split; [done|]. by intros (i & c & Hc & _).
  - cbn [imap concat]. rewrite length_app.
    destruct (IH (f ∘ S)) as [Hlow Hhigh].
    { intros i c Hc. by apply (Hall (S i)). }
    pose proof (Hall 0%nat x eq_refl) as H0.
    split; [simpl; lia|].
    intros ([|i] & c & Hc & Hlong).
    + injection Hc as ->. simpl. lia.
    + assert (Hl := Hhigh (ex_intro _ i (ex_intro _ c (conj Hc Hlong)))).
      simpl. lia.
Qed.

Lemma match_pairs_count (n : nat) (s : jsstring) :
  (length s <= n)%nat ->
  Forall (fun c => is_line_terminator c = false) s ->
  (length s <= 2 * length (match_pairs s))%nat.
Proof.
  revert s. induction n as [|n IH]; intros s Hn Hs.
  - destruct s; [done | simpl in Hn; lia].
  - destruct s as [|a [|b t]]; [done | |].
    + apply Forall_cons_1 in Hs as [Ha _]. simpl. rewrite Ha. simpl. lia.
    + apply Forall_cons_1 in Hs as [Ha Hs].
      apply Forall_cons_1 in Hs as [Hb Hs].
      cbn [match_pairs]. rewrite Ha, Hb.
      assert (Ht := IH t ltac:(simpl in Hn; lia) Hs).
      simpl. simpl in Ht. lia.
Qed.

(** Masking is reversible on Latin-1. For a key and an input that are not
    empty and hold only code units below 256, [unmask] gives back what
    [mask] was given, and the masked text is twice as long as the input. *)
Theorem mask_roundtrip_latin1 (input key : jsstring) :
  key <> [] -> input <> [] ->
  is_latin1 key -> is_latin1 input ->
  unmask (mask input key) key = Ok input
  /\ length (mask input key) = (2 * length input)%nat.
Proof.
  intros Hkey Hinput Hwk Hwi.
  set (f := fun (i : nat) (char : Z) =>
              padStart2 (toString16 (Z.lxor char (key_unit key i)))).
  assert (Hbyte : forall i c, input !! i = Some c ->
                    0 <= Z.lxor c (key_unit key i) < 256).
  { intros i c Hc. apply lxor_byte; [|by apply key_unit_byte].
    exact (Forall_lookup_1 _ _ _ _ Hwi Hc). }
  assert (Hchunks : Forall (fun ch => exists h l, ch = [h; l]
                              /\ is_line_terminator h = false
                              /\ is_line_terminator l = false) (imap f input)).
  { apply Forall_forall. intros ch Hch.
    apply elem_of_lookup_imap_1 in Hch as (i & c & -> & Hc).
    destruct (byte_pair _ (Hbyte i c Hc)) as (h & l & E & _ & _ & Hh & Hl & _).
    by exists h, l. }
  split.
  - unfold unmask, mask. fold f. rewrite (match_pairs_concat _ Hchunks).
    destruct key as [|k key']; [done|].
    destruct (imap f input) as [|p ps] eqn:Eimap.
    { apply (f_equal length) in Eimap. rewrite length_imap in Eimap.
      by destruct input. }
    rewrite <- Eimap. f_equal. apply list_eq. intros i.
    rewrite list_lookup_imap, list_lookup_fmap, list_lookup_imap.
    destruct (input !! i) as [c|] eqn:Hc; simpl; [|done].
    f_equal. unfold f.
    destruct (byte_pair _ (Hbyte i c Hc)) as (h & l & E & _ & _ & _ & _ & Hp).
    rewrite E, Hp. simpl. rewrite xor_twice. unfold fromCharCode.
    pose proof (Forall_lookup_1 _ _ _ _ Hwi Hc). simpl in *.
    apply Z.mod_small. lia.
  - unfold mask. fold f.
    assert (Hlen : length (imap f input) = length input) by apply length_imap.
    revert Hchunks Hlen. generalize (imap f input). clear. intros chunks Hall.
    revert input. induction Hall as [|ch chunks (h & l & -> & _) _ IH];
      intros [|c input] Hlen; try done.
    injection Hlen as Hlen. simpl. rewrite (IH input Hlen). lia.
Qed.

Lemma mask_roundtrip_latin1_witness :
  unmask (mask token secret) secret = Ok token
  /\ length (mask token secret) = (2 * length token)%nat.
Proof.
  apply (mask_roundtrip_latin1 token secret).
  - discriminate.
  - discriminate.
  - apply Forall_forall. intros c Hc. apply list_elem_of_In in Hc.
    vm_compute in Hc. intuition lia.
  - apply Forall_forall. intros c Hc. apply list_elem_of_In in Hc.
    vm_compute in Hc. intuition lia.
Defined.

(** Beyond bytes masking loses the input. For a key that is not empty,
    when some input code unit XORed with its key code unit is 256 or more,
    [mask] writes more than two digits for it, [unmask] cuts the masked
    text into more pieces than the input has code units, and what it
    returns is not the input. *)
Theorem mask_irreversible (input key : jsstring) :
  key <> [] -> is_jsstring key -> is_jsstring input ->
  (exists i c, input !! i = Some c /\ 256 <= Z.lxor c (key_unit key i)) ->
  (2 * length input < length (mask input key))%nat
  /\ unmask (mask input key) key <> Ok input.
Proof.
  intros Hkey Hwk Hwi Hbig.
  set (f := fun (i : nat) (char : Z) =>
              padStart2 (toString16 (Z.lxor char (key_unit key i)))).
  assert (Hnonneg : forall i c, input !! i = Some c ->
                      0 <= Z.lxor c (key_unit key i)).
  { intros i c Hc. apply Z.lxor_nonneg.
    pose proof (key_unit_range key i Hwk).
    pose proof (Forall_lookup_1 _ _ _ _ Hwi Hc). simpl in *. lia. }
  assert (Hlong : (2 * length input + 1 <= length (mask input key))%nat).
  { unfold mask. fold f. apply concat_long.
    - intros i c Hc. by apply chunk_shape, (Hnonneg i c).
    - destruct Hbig as (i & c & Hc & Hx). exists i, c. split; [done|].
      by apply chunk_shape; [apply (Hnonneg i c)|]. }
  split; [lia|].
  assert (Hplain : Forall (fun c => is_line_terminator c = false)
                     (mask input key)).
  { unfold mask. fold f. apply Forall_concat, Forall_forall. intros ch Hch.
    apply elem_of_lookup_imap_1 in Hch as (i & c & -> & Hc).
    by apply chunk_shape, (Hnonneg i c). }
  pose proof (match_pairs_count _ _ (le_n _) Hplain) as Hcount.
  unfold unmask. destruct key as [|k key']; [done|].
  destruct (match_pairs (mask input (k :: key'))) as [|p ps] eqn:Hpairs;
    [done|].
  intros Heq.
  assert (Hlen : length (imap (fun (i : nat) (b : jsint) =>
                           fromCharCode (Z.lxor (int_of b)
                                           (key_unit (k :: key') i)))
                        ((fun h => parseInt h 16) <$> p :: ps))
                 = length input) by congruence.
  rewrite length_imap, length_fmap in Hlen. lia.
Qed.

Lemma mask_irreversible_witness :
  (2 * length wide_token < length (mask wide_token secret))%nat
  /\ unmask (mask wide_token secret) secret <> Ok wide_token.
Proof.
  apply (mask_irreversible wide_token secret).
  - discriminate.
  - apply Forall_forall. intros c Hc. apply list_elem_of_In in Hc.
    vm_compute in Hc. intuition lia.
  - apply Forall_forall. intros c Hc. apply list_elem_of_In in Hc.
    vm_compute in Hc. intuition lia.
  - exists 0%nat, 321. split; [reflexivity | vm_compute; discriminate].
Defined.

End ReversibleFacts.
